(** * The order / payment engine: models, services and views

    A shallow embedding of the Django application:
      - [products/models.py]  (Product: availability and stock mutations;
                               Category: ancestors, path and descendants),
      - [products/services.py] (CategoryTreeService: the serialized tree),
      - [orders/models.py]    (Order, OrderItem: totals and the status machine),
      - [payments/models.py]  (Payment: success / failure marking),
      - [orders/services.py]  (OrderService, OrderValidationService, CheckoutService),
      - [orders/views.py]     (OrderViewSet, checkout),
      - [payments/views.py]   (confirm, status poll, refund, Stripe webhook).

    Conventions of the embedding.
      - A [DecimalField] with two decimal places is an integer number of
        hundredths (cents) in [Z]; an [IntegerField] is a [Z].  A decimal
        column holds [max_digits = 10] digits: saving a value beyond raises
        [decimal.InvalidOperation] before any row is written.
      - A Python [str] is the string of its UTF-8 bytes.
      - A table is the list of its rows in insertion (primary-key) order; a row
        carries its primary key.  A model instance is a row value held by the
        caller: a method receives the instance, and returns the instance as
        the method left it whenever the source mutates [self].
      - The columns [created_at] / [updated_at], names, slugs and categories
        play no role in the operations below and are left out.
      - Python exceptions are values of [exn]; a computation threads the
        database and the log and either returns or raises.  Outside
        [transaction.atomic] every [save] is committed at once (autocommit);
        [atomic] restores the database when its body raises.
      - [timezone.now()] is the [now] argument of the request being served.
      - What the Stripe library and the bKash HTTP interface do to a call is
        an input: a [provider_api]; so is the event Stripe's library makes of
        a webhook request.  The strategies that wrap them are embedded.
      - A view receives the request fields as typed text and numbers and runs
        its serializer on them, which answers 400 by itself.
      - The log holds what is logged at warning level and above; the
        [logger.info] and [logger.debug] lines are left out.
      - A [while] loop, and a recursion over the category tree, runs on fuel:
        [OutOfFuel] is the answer of a run that needed more steps. *)

From stdpp Require Import base decidable option list strings.
From Stdlib Require Import ZArith Lia Ascii String.

#[local] Open Scope Z_scope.

(** ** Column types *)

Inductive product_status := Active | Inactive | OutOfStock.
Inductive order_status :=
  OPending | OPaid | OProcessing | OShipped | ODelivered | OCancelled.
Inductive payment_status :=
  PPending | PProcessing | PSuccess | PFailed | PCancelled | PRefunded.

#[global] Instance product_status_eq_dec : EqDecision product_status.
Proof. solve_decision. Defined.
#[global] Instance order_status_eq_dec : EqDecision order_status.
Proof. solve_decision. Defined.
#[global] Instance payment_status_eq_dec : EqDecision payment_status.
Proof. solve_decision. Defined.

(** A JSON object, as far as the code looks into one: its keys and values. *)
Definition json := list (string * string).

(** Python truthiness of an optional dict: [None] and [{}] are false. *)
Definition truthy (d : option json) : bool :=
  match d with
  | Some (_ :: _) => true
  | _ => false
  end.

(** What [d.get(key)] finds in a JSON object. *)
Inductive lookup (A : Type) :=
  | Missing
  | Null
  | Value (a : A).
Arguments Missing {A}.
Arguments Null {A}.
Arguments Value {A} a.

(** ** Text *)

Definition byte_is (c : ascii) (n : nat) : bool := (nat_of_ascii c =? n)%nat.

(** [str.lower()] on the letters A-Z. *)
Definition lower_ascii (c : ascii) : ascii :=
  let n := nat_of_ascii c in
  if (65 <=? n)%nat && (n <=? 90)%nat then ascii_of_nat (n + 32) else c.

(** [str.lower()].  Beside the letters A-Z, the one character whose
    lower-case form is ASCII text is the Kelvin sign U+212A (bytes E2 84 AA),
    which becomes k.  The code compares the result with ASCII words, and
    stores it only where it is one of them; for that the definition is exact.
    Other characters beyond ASCII, none of which can lead to an ASCII word,
    are left as they are. *)
Fixpoint lower (s : string) : string :=
  match s with
  | EmptyString => EmptyString
  | String c s1 =>
      match s1 with
      | String c2 (String c3 rest) =>
          if byte_is c 226 && byte_is c2 132 && byte_is c3 170
          then String "k" (lower rest)
          else String (lower_ascii c) (lower s1)
      | _ => String (lower_ascii c) (lower s1)
      end
  end.

(** The white space of [str.strip()] ([str.isspace]): U+0009-000D,
    U+001C-0020, U+0085, U+00A0, U+1680, U+2000-200A, U+2028, U+2029, U+202F,
    U+205F and U+3000, by their UTF-8 bytes. *)
Definition space1 (c : ascii) : bool :=
  let n := nat_of_ascii c in
  ((9 <=? n) && (n <=? 13) || (28 <=? n) && (n <=? 32))%nat.
Definition space2 (c1 c2 : ascii) : bool :=
  byte_is c1 194 && (byte_is c2 133 || byte_is c2 160).
Definition space3 (c1 c2 c3 : ascii) : bool :=
  let n := nat_of_ascii c3 in
  byte_is c1 225 && byte_is c2 154 && byte_is c3 128 ||
  byte_is c1 226 && byte_is c2 128 &&
    ((128 <=? n) && (n <=? 138) || byte_is c3 168 || byte_is c3 169 || byte_is c3 175)%nat ||
  byte_is c1 226 && byte_is c2 129 && byte_is c3 159 ||
  byte_is c1 227 && byte_is c2 128 && byte_is c3 128.

Fixpoint lstrip (s : string) : string :=
  match s with
  | EmptyString => EmptyString
  | String c1 s1 =>
      if space1 c1 then lstrip s1
      else
        match s1 with
        | String c2 s2 =>
            if space2 c1 c2 then lstrip s2
            else
              match s2 with
              | String c3 s3 => if space3 c1 c2 c3 then lstrip s3 else s
              | EmptyString => s
              end
        | EmptyString => s
        end
  end.

(** The same from the end, on the bytes in reverse. *)
Fixpoint lstrip_reversed (s : list ascii) : list ascii :=
  match s with
  | [] => []
  | c1 :: s1 =>
      if space1 c1 then lstrip_reversed s1
      else
        match s1 with
        | c2 :: s2 =>
            if space2 c2 c1 then lstrip_reversed s2
            else
              match s2 with
              | c3 :: s3 => if space3 c3 c2 c1 then lstrip_reversed s3 else s
              | [] => s
              end
        | [] => s
        end
  end.

Definition rstrip (s : string) : string :=
  string_of_list_ascii (rev (lstrip_reversed (rev (list_ascii_of_string s)))).

Definition strip (s : string) : string := rstrip (lstrip s).

(** [len(s)]: the characters, not the bytes; a character has one byte that
    is no continuation byte (10xxxxxx). *)
Fixpoint len (s : string) : nat :=
  match s with
  | EmptyString => O
  | String c s1 =>
      let n := nat_of_ascii c in
      if ((128 <=? n) && (n <? 192))%nat then len s1 else S (len s1)
  end.

Fixpoint has_nul (s : string) : bool :=
  match s with
  | EmptyString => false
  | String c s1 => byte_is c 0 || has_nul s1
  end.

(** rest_framework's [CharField] as the serializers declare it: the text is
    trimmed; blank text is refused unless [allow_blank]; a NUL character is
    refused; [max_length] bounds the number of characters.  [None] is the
    field's refusal. *)
Definition CharField (allow_blank : bool) (max_length : option nat) (data : string)
  : option string :=
  let value := strip data in
  if bool_decide (value = "") then (if allow_blank then Some "" else None)
  else if has_nul value then None
  else
    match max_length with
    | Some n => if (len value <=? n)%nat then Some value else None
    | None => Some value
    end.

(** ** Rows *)

Record product := Product_ {
  p_id : Z;
  p_price : Z;
  p_stock : Z;
  p_status : product_status
}.

Record order := Order_ {
  o_id : Z;
  o_user : Z;
  o_total_amount : Z;
  o_status : order_status;
  o_notes : string
}.

Record order_item := OrderItem_ {
  i_id : Z;
  i_order : Z;
  i_product : Z;
  i_quantity : Z;
  i_price : Z;
  i_subtotal : Z
}.

(** The only key the code ever writes into [Payment.metadata] is ['refund']. *)
Record refund_record := Refund_ {
  rf_refund_id : option string;
  rf_amount : Z;
  rf_reason : string
}.

Record payment := Payment_ {
  pay_id : Z;
  pay_order : Z;
  pay_provider : string;
  pay_transaction_id : string;
  pay_amount : Z;
  pay_currency : string;
  pay_status : payment_status;
  pay_raw_response : json;
  pay_error_message : string;
  pay_metadata_refund : option refund_record;
  pay_completed_at : option Z
}.

Record user := User_ {
  u_id : Z;
  u_is_admin : bool;
  u_is_superuser : bool
}.

Definition has_admin_privileges (u : user) : bool :=
  u_is_admin u || u_is_superuser u.

(** ** The database *)

Record database := Database_ {
  products : list product;
  orders : list order;
  order_items : list order_item;
  payments : list payment;
  order_seq : Z;
  item_seq : Z;
  payment_seq : Z
}.

(** Row lookup by key, and row replacement by key (an SQL UPDATE). *)
Fixpoint row_get {A} (key : A -> Z) (k : Z) (t : list A) : option A :=
  match t with
  | [] => None
  | r :: t' => if bool_decide (key r = k) then Some r else row_get key k t'
  end.

Definition row_put {A} (key : A -> Z) (r : A) (t : list A) : list A :=
  map (fun x => if bool_decide (key x = key r) then r else x) t.

Definition row_del {A} (key : A -> Z) (k : Z) (t : list A) : list A :=
  filter (fun x => key x <> k) t.

Definition set_products (d : database) (t : list product) : database :=
  Database_ t (orders d) (order_items d) (payments d)
            (order_seq d) (item_seq d) (payment_seq d).
Definition set_orders (d : database) (t : list order) : database :=
  Database_ (products d) t (order_items d) (payments d)
            (order_seq d) (item_seq d) (payment_seq d).
Definition set_order_items (d : database) (t : list order_item) (next : Z) : database :=
  Database_ (products d) (orders d) t (payments d)
            (order_seq d) next (payment_seq d).
Definition set_payments (d : database) (t : list payment) : database :=
  Database_ (products d) (orders d) (order_items d) t
            (order_seq d) (item_seq d) (payment_seq d).

(** ** Exceptions, log and the computation monad *)

Inductive strategy := Stripe | Bkash.

(** The calls a strategy makes to its provider. *)
Inductive operation :=
  | TokenGrant
  | CreatePayment
  | ConfirmPayment
  | GetPaymentStatus
  | RefundPayment.

(** The itemised complaints of [validate_order_items]; [n] is the 1-based
    position of the item. *)
Inductive item_error :=
  | NoItems
  | ItemQuantityNotPositive (n : nat)
  | ItemProductNotAvailable (n : nat) (pid : Z)
  | ItemInsufficientStock (n : nat) (pid available requested : Z)
  | ItemProductNotFound (n : nat).

Inductive message :=
  | QuantityMustBePositive
  | InsufficientStock (available requested : Z)
  | CannotMarkPaid (current : order_status)
  | CannotCancel (current : order_status)
  | EmptyOrder
  | ProductNotAvailable (pid : Z)
  | InsufficientStockFor (pid available requested : Z)
  | ProductNotFound (pid : Z)
  | NotOwner
  | ItemErrors (errors : list item_error)
  | Text (s : string)
  | StatusMustBePending (current : order_status)
  | TotalMustBePositive
  | OrderHasNoItems
  | NoLongerAvailable (pid : Z)
  | UnsupportedProvider (name : string)
  | ProviderError (e : option string)
  | PaymentInitiationFailed (cause : message)
  | StrategyError (s : strategy) (op : operation) (e : string)
  | WebhookError (what : string) (e : string)
  | CannotBeConfirmed (current : payment_status)
  | CannotBeRefunded (current : payment_status)
  | Uncaught.

Inductive exn :=
  | ValueError (m : message)
  | ValidationError (m : message)
  | ProductDoesNotExist
  | OrderDoesNotExist
  | PaymentDoesNotExist
  | IntegrityError
  | DatabaseError
  | InvalidOperation
  | AttributeError
  | TypeError
  | StripeError (e : string)
  | RequestException (e : string).

(** [str(e)] as the handlers use it. *)
Definition str (e : exn) : message :=
  match e with
  | ValueError m | ValidationError m => m
  | StripeError e | RequestException e => Text e
  | _ => Uncaught
  end.

Inductive level := Warning | Error.
Record log_record := Log_ { l_level : level; l_logger : string; l_about : Z; l_message : message }.

Record world := World_ { db : database; logs : list log_record }.

Inductive result (A : Type) :=
  | Ok (a : A)
  | Raise (e : exn).
Arguments Ok {A} a.
Arguments Raise {A} e.

Definition M (A : Type) : Type := world -> result A * world.

Definition ret {A} (a : A) : M A := fun w => (Ok a, w).
Definition raise {A} (e : exn) : M A := fun w => (Raise e, w).
Definition bind {A B} (m : M A) (k : A -> M B) : M B :=
  fun w => match m w with
           | (Ok a, w') => k a w'
           | (Raise e, w') => (Raise e, w')
           end.

Declare Scope m_scope.
Delimit Scope m_scope with M.
Notation "x <- m ;; k" := (bind m (fun x => k))
  (at level 100, m at next level, k at level 200, right associativity) : m_scope.
Notation "m ;; k" := (bind m (fun _ => k))
  (at level 100, k at level 200, right associativity) : m_scope.
#[local] Open Scope m_scope.

Definition read {A} (f : database -> A) : M A := fun w => (Ok (f (db w)), w).
Definition write (f : database -> database) : M unit :=
  fun w => (Ok tt, World_ (f (db w)) (logs w)).
Definition logger (l : level) (name : string) (about : Z) (m : message) : M unit :=
  fun w => (Ok tt, World_ (db w) (logs w ++ [Log_ l name about m])).
Definition of_option {A} (o : option A) (e : exn) : M A :=
  match o with
  | Some a => ret a
  | None => raise e
  end.

(** [try: m except <handled> as e: h e]: an exception that [handles] does not
    select propagates. *)
Definition try_except {A} (m : M A) (handles : exn -> bool) (h : exn -> M A) : M A :=
  fun w => match m w with
           | (Ok a, w') => (Ok a, w')
           | (Raise e, w') => if handles e then h e w' else (Raise e, w')
           end.

(** [@transaction.atomic]: the body's writes are kept when it returns and
    undone when it raises; the log is not part of the transaction. *)
Definition atomic {A} (m : M A) : M A :=
  fun w => match m w with
           | (Ok a, w') => (Ok a, w')
           | (Raise e, w') => (Raise e, World_ (db w) (logs w'))
           end.

(** [for x in xs: body x], where the body updates a local object [s]. *)
Fixpoint for_each_with {A S} (xs : list A) (s : S) (body : A -> S -> M S) : M S :=
  match xs with
  | [] => ret s
  | x :: xs' => s' <- body x s ;; for_each_with xs' s' body
  end.

(** [for x in xs: body x] *)
Fixpoint for_each {A} (xs : list A) (body : A -> M unit) : M unit :=
  match xs with
  | [] => ret tt
  | x :: xs' => body x ;; for_each xs' body
  end.

Definition is_ValueError (e : exn) : bool :=
  match e with ValueError _ => true | _ => false end.
Definition is_ValidationError (e : exn) : bool :=
  match e with ValidationError _ => true | _ => false end.
Definition is_ProductDoesNotExist (e : exn) : bool :=
  match e with ProductDoesNotExist => true | _ => false end.
Definition is_PaymentDoesNotExist (e : exn) : bool :=
  match e with PaymentDoesNotExist => true | _ => false end.
Definition is_StripeError (e : exn) : bool :=
  match e with StripeError _ => true | _ => false end.
Definition is_RequestException (e : exn) : bool :=
  match e with RequestException _ => true | _ => false end.
Definition is_Exception (e : exn) : bool := true.

(** A [DecimalField(max_digits=10, decimal_places=2)] on its way into the
    database: at most ten digits, or [decimal.InvalidOperation]. *)
Definition fits (cents : Z) : bool :=
  bool_decide (-10000000000 < cents < 10000000000).
Definition decimal_column (cents : Z) : M unit :=
  if fits cents then ret tt else raise InvalidOperation.

(** ** products/models.py *)

Module Product.

Definition objects_get (k : Z) : M product :=
  o <- read (fun d => row_get p_id k (products d)) ;;
  of_option o ProductDoesNotExist.

(** [self.save(update_fields=['stock', 'status', 'updated_at'])] *)
Definition save (self : product) : M unit :=
  o <- read (fun d => row_get p_id (p_id self) (products d)) ;;
  match o with
  | None => raise DatabaseError
  | Some r =>
      write (fun d => set_products d
        (row_put p_id (Product_ (p_id r) (p_price r) (p_stock self) (p_status self))
                 (products d)))
  end.

Definition is_available (self : product) : bool :=
  bool_decide (p_status self = Active) && bool_decide (p_stock self > 0).

Definition reduce_stock (self : product) (quantity : Z) : M product :=
  if bool_decide (quantity <= 0) then raise (ValueError QuantityMustBePositive)
  else if bool_decide (p_stock self < quantity)
  then raise (ValueError (InsufficientStock (p_stock self) quantity))
  else
    let stock := p_stock self - quantity in
    let status := if bool_decide (stock = 0) then OutOfStock else p_status self in
    let self := Product_ (p_id self) (p_price self) stock status in
    save self ;;
    ret self.

Definition increase_stock (self : product) (quantity : Z) : M product :=
  if bool_decide (quantity <= 0) then raise (ValueError QuantityMustBePositive)
  else
    let stock := p_stock self + quantity in
    let status :=
      if bool_decide (p_status self = OutOfStock) then Active else p_status self in
    let self := Product_ (p_id self) (p_price self) stock status in
    save self ;;
    ret self.

End Product.

(** ** orders/models.py *)

Module Order.

Definition objects_get (k : Z) : M order :=
  o <- read (fun d => row_get o_id k (orders d)) ;;
  of_option o OrderDoesNotExist.

(** [Order.objects.create(user=..., total_amount=..., notes=...)]: the
    status column takes its default, ['pending']. *)
Definition objects_create (user_id total_amount : Z) (notes : string) : M order :=
  decimal_column total_amount ;;
  k <- read order_seq ;;
  taken <- read (fun d => row_get o_id k (orders d)) ;;
  match taken with
  | Some _ => raise IntegrityError
  | None =>
      let self := Order_ k user_id total_amount OPending notes in
      write (fun d => Database_ (products d) (orders d ++ [self]) (order_items d)
                                (payments d) (k + 1) (item_seq d) (payment_seq d)) ;;
      ret self
  end.

(** [self.items.all()], in the model's ordering (by id). *)
Definition items (self : order) : M (list order_item) :=
  read (fun d => filter (fun i => i_order i = o_id self) (order_items d)).

Definition calculate_total (self : order) : M Z :=
  its <- items self ;;
  ret (fold_left (fun total item => total + i_subtotal item) its 0).

(** [self.save(update_fields=[...])]: [cols] copies the named columns of
    [self] into the stored row. *)
Definition save (self : order) (cols : order -> order) : M unit :=
  o <- read (fun d => row_get o_id (o_id self) (orders d)) ;;
  match o with
  | None => raise DatabaseError
  | Some r => write (fun d => set_orders d (row_put o_id (cols r) (orders d)))
  end.

Definition col_total_amount (self r : order) : order :=
  Order_ (o_id r) (o_user r) (o_total_amount self) (o_status r) (o_notes r).
Definition col_status (self r : order) : order :=
  Order_ (o_id r) (o_user r) (o_total_amount r) (o_status self) (o_notes r).

Definition with_total_amount (self : order) (total : Z) : order :=
  Order_ (o_id self) (o_user self) total (o_status self) (o_notes self).
Definition with_status (self : order) (st : order_status) : order :=
  Order_ (o_id self) (o_user self) (o_total_amount self) st (o_notes self).

Definition recalculate_and_save (self : order) : M order :=
  total <- calculate_total self ;;
  let self := with_total_amount self total in
  decimal_column (o_total_amount self) ;;
  save self (col_total_amount self) ;;
  ret self.

Definition mark_as_paid (self : order) : M order :=
  if bool_decide (o_status self <> OPending)
  then raise (ValueError (CannotMarkPaid (o_status self)))
  else
    let self := with_status self OPaid in
    save self (col_status self) ;;
    its <- items self ;;
    for_each its (fun item =>
      product <- Product.objects_get (i_product item) ;;
      Product.reduce_stock product (i_quantity item) ;;
      ret tt) ;;
    ret self.

Definition cancel (self : order) : M order :=
  if bool_decide (o_status self = OShipped \/ o_status self = ODelivered)
  then raise (ValueError (CannotCancel (o_status self)))
  else
    (if bool_decide (o_status self = OPaid) then
       its <- items self ;;
       for_each its (fun item =>
         product <- Product.objects_get (i_product item) ;;
         Product.increase_stock product (i_quantity item) ;;
         ret tt)
     else ret tt) ;;
    let self := with_status self OCancelled in
    save self (col_status self) ;;
    ret self.

Definition can_be_modified (self : order) : bool :=
  bool_decide (o_status self = OPending).

End Order.

Module OrderItem.

Definition calculate_subtotal (quantity price : Z) : Z := quantity * price.

(** [OrderItem.objects.create(order=..., product=..., quantity=..., price=...)]:
    the instance is built and [save()] runs.  [price] is [None] when the
    caller leaves it out; [None] and zero are false in [if not self.price].
    The INSERT obeys the foreign keys and [unique_together (order, product)].
    The parent order object is the caller's, and comes back with the total
    that [recalculate_and_save] gave it. *)
Definition objects_create (o : order) (p : product) (quantity : Z) (price : option Z)
  : M (order_item * order) :=
  let price :=
    match price with
    | Some v => if bool_decide (v = 0) then p_price p else v
    | None => p_price p
    end in
  let subtotal := calculate_subtotal quantity price in
  decimal_column price ;;
  decimal_column subtotal ;;
  k <- read item_seq ;;
  ok <- read (fun d =>
    bool_decide (is_Some (row_get o_id (o_id o) (orders d))) &&
    bool_decide (is_Some (row_get p_id (p_id p) (products d))) &&
    bool_decide (row_get i_id k (order_items d) = None) &&
    forallb (fun i => negb (bool_decide (i_order i = o_id o) &&
                              bool_decide (i_product i = p_id p)))
            (order_items d)) ;;
  if negb ok then raise IntegrityError
  else
    let self := OrderItem_ k (o_id o) (p_id p) quantity price subtotal in
    write (fun d => set_order_items d (order_items d ++ [self]) (k + 1)) ;;
    o' <- (if bool_decide (o_id o <> 0) then Order.recalculate_and_save o else ret o) ;;
    ret (self, o').

Definition delete (self : order_item) : M unit :=
  o <- Order.objects_get (i_order self) ;;
  write (fun d => set_order_items d (row_del i_id (i_id self) (order_items d)) (item_seq d)) ;;
  Order.recalculate_and_save o ;;
  ret tt.

End OrderItem.

(** ** payments/models.py *)

Module Payment.

(** [Payment.objects.get(<unique column> = ...)] *)
Definition objects_get (sel : payment -> bool) : M payment :=
  o <- read (fun d => find sel (payments d)) ;;
  of_option o PaymentDoesNotExist.

Definition by_transaction_id (t : option string) (p : payment) : bool :=
  bool_decide (Some (pay_transaction_id p) = t).
Definition by_id (k : Z) (p : payment) : bool := bool_decide (pay_id p = k).

(** [Payment.objects.create(...)]: [transaction_id] is unique and NOT NULL,
    [order] is a foreign key; [error_message], [metadata] and
    [completed_at] take their defaults. *)
Definition objects_create (o : order) (provider : string) (transaction_id : option string)
    (amount : Z) (currency : string) (status : payment_status) (raw_response : json)
  : M payment :=
  decimal_column amount ;;
  k <- read payment_seq ;;
  match transaction_id with
  | None => raise IntegrityError
  | Some t =>
      ok <- read (fun d =>
        bool_decide (is_Some (row_get o_id (o_id o) (orders d))) &&
        bool_decide (row_get pay_id k (payments d) = None) &&
        forallb (fun p => negb (bool_decide (pay_transaction_id p = t))) (payments d)) ;;
      if negb ok then raise IntegrityError
      else
        let self := Payment_ k (o_id o) provider t amount currency status
                             raw_response "" None None in
        write (fun d => Database_ (products d) (orders d) (order_items d)
                                  (payments d ++ [self])
                                  (order_seq d) (item_seq d) (k + 1)) ;;
        ret self
  end.

(** [self.save(update_fields=[...])]: [cols] copies the named columns of
    [self] into the stored row. *)
Definition save (self : payment) (cols : payment -> payment) : M unit :=
  o <- read (fun d => row_get pay_id (pay_id self) (payments d)) ;;
  match o with
  | None => raise DatabaseError
  | Some r => write (fun d => set_payments d (row_put pay_id (cols r) (payments d)))
  end.

Definition with_outcome (r : payment) (st : payment_status) (err : string)
    (completed : option Z) (raw : json) : payment :=
  Payment_ (pay_id r) (pay_order r) (pay_provider r) (pay_transaction_id r)
           (pay_amount r) (pay_currency r) st raw err
           (pay_metadata_refund r) completed.
Definition with_status (r : payment) (st : payment_status) : payment :=
  with_outcome r st (pay_error_message r) (pay_completed_at r) (pay_raw_response r).
Definition with_refund (r : payment) (st : payment_status) (rf : option refund_record)
  : payment :=
  Payment_ (pay_id r) (pay_order r) (pay_provider r) (pay_transaction_id r)
           (pay_amount r) (pay_currency r) st (pay_raw_response r)
           (pay_error_message r) rf (pay_completed_at r).

(** ['status', 'completed_at', 'raw_response'] *)
Definition cols_success (self r : payment) : payment :=
  with_outcome r (pay_status self) (pay_error_message r)
               (pay_completed_at self) (pay_raw_response self).
(** ['status', 'error_message', 'completed_at', 'raw_response'] *)
Definition cols_failed (self r : payment) : payment :=
  with_outcome r (pay_status self) (pay_error_message self)
               (pay_completed_at self) (pay_raw_response self).
(** ['status'] *)
Definition cols_status (self r : payment) : payment :=
  with_status r (pay_status self).
(** ['status', 'metadata'] *)
Definition cols_refund (self r : payment) : payment :=
  with_refund r (pay_status self) (pay_metadata_refund self).

Definition raw_after (self : payment) (transaction_data : option json) : json :=
  match transaction_data with
  | Some d => if truthy transaction_data then d else pay_raw_response self
  | None => pay_raw_response self
  end.

Definition mark_as_success (self : payment) (transaction_data : option json) (now : Z)
  : M payment :=
  let self := with_outcome self PSuccess (pay_error_message self) (Some now)
                           (raw_after self transaction_data) in
  save self (cols_success self) ;;
  try_except
    (o <- Order.objects_get (pay_order self) ;;
     Order.mark_as_paid o ;;
     ret tt)
    is_ValueError
    (fun e => logger Warning "payments" (pay_id self) (str e)) ;;
  ret self.

Definition mark_as_failed (self : payment) (error_message : string)
    (transaction_data : option json) (now : Z) : M payment :=
  let self := with_outcome self PFailed error_message (Some now)
                           (raw_after self transaction_data) in
  save self (cols_failed self) ;;
  ret self.

Definition mark_as_processing (self : payment) : M payment :=
  let self := with_status self PProcessing in
  save self (cols_status self) ;;
  ret self.

Definition can_be_refunded (self : payment) : bool :=
  bool_decide (pay_status self = PSuccess).
Definition is_successful (self : payment) : bool :=
  bool_decide (pay_status self = PSuccess).
Definition is_pending (self : payment) : bool :=
  bool_decide (pay_status self = PPending).

End Payment.

(** ** payments/payment_strategies.py

    The strategies talk to Stripe and bKash over the network.  What comes
    back from there is the input [provider_api]; what a strategy returns to
    its caller is a dict, and [provider_reply] holds the keys the callers
    read.  [r_status] is [None] where the dict has no text under ['status']. *)

Record provider_reply := Reply_ {
  r_success : bool;
  r_transaction_id : option string;
  r_status : option string;
  r_error : option string;
  r_raw_response : option json;
  r_client_secret : option string;
  r_bkash_url : option string;
  r_refund_id : option string
}.

(** The reply itself, as the dict it is (never empty: it has ['success']). *)
Definition reply_dict (r : provider_reply) : json :=
  ("success", if r_success r then "True" else "False") ::
  match r_error r with
  | Some e => [("error", e)]
  | None => []
  end.

(** The object a Stripe call returns (a PaymentIntent or a Refund), or the
    JSON body of a bKash response: [a_id] is [.id] or ['paymentID'],
    [a_status] is [.status] or ['transactionStatus'], [a_refund_id] is
    [.id] of a refund or ['refundTrxID'].  [a_amount] is what
    [get_payment_status] makes of the amount and the currency in it
    ([Decimal(payment_intent.amount) / 100] and [.currency.upper()],
    [Decimal(result.get('amount', '0'))]): [None] where they are a number
    and a text, or the exception that is raised. *)
Record api_object := Object_ {
  a_id : option string;
  a_status : option string;
  a_client_secret : option string;
  a_bkash_url : option string;
  a_refund_id : option string;
  a_amount : option exn;
  a_raw : json
}.

(** What a call comes to: an object, or the exception the strategies catch
    ([stripe.error.StripeError], [requests.RequestException]) with its
    text. *)
Inductive api_answer :=
  | Responds (a : api_object)
  | Throws (e : string).

(** What the outside world does to one call of a strategy.  [token_grant] is
    read by bKash only, which asks for a token before every call (a strategy
    object lives for one call): [Some e] when that request raises
    [RequestException]. *)
Record provider_api := Api_ {
  token_grant : option string;
  call : api_answer
}.

(** [event.data.object] of a Stripe event: the object itself, its ['id'],
    and its ['last_payment_error'] with the ['message'] in it. *)
Record event_object := Event_ {
  d_json : json;
  d_id : option string;
  d_last_payment_error : lookup (lookup string)
}.

(** What [stripe.Webhook.construct_event] makes of a request. *)
Inductive webhook_answer :=
  | Event (type : string) (data : event_object)
  | BadPayload (e : string)
  | BadSignature (e : string).

(** What [handle_webhook] returns. *)
Record webhook_reply := Webhook_ {
  wh_success : bool;
  wh_error : option string;
  wh_event_type : option string;
  wh_data : option event_object
}.

Definition refused (e : string) : provider_reply :=
  Reply_ false None None (Some e) None None None None.

Module StripePaymentStrategy.

(** A call into the Stripe library. *)
Definition request (x : provider_api) : M api_object :=
  match call x with
  | Responds a => ret a
  | Throws e => raise (StripeError e)
  end.

Definition text (e : exn) : string :=
  match e with StripeError t | RequestException t => t | _ => "" end.

Definition create_payment (x : provider_api) : M provider_reply :=
  try_except
    (payment_intent <- request x ;;
     ret (Reply_ true (a_id payment_intent) (a_status payment_intent) None
                 (Some (a_raw payment_intent)) (a_client_secret payment_intent)
                 None None))
    is_StripeError
    (fun e =>
       logger Error "payments" 0 (StrategyError Stripe CreatePayment (text e)) ;;
       ret (refused (text e))).

Definition confirm_payment (x : provider_api) : M provider_reply :=
  try_except
    (payment_intent <- request x ;;
     ret (Reply_ true (a_id payment_intent) (a_status payment_intent) None
                 (Some (a_raw payment_intent)) None None None))
    is_StripeError
    (fun e =>
       logger Error "payments" 0 (StrategyError Stripe ConfirmPayment (text e)) ;;
       ret (refused (text e))).

Definition get_payment_status (x : provider_api) : M provider_reply :=
  try_except
    (payment_intent <- request x ;;
     (* 'amount': Decimal(payment_intent.amount) / 100,
        'currency': payment_intent.currency.upper() *)
     match a_amount payment_intent with
     | Some e => raise e
     | None =>
         ret (Reply_ true (a_id payment_intent) (a_status payment_intent) None
                     (Some (a_raw payment_intent)) None None None)
     end)
    is_StripeError
    (fun e =>
       logger Error "payments" 0 (StrategyError Stripe GetPaymentStatus (text e)) ;;
       ret (refused (text e))).

Definition refund_payment (x : provider_api) : M provider_reply :=
  try_except
    (refund <- request x ;;
     ret (Reply_ true None (a_status refund) None (Some (a_raw refund))
                 None None (a_refund_id refund)))
    is_StripeError
    (fun e =>
       logger Error "payments" 0 (StrategyError Stripe RefundPayment (text e)) ;;
       ret (refused (text e))).

Definition handle_webhook (x : webhook_answer) : M webhook_reply :=
  match x with
  | Event type data => ret (Webhook_ true None (Some type) (Some data))
  | BadPayload e =>
      logger Error "payments" 0 (WebhookError "Invalid payload" e) ;;
      ret (Webhook_ false (Some "Invalid payload") None None)
  | BadSignature e =>
      logger Error "payments" 0 (WebhookError "Invalid signature" e) ;;
      ret (Webhook_ false (Some "Invalid signature") None None)
  end.

End StripePaymentStrategy.

Module BkashPaymentStrategy.

Definition text := StripePaymentStrategy.text.

(** [self.token] is [None] on a new strategy object, so the token is asked
    for; the failure is logged and raised again. *)
Definition _get_token (x : provider_api) : M unit :=
  match token_grant x with
  | None => ret tt
  | Some e =>
      logger Error "payments" 0 (StrategyError Bkash TokenGrant e) ;;
      raise (RequestException e)
  end.

(** [requests.post] / [requests.get], [raise_for_status] and [json()]. *)
Definition request (x : provider_api) : M api_object :=
  match call x with
  | Responds a => ret a
  | Throws e => raise (RequestException e)
  end.

Definition create_payment (x : provider_api) : M provider_reply :=
  try_except
    (_get_token x ;;
     result <- request x ;;
     ret (Reply_ true (a_id result) (Some "pending") None (Some (a_raw result))
                 None (a_bkash_url result) None))
    is_RequestException
    (fun e =>
       logger Error "payments" 0 (StrategyError Bkash CreatePayment (text e)) ;;
       ret (refused (text e))).

Definition confirm_payment (x : provider_api) : M provider_reply :=
  try_except
    (_get_token x ;;
     result <- request x ;;
     ret (Reply_ true (a_id result) (a_status result) None (Some (a_raw result))
                 None None None))
    is_RequestException
    (fun e =>
       logger Error "payments" 0 (StrategyError Bkash ConfirmPayment (text e)) ;;
       ret (refused (text e))).

Definition get_payment_status (x : provider_api) : M provider_reply :=
  try_except
    (_get_token x ;;
     result <- request x ;;
     (* 'amount': Decimal(result.get('amount', '0')) *)
     match a_amount result with
     | Some e => raise e
     | None =>
         ret (Reply_ true (a_id result) (a_status result) None (Some (a_raw result))
                     None None None)
     end)
    is_RequestException
    (fun e =>
       logger Error "payments" 0 (StrategyError Bkash GetPaymentStatus (text e)) ;;
       ret (refused (text e))).

Definition refund_payment (x : provider_api) : M provider_reply :=
  try_except
    (_get_token x ;;
     result <- request x ;;
     ret (Reply_ true None (a_status result) None (Some (a_raw result))
                 None None (a_refund_id result)))
    is_RequestException
    (fun e =>
       logger Error "payments" 0 (StrategyError Bkash RefundPayment (text e)) ;;
       ret (refused (text e))).

(** bKash has no webhooks. *)
Definition handle_webhook : M webhook_reply :=
  logger Warning "payments" 0 (Text "bKash webhook handling not implemented") ;;
  ret (Webhook_ false (Some "bKash webhooks not supported") None None).

End BkashPaymentStrategy.

Module PaymentContext.

Definition create_payment (s : strategy) : provider_api -> M provider_reply :=
  match s with
  | Stripe => StripePaymentStrategy.create_payment
  | Bkash => BkashPaymentStrategy.create_payment
  end.
Definition confirm_payment (s : strategy) : provider_api -> M provider_reply :=
  match s with
  | Stripe => StripePaymentStrategy.confirm_payment
  | Bkash => BkashPaymentStrategy.confirm_payment
  end.
Definition get_payment_status (s : strategy) : provider_api -> M provider_reply :=
  match s with
  | Stripe => StripePaymentStrategy.get_payment_status
  | Bkash => BkashPaymentStrategy.get_payment_status
  end.
Definition refund_payment (s : strategy) : provider_api -> M provider_reply :=
  match s with
  | Stripe => StripePaymentStrategy.refund_payment
  | Bkash => BkashPaymentStrategy.refund_payment
  end.

End PaymentContext.

Definition get_payment_strategy (provider : string) : M strategy :=
  let name := lower provider in
  if bool_decide (name = "stripe") then ret Stripe
  else if bool_decide (name = "bkash") then ret Bkash
  else raise (ValueError (UnsupportedProvider provider)).

(** ** orders/services.py *)

(** One entry of the validated [items] list: the serializer has made both
    fields integers. *)
Record item_data := Item_ { product_id : Z; quantity : Z }.

Module OrderService.

(** The body of the [for item_data in items] loop of [create_order]. *)
Definition add_item (item : item_data) (o : order) : M order :=
  try_except
    (product <- Product.objects_get (product_id item) ;;
     let quantity := quantity item in
     if negb (Product.is_available product)
     then raise (ValidationError (ProductNotAvailable (p_id product)))
     else if bool_decide (p_stock product < quantity)
     then raise (ValidationError
                   (InsufficientStockFor (p_id product) (p_stock product) quantity))
     else
       created <- OrderItem.objects_create o product quantity (Some (p_price product)) ;;
       ret (snd created))
    is_ProductDoesNotExist
    (fun _ => raise (ValidationError (ProductNotFound (product_id item)))).

Definition create_order (u : user) (items : list item_data) (notes : string) : M order :=
  atomic (
    if bool_decide (items = []) then raise (ValidationError EmptyOrder)
    else
      o <- Order.objects_create (u_id u) 0 notes ;;
      o <- for_each_with items o add_item ;;
      (* order.refresh_from_db() *)
      Order.objects_get (o_id o)).

Definition get_order_details (order_id : Z) (u : option user) : M order :=
  o <- Order.objects_get order_id ;;
  match u with
  | Some u =>
      if bool_decide (o_user o <> u_id u) then raise (ValidationError NotOwner)
      else ret o
  | None => ret o
  end.

Definition cancel_order (order_id : Z) (u : option user) : M order :=
  atomic (
    o <- get_order_details order_id u ;;
    try_except
      (Order.cancel o)
      is_ValueError
      (fun e =>
         logger Error "orders" order_id (str e) ;;
         raise (ValidationError (str e)))).

End OrderService.

Module OrderValidationService.

(** The complaints about the item at 1-based position [n]. *)
Definition item_errors (d : database) (n : nat) (item : item_data) : list item_error :=
  (if bool_decide (quantity item <= 0) then [ItemQuantityNotPositive n] else []) ++
  match row_get p_id (product_id item) (products d) with
  | Some product =>
      (if negb (Product.is_available product)
       then [ItemProductNotAvailable n (p_id product)] else []) ++
      (if bool_decide (p_stock product < quantity item)
       then [ItemInsufficientStock n (p_id product) (p_stock product) (quantity item)]
       else [])
  | None => [ItemProductNotFound n]
  end.

Fixpoint items_errors (d : database) (n : nat) (items : list item_data)
  : list item_error :=
  match items with
  | [] => []
  | item :: rest => item_errors d n item ++ items_errors d (S n) rest
  end.

Definition validate_order_items (items : list item_data) : M (list item_error) :=
  if bool_decide (items = []) then ret [NoItems]
  else read (fun d => items_errors d 1 items).

(** The [for item in order.items.all()] loop of [can_proceed_to_payment]. *)
Fixpoint check_items (its : list order_item) : M (bool * message) :=
  match its with
  | [] => ret (true, Text "Order can proceed to payment")
  | item :: rest =>
      product <- Product.objects_get (i_product item) ;;
      if negb (Product.is_available product)
      then ret (false, NoLongerAvailable (p_id product))
      else if bool_decide (p_stock product < i_quantity item)
      then ret (false, InsufficientStockFor (p_id product) (p_stock product)
                                            (i_quantity item))
      else check_items rest
  end.

Definition can_proceed_to_payment (o : order) : M (bool * message) :=
  if bool_decide (o_status o <> OPending)
  then ret (false, StatusMustBePending (o_status o))
  else if bool_decide (o_total_amount o <= 0)
  then ret (false, TotalMustBePositive)
  else
    its <- Order.items o ;;
    match its with
    | [] => ret (false, OrderHasNoItems)
    | _ => check_items its
    end.

End OrderValidationService.

(** What a successful checkout hands back. *)
Record checkout_result := Checkout_ {
  c_order_id : Z;
  c_payment_id : Z;
  c_transaction_id : string;
  c_amount : Z;
  c_currency : string;
  c_provider : string;
  c_client_secret : option string;
  c_bkash_url : option string
}.

Module CheckoutService.

(** [provider] is the network: what the provider does to the call that
    [create_payment] of the chosen strategy makes for this order, amount and
    currency. *)
Definition create_order_and_initiate_payment
    (provider : strategy -> order -> Z -> string -> provider_api)
    (u : user) (items : list item_data) (payment_provider : string) (notes : string)
  : M checkout_result :=
  atomic (
    validation_errors <- OrderValidationService.validate_order_items items ;;
    match validation_errors with
    | _ :: _ => raise (ValidationError (ItemErrors validation_errors))
    | [] =>
        o <- OrderService.create_order u items notes ;;
        verdict <- OrderValidationService.can_proceed_to_payment o ;;
        if negb (fst verdict) then raise (ValidationError (snd verdict))
        else
          try_except
            (strat <- get_payment_strategy payment_provider ;;
             let currency :=
               if bool_decide (lower payment_provider = "bkash") then "BDT" else "USD" in
             result <- PaymentContext.create_payment strat
                         (provider strat o (o_total_amount o) currency) ;;
             if negb (r_success result)
             then raise (ValidationError
                           (PaymentInitiationFailed (ProviderError (r_error result))))
             else
               payment <- Payment.objects_create o (lower payment_provider)
                            (r_transaction_id result) (o_total_amount o) currency
                            PPending (default [] (r_raw_response result)) ;;
               ret (Checkout_ (o_id o) (pay_id payment) (pay_transaction_id payment)
                              (o_total_amount o) currency payment_provider
                              (r_client_secret result) (r_bkash_url result)))
            is_Exception
            (fun e =>
               logger Error "orders" (o_id o) (str e) ;;
               raise (ValidationError (PaymentInitiationFailed (str e))))
    end).

End CheckoutService.

(** ** The serializers (orders/serializers.py, payments/serializers.py)

    A serializer answers with the validated data, or [None] where
    [is_valid(raise_exception=True)] makes the view answer 400. *)

(** [OrderItemCreateSerializer(many=True)] with [validate_items]: the list is
    not empty and every quantity is at least 1. *)
Definition valid_items (items : list item_data) : bool :=
  negb (bool_decide (items = [])) &&
  forallb (fun item => bool_decide (1 <= quantity item)) items.

Module OrderCreateSerializer.

Definition is_valid (items : list item_data) (notes : string)
  : option (list item_data * string) :=
  match CharField true (Some 1000%nat) notes with
  | Some notes => if valid_items items then Some (items, notes) else None
  | None => None
  end.

End OrderCreateSerializer.

Module CheckoutSerializer.

(** [ChoiceField(choices=['stripe', 'bkash'])] *)
Definition valid_provider (payment_provider : string) : bool :=
  bool_decide (payment_provider = "stripe") || bool_decide (payment_provider = "bkash").

Definition is_valid (items : list item_data) (payment_provider notes : string)
  : option (list item_data * string * string) :=
  match CharField true (Some 1000%nat) notes with
  | Some notes =>
      if valid_items items && valid_provider payment_provider
      then Some (items, payment_provider, notes) else None
  | None => None
  end.

End CheckoutSerializer.

Module PaymentConfirmSerializer.

Definition is_valid (transaction_id : string) : option string :=
  CharField false None transaction_id.

End PaymentConfirmSerializer.

Module PaymentRefundSerializer.

(** [amount] is a [DecimalField(max_digits=10, decimal_places=2)], given in
    cents when it is given. *)
Definition is_valid (amount : option Z) (reason : string) : option (option Z * string) :=
  match CharField true None reason with
  | Some reason =>
      match amount with
      | Some a => if fits a then Some (amount, reason) else None
      | None => Some (amount, reason)
      end
  | None => None
  end.

End PaymentRefundSerializer.

(** ** The views *)

Inductive body :=
  | BodyError (m : message)
  | BodyText (s : string)
  | BodyPayment (p : payment)
  | BodyOrder (o : order)
  | BodyCheckout (c : checkout_result)
  | BodyInvalid
  | BodyEmpty.

Record response := Response_ { http_status : Z; http_body : body }.

(** orders/views.py, [checkout_view].  The handler reads [e.message], which
    a [ValidationError] built from a list does not have. *)
Definition checkout_view
    (provider : strategy -> order -> Z -> string -> provider_api)
    (request_user : user) (items : list item_data) (payment_provider notes : string)
  : M response :=
  match CheckoutSerializer.is_valid items payment_provider notes with
  | None => ret (Response_ 400 BodyInvalid)
  | Some (items, payment_provider, notes) =>
      try_except
        (result <- CheckoutService.create_order_and_initiate_payment
                     provider request_user items payment_provider notes ;;
         ret (Response_ 201 (BodyCheckout result)))
        is_ValidationError
        (fun e =>
           match e with
           | ValidationError (ItemErrors _) => raise AttributeError
           | _ => ret (Response_ 400 (BodyError (str e)))
           end)
  end.

(** [payment.order.user != request.user and not request.user.has_admin_privileges()] *)
Definition permission_denied (request_user : user) (p : payment) : M bool :=
  o <- Order.objects_get (pay_order p) ;;
  ret (bool_decide (o_user o <> u_id request_user) &&
       negb (has_admin_privileges request_user)).

(** payments/views.py, [confirm_payment_view]; [api] is what the provider
    does to the call of the strategy. *)
Definition confirm_payment_view (api : strategy -> provider_api)
    (request_user : user) (transaction_id : string) (now : Z) : M response :=
  match PaymentConfirmSerializer.is_valid transaction_id with
  | None => ret (Response_ 400 BodyInvalid)
  | Some transaction_id =>
      try_except
        (payment <- Payment.objects_get (Payment.by_transaction_id (Some transaction_id)) ;;
         denied <- permission_denied request_user payment ;;
         if denied then ret (Response_ 403 (BodyText "Permission denied"))
         else if negb (Payment.is_pending payment)
         then ret (Response_ 400 (BodyError (CannotBeConfirmed (pay_status payment))))
         else
           strat <- get_payment_strategy (pay_provider payment) ;;
           result <- PaymentContext.confirm_payment strat (api strat) ;;
           if r_success result then
             payment <- Payment.mark_as_success payment (r_raw_response result) now ;;
             ret (Response_ 200 (BodyPayment payment))
           else
             payment <- Payment.mark_as_failed payment
                          (default "Payment confirmation failed" (r_error result))
                          (Some (reply_dict result)) now ;;
             logger Error "payments" (pay_id payment) (ProviderError (r_error result)) ;;
             ret (Response_ 400 (BodyText (default "Payment confirmation failed"
                                                   (r_error result)))))
        is_PaymentDoesNotExist
        (fun _ => ret (Response_ 404 (BodyText "Payment not found")))
  end.

Definition reports_success (provider_status : string) : bool :=
  bool_decide (provider_status = "succeeded") ||
  bool_decide (provider_status = "completed") ||
  bool_decide (provider_status = "success").
Definition reports_failure (provider_status : string) : bool :=
  bool_decide (provider_status = "failed") ||
  bool_decide (provider_status = "cancelled").

(** payments/views.py, [payment_status_view]; the transaction id comes from
    the URL.  [result.get('status', '').lower()] needs a text under
    ['status']. *)
Definition payment_status_view (api : strategy -> provider_api)
    (request_user : user) (transaction_id : string) (now : Z) : M response :=
  try_except
    (payment <- Payment.objects_get (Payment.by_transaction_id (Some transaction_id)) ;;
     denied <- permission_denied request_user payment ;;
     if denied then ret (Response_ 403 (BodyText "Permission denied"))
     else
       strat <- get_payment_strategy (pay_provider payment) ;;
       result <- PaymentContext.get_payment_status strat (api strat) ;;
       if r_success result then
         match r_status result with
         | None => raise AttributeError
         | Some status =>
             let provider_status := lower status in
             payment <-
               (if reports_success provider_status then
                  if bool_decide (pay_status payment <> PSuccess)
                  then Payment.mark_as_success payment (r_raw_response result) now
                  else ret payment
                else if reports_failure provider_status then
                  if negb (bool_decide (pay_status payment = PFailed) ||
                           bool_decide (pay_status payment = PCancelled))
                  then Payment.mark_as_failed payment "" (r_raw_response result) now
                  else ret payment
                else ret payment) ;;
             ret (Response_ 200 (BodyPayment payment))
         end
       else
         ret (Response_ 400 (BodyText (default "Failed to get payment status"
                                               (r_error result)))))
    is_PaymentDoesNotExist
    (fun _ => ret (Response_ 404 (BodyText "Payment not found"))).

(** payments/views.py, [refund_payment_view]; the payment id comes from the
    URL, [amount] and [reason] from the request body.  [get_object_or_404]
    answers 404 by itself. *)
Definition refund_payment_view (api : strategy -> provider_api)
    (request_user : user) (payment_id : Z) (amount : option Z) (reason : string)
  : M response :=
  if negb (has_admin_privileges request_user)
  then ret (Response_ 403 (BodyText "Permission denied. Admin access required."))
  else
    match PaymentRefundSerializer.is_valid amount reason with
    | None => ret (Response_ 400 BodyInvalid)
    | Some (amount, reason) =>
        found <- read (fun d => find (Payment.by_id payment_id) (payments d)) ;;
        match found with
        | None => ret (Response_ 404 (BodyText "Not found."))
        | Some payment =>
            if negb (Payment.can_be_refunded payment)
            then ret (Response_ 400 (BodyError (CannotBeRefunded (pay_status payment))))
            else
              strat <- get_payment_strategy (pay_provider payment) ;;
              result <- PaymentContext.refund_payment strat (api strat) ;;
              if r_success result then
                let refunded :=
                  match amount with
                  | Some a => if bool_decide (a = 0) then pay_amount payment else a
                  | None => pay_amount payment
                  end in
                let payment :=
                  Payment.with_refund payment PRefunded
                    (Some (Refund_ (r_refund_id result) refunded reason)) in
                Payment.save payment (Payment.cols_refund payment) ;;
                ret (Response_ 200 (BodyPayment payment))
              else
                logger Error "payments" (pay_id payment) (ProviderError (r_error result)) ;;
                ret (Response_ 400 (BodyText (default "Refund failed" (r_error result))))
        end
    end.

(** [data.get('last_payment_error', {}).get('message', 'Payment failed')]:
    [None] has no [get]; the result is [None] where the message is null. *)
Definition last_payment_error_message (data : event_object) : M (option string) :=
  match d_last_payment_error data with
  | Missing => ret (Some "Payment failed")
  | Null => raise AttributeError
  | Value Missing => ret (Some "Payment failed")
  | Value Null => ret None
  | Value (Value message) => ret (Some message)
  end.

(** payments/views.py, [stripe_webhook_view]; [event] is what Stripe's
    library makes of the request body and its signature. *)
Definition stripe_webhook_view (event : webhook_answer) (now : Z) : M response :=
  result <- StripePaymentStrategy.handle_webhook event ;;
  if negb (wh_success result) then
    logger Error "payments" 0 (ProviderError (wh_error result)) ;;
    ret (Response_ 400 BodyEmpty)
  else
    let event_type := wh_event_type result in
    match wh_data result with
    | None =>
        if bool_decide (event_type = Some "payment_intent.succeeded") ||
           bool_decide (event_type = Some "payment_intent.payment_failed")
        then raise AttributeError
        else ret (Response_ 200 BodyEmpty)
    | Some data =>
        (if bool_decide (event_type = Some "payment_intent.succeeded") then
           let transaction_id := d_id data in
           try_except
             (payment <- Payment.objects_get (Payment.by_transaction_id transaction_id) ;;
              Payment.mark_as_success payment (Some (d_json data)) now ;;
              ret tt)
             is_PaymentDoesNotExist
             (fun _ => logger Warning "payments" 0 (Text "Payment not found"))
         else if bool_decide (event_type = Some "payment_intent.payment_failed") then
           let transaction_id := d_id data in
           try_except
             (payment <- Payment.objects_get (Payment.by_transaction_id transaction_id) ;;
              error_message <- last_payment_error_message data ;;
              match error_message with
              | Some error_message =>
                  Payment.mark_as_failed payment error_message (Some (d_json data)) now ;;
                  ret tt
              | None =>
                  (* the column error_message is NOT NULL *)
                  raise IntegrityError
              end)
             is_PaymentDoesNotExist
             (fun _ => logger Warning "payments" 0 (Text "Payment not found"))
         else ret tt) ;;
        ret (Response_ 200 BodyEmpty)
    end.

(** payments/views.py, [bkash_webhook_view] *)
Definition bkash_webhook_view : M response := ret (Response_ 200 BodyEmpty).

(** ** Observations used in the statements *)

(** What a strategy meets when it makes its call: bKash asks for a token
    first, and a refused token is the refusal of the call. *)
Definition met (s : strategy) (x : provider_api) : api_answer :=
  match s, token_grant x with
  | Bkash, Some e => Throws e
  | _, _ => call x
  end.

(** The errors a strategy has logged when it returns a refusal of operation
    [op]: one for the call; for bKash, when the token was refused, one for
    the token and one for the call. *)
Definition refusal_log (s : strategy) (op : operation) (x : provider_api)
  : list log_record :=
  match met s x with
  | Responds _ => []
  | Throws e =>
      match s, token_grant x with
      | Bkash, Some _ =>
          [Log_ Error "payments" 0 (StrategyError Bkash TokenGrant e);
           Log_ Error "payments" 0 (StrategyError Bkash op e)]
      | _, _ => [Log_ Error "payments" 0 (StrategyError s op e)]
      end
  end.

(** The row of product [k], and its stock, in a world. *)
Definition product_row (w : world) (k : Z) : option product :=
  row_get p_id k (products (db w)).
Definition stock_of (w : world) (k : Z) : option Z :=
  p_stock <$> product_row w k.


(** What a computation leaves alone

    [keeps f m]: whatever [m] does, and whether it returns or raises, the
    observation [f] of the world is the same afterwards. *)
Definition keeps {A B} (f : world -> B) (m : M A) : Prop :=
  forall w r w', m w = (r, w') -> f w' = f w.

(** Observations that do not look at the product table, respectively at the
    order table. *)
Definition ignores_products {B} (f : world -> B) : Prop :=
  forall d t l, f (World_ (set_products d t) l) = f (World_ d l).
Definition ignores_orders {B} (f : world -> B) : Prop :=
  forall d t l, f (World_ (set_orders d t) l) = f (World_ d l).

(** The two stock loops of [mark_as_paid] and [cancel]. *)
Definition reduce_item (item : order_item) : M unit :=
  product <- Product.objects_get (i_product item) ;;
  Product.reduce_stock product (i_quantity item) ;;
  ret tt.
Definition restore_item (item : order_item) : M unit :=
  product <- Product.objects_get (i_product item) ;;
  Product.increase_stock product (i_quantity item) ;;
  ret tt.

Definition order_row (w : world) (k : Z) : option order :=
  row_get o_id k (orders (db w)).
Definition payment_row (w : world) (k : Z) : option payment :=
  row_get pay_id k (payments (db w)).

(** The lines of order [k], as [Order.items] reads them. *)
Definition items_of (w : world) (k : Z) : list order_item :=
  filter (fun i => i_order i = k) (order_items (db w)).

(** The world once the row of order line [line] is deleted. *)
Definition without (line : order_item) (w : world) : world :=
  World_ (set_order_items (db w) (row_del i_id (i_id line) (order_items (db w)))
                          (item_seq (db w)))
         (logs w).

(** How many units of product [k] a list of order lines asks for. *)
Fixpoint quantity_of (k : Z) (its : list order_item) : Z :=
  match its with
  | [] => 0
  | i :: rest =>
      (if bool_decide (i_product i = k) then i_quantity i else 0) + quantity_of k rest
  end.


(** The sum of the stored subtotals. *)
Definition subtotals (its : list order_item) : Z :=
  fold_left (fun total item => total + i_subtotal item) its 0.

(** An item of a request passes the checks of [create_order] in database
    [d]: its product exists, is available, and has the stock. *)
Definition item_valid (d : database) (item : item_data) : bool :=
  match row_get p_id (product_id item) (products d) with
  | Some p => Product.is_available p && bool_decide (quantity item <= p_stock p)
  | None => false
  end.

(** Line [line] is what [create_order] stores for [item] in database [d]:
    same product and quantity, the product's price in [d], and the subtotal
    of the two. *)
Definition line_of (d : database) (order_id : Z) (item : item_data) (line : order_item)
  : Prop :=
  i_order line = order_id /\
  i_product line = product_id item /\
  i_quantity line = quantity item /\
  p_price <$> row_get p_id (product_id item) (products d) = Some (i_price line) /\
  i_subtotal line = i_quantity line * i_price line.

(** Every order line belongs to a stored order (the foreign key of
    [OrderItem.order]). *)
Definition lines_have_orders (d : database) : Prop :=
  Forall (fun i => is_Some (row_get o_id (i_order i) (orders d))) (order_items d).

(** ** Example data *)

Definition alice : user := User_ 7 false false.
Definition root : user := User_ 1 true false.

(** Two products on sale and nothing else. *)
Definition shop : world :=
  World_ (Database_ [Product_ 1 5000 10 Active; Product_ 2 300 2 Active] [] [] [] 1 1 1) [].

(** The shop after alice ordered two units of product 1 and two of product 2. *)
Definition shop_ordered : world :=
  snd (OrderService.create_order alice [Item_ 1 2; Item_ 2 2] "" shop).

(** One order in status ['processing']. *)
Definition shop_processing : world :=
  World_ (Database_ [Product_ 1 5000 10 Active] [Order_ 1 7 10000 OProcessing ""]
                    [OrderItem_ 1 1 1 2 5000 10000] [] 2 2 1) [].

(** The world with another payment table. *)
Definition with_payments (t : list payment) (w : world) : world :=
  World_ (set_payments (db w) t) (logs w).

(** [m] neither reads nor writes the payment table: run on a world with
    payment table [t], it does what it does otherwise and leaves [t]. *)
Definition payment_blind {A} (m : M A) : Prop :=
  forall t w, m (with_payments t w) = (fst (m w), with_payments t (snd (m w))).

(** The two complaints of [Product.reduce_stock]. *)
Definition stock_complaint (m : message) : Prop :=
  m = QuantityMustBePositive \/ exists available requested, m = InsufficientStock available requested.

(** The order of alice is still pending, one payment has been initiated,
    and product 2 has meanwhile sold down to one unit. *)
Definition shop_short : world :=
  World_ (Database_
            [Product_ 1 5000 10 Active; Product_ 2 300 1 Active]
            [Order_ 1 7 10600 OPending ""]
            [OrderItem_ 1 1 1 2 5000 10000; OrderItem_ 2 1 2 2 300 600]
            [Payment_ 1 1 "stripe" "pi_1" 10600 "USD" PPending [] "" None None]
            2 3 2) [].

(** The order is paid: payment [pi_1] succeeded at time 100. *)
Definition shop_paid : world :=
  World_ (Database_
            [Product_ 1 5000 8 Active; Product_ 2 300 0 OutOfStock]
            [Order_ 1 7 10600 OPaid ""]
            [OrderItem_ 1 1 1 2 5000 10000; OrderItem_ 2 1 2 2 300 600]
            [Payment_ 1 1 "stripe" "pi_1" 10600 "USD" PSuccess
                      [("id", "pi_1"); ("status", "succeeded")] "" None (Some 100)]
            2 3 2) [].

(** Payment [pi_1] failed at time 100; the order is still pending. *)
Definition shop_failed : world :=
  World_ (Database_
            [Product_ 1 5000 10 Active; Product_ 2 300 2 Active]
            [Order_ 1 7 10600 OPending ""]
            [OrderItem_ 1 1 1 2 5000 10000; OrderItem_ 2 1 2 2 300 600]
            [Payment_ 1 1 "stripe" "pi_1" 10600 "USD" PFailed [] "card declined" None
                      (Some 100)]
            2 3 2) [].

(** Payment [pi_1] was refunded in full after it had succeeded at time 100;
    the order is still paid. *)
Definition shop_refunded : world :=
  World_ (Database_
            [Product_ 1 5000 8 Active; Product_ 2 300 0 OutOfStock]
            [Order_ 1 7 10600 OPaid ""]
            [OrderItem_ 1 1 1 2 5000 10000; OrderItem_ 2 1 2 2 300 600]
            [Payment_ 1 1 "stripe" "pi_1" 10600 "USD" PRefunded
                      [("id", "pi_1"); ("status", "succeeded")] ""
                      (Some (Refund_ (Some "re_1") 10600 "customer request")) (Some 100)]
            2 3 2) [].

(** A pending order of two units of product 1, of which ten are in stock. *)
Definition shop_single : world :=
  World_ (Database_ [Product_ 1 5000 10 Active]
                    [Order_ 1 7 10000 OPending ""]
                    [OrderItem_ 1 1 1 2 5000 10000] [] 2 2 1) [].

(** A shop whose one product costs 60,000,000.00. *)
Definition shop_dear : world :=
  World_ (Database_ [Product_ 1 6000000000 10 Active] [] [] [] 1 1 1) [].

(** A provider that declines to create a payment. *)
Definition declining (_ : strategy) (_ : order) (_ : Z) (_ : string) : provider_api :=
  Api_ None (Throws "card declined").

(** A provider that reports the payment as succeeded. *)
Definition reporting_succeeded (_ : strategy) : provider_api :=
  Api_ None (Responds (Object_ (Some "pi_1") (Some "succeeded") None None None None
                               [("id", "pi_1"); ("status", "succeeded")])).

(** Stripe's [payment_intent.succeeded] event for [pi_1], delivered again. *)
Definition succeeded_again : webhook_answer :=
  Event "payment_intent.succeeded"
        (Event_ [("id", "pi_1"); ("status", "succeeded"); ("delivery", "2")]
                (Some "pi_1") Missing).

(** The database is as the store keeps it: every order line belongs to a
    stored order, and the keys the sequences will hand out next are fresh
    (and, for orders, not zero). *)
Definition consistent (d : database) : Prop :=
  lines_have_orders d /\
  row_get o_id (order_seq d) (orders d) = None /\
  order_seq d <> 0 /\
  Forall (fun line => i_id line < item_seq d) (order_items d).

(** A request [create_order] accepts: not empty, every item passes the
    checks, and no product is named twice. *)
Definition acceptable (d : database) (items : list item_data) : Prop :=
  items <> [] /\
  Forall (fun item => item_valid d item = true) items /\
  NoDup (map product_id items).

(** The amounts [create_order] writes for a request fit their columns: for
    every item in turn the price, the subtotal and the order total so far,
    starting from [total], have at most ten digits. *)
Fixpoint storable (d : database) (items : list item_data) (total : Z) : bool :=
  match items with
  | [] => true
  | item :: rest =>
      match row_get p_id (product_id item) (products d) with
      | Some p =>
          let subtotal := quantity item * p_price p in
          fits (p_price p) && fits subtotal && fits (total + subtotal) &&
          storable d rest (total + subtotal)
      | None => false
      end
  end.

(** ** Observations used in the further properties *)

(** [respects R m]: whatever [m] does, and whether it returns or raises, the
    world after is related by [R] to the world before. *)
Definition respects {A} (R : world -> world -> Prop) (m : M A) : Prop :=
  forall w r w', m w = (r, w') -> R w w'.

(** Every stored product is still stored, with a stock that has not grown
    and that has not gone below zero if it was not below zero. *)
Definition stock_shrinks (w w' : world) : Prop :=
  forall k s, stock_of w k = Some s ->
    exists s', stock_of w' k = Some s' /\ s' <= s /\ (0 <= s -> 0 <= s').

(** ** orders/views.py, [OrderViewSet]

    The primary key in the URL is taken as a number. *)

Definition is_OrderDoesNotExist (e : exn) : bool :=
  match e with OrderDoesNotExist => true | _ => false end.

Module OrderViewSet.

(** [request.user if not request.user.has_admin_privileges() else None] *)
Definition acting_user (request_user : user) : option user :=
  if has_admin_privileges request_user then None else Some request_user.

Definition create (request_user : user) (items : list item_data) (notes : string)
  : M response :=
  match OrderCreateSerializer.is_valid items notes with
  | None => ret (Response_ 400 BodyInvalid)
  | Some (items, notes) =>
      validation_errors <- OrderValidationService.validate_order_items items ;;
      match validation_errors with
      | _ :: _ => ret (Response_ 400 (BodyError (ItemErrors validation_errors)))
      | [] =>
          try_except
            (o <- OrderService.create_order request_user items notes ;;
             ret (Response_ 201 (BodyOrder o)))
            is_ValidationError
            (fun e => ret (Response_ 400 (BodyError (str e))))
      end
  end.

Definition retrieve (request_user : user) (pk : Z) : M response :=
  try_except
    (o <- OrderService.get_order_details pk (acting_user request_user) ;;
     ret (Response_ 200 (BodyOrder o)))
    (fun e => is_OrderDoesNotExist e || is_ValidationError e)
    (fun e =>
       if is_OrderDoesNotExist e then ret (Response_ 404 (BodyText "Order not found"))
       else ret (Response_ 403 (BodyError (str e)))).

Definition cancel (request_user : user) (pk : Z) : M response :=
  try_except
    (o <- OrderService.cancel_order pk (acting_user request_user) ;;
     ret (Response_ 200 (BodyOrder o)))
    (fun e => is_OrderDoesNotExist e || is_ValidationError e)
    (fun e =>
       if is_OrderDoesNotExist e then ret (Response_ 404 (BodyText "Order not found"))
       else ret (Response_ 400 (BodyError (str e)))).

End OrderViewSet.

(** A provider that accepts and hands out transaction [pi_1]. *)
Definition reporting_created (_ : strategy) (_ : order) (_ : Z) (_ : string)
  : provider_api :=
  Api_ None (Responds (Object_ (Some "pi_1") (Some "requires_payment_method")
                               (Some "secret_1") None None None [("id", "pi_1")])).

(** The order of alice is pending, one payment has been initiated, and the
    stock is what it was. *)
Definition shop_pending : world :=
  World_ (Database_
            [Product_ 1 5000 10 Active; Product_ 2 300 2 Active]
            [Order_ 1 7 10600 OPending ""]
            [OrderItem_ 1 1 1 2 5000 10000; OrderItem_ 2 1 2 2 300 600]
            [Payment_ 1 1 "stripe" "pi_1" 10600 "USD" PPending [] "" None None]
            2 3 2) [].

(** ** Categories

    products/models.py, [Category], and the tree building of
    products/services.py.  The category table is the list of its rows in the
    model's default ordering ([Meta.ordering = ['name']]), which is the order
    every query on it answers in; nothing in the application writes to it, so
    the functions take the table as an argument. *)

Record category := Category_ {
  c_id : Z;
  c_name : string;
  c_parent : option Z;
  c_is_active : bool
}.

#[global] Instance category_eq_dec : EqDecision category.
Proof. solve_decision. Defined.

(** What a loop over the table comes to: it returns, or the row a foreign key
    points to is missing ([Category.DoesNotExist]), or the fuel is used up. *)
Inductive outcome (A : Type) :=
  | Returns (a : A)
  | Dangling (k : Z)
  | OutOfFuel.
Arguments Returns {A} a.
Arguments Dangling {A} k.
Arguments OutOfFuel {A}.

Definition outcome_bind {A B} (m : outcome A) (k : A -> outcome B) : outcome B :=
  match m with
  | Returns a => k a
  | Dangling i => Dangling i
  | OutOfFuel => OutOfFuel
  end.

(** [[f(x) for x in xs]] *)
Fixpoint outcome_map {A B} (f : A -> outcome B) (xs : list A) : outcome (list B) :=
  match xs with
  | [] => Returns []
  | x :: rest =>
      outcome_bind (f x) (fun y =>
      outcome_bind (outcome_map f rest) (fun ys => Returns (y :: ys)))
  end.

(** [' > '.join(path)] *)
Fixpoint join (sep : string) (parts : list string) : string :=
  match parts with
  | [] => ""
  | [part] => part
  | part :: rest => part ++ sep ++ join sep rest
  end.

(** The nested dict of [_serialize_category_dfs]: the entries [id], [name],
    [slug] and [description] are columns of the row [node], and [children] is
    the list under it. *)
#[warnings="-register-all"]
Inductive tree := Node (node : category) (children : list tree).

Module Category.

(** [self.parent]: the row the foreign key points to. *)
Definition parent (t : list category) (self : category) : outcome (option category) :=
  match c_parent self with
  | None => Returns None
  | Some k =>
      match row_get c_id k t with
      | Some p => Returns (Some p)
      | None => Dangling k
      end
  end.

(** [self.children.filter(is_active=True)] *)
Definition active_children (t : list category) (self : category) : list category :=
  List.filter (fun x => bool_decide (c_parent x = Some (c_id self)) && c_is_active x) t.

(** The loop of [get_ancestors]:
    [while current is not None: ancestors.append(current); current = current.parent] *)
Fixpoint ancestors_loop (fuel : nat) (t : list category)
    (current : option category) (ancestors : list category)
  : outcome (list category) :=
  match current with
  | None => Returns ancestors
  | Some c =>
      match fuel with
      | O => OutOfFuel
      | S fuel =>
          let ancestors := ancestors ++ [c] in
          outcome_bind (parent t c) (fun current =>
          ancestors_loop fuel t current ancestors)
      end
  end.

Definition get_ancestors (fuel : nat) (t : list category) (self : category)
  : outcome (list category) :=
  outcome_bind (parent t self) (fun current =>
  ancestors_loop fuel t current []).

(** The loop of [get_full_path]:
    [while current is not None: path.insert(0, current.name); current = current.parent] *)
Fixpoint path_loop (fuel : nat) (t : list category)
    (current : option category) (path : list string)
  : outcome (list string) :=
  match current with
  | None => Returns path
  | Some c =>
      match fuel with
      | O => OutOfFuel
      | S fuel =>
          let path := c_name c :: path in
          outcome_bind (parent t c) (fun current =>
          path_loop fuel t current path)
      end
  end.

Definition get_full_path (fuel : nat) (t : list category) (self : category)
  : outcome string :=
  let path := [c_name self] in
  outcome_bind (parent t self) (fun current =>
  outcome_bind (path_loop fuel t current path) (fun path =>
  Returns (join " > " path))).

(** The loop of [get_descendants_dfs].  The stack is the Python list: [pop]
    takes its last element and [extend] appends.  Two model instances are
    equal when their primary keys are. *)
Fixpoint descendants_loop (fuel : nat) (t : list category) (self : category)
    (stack descendants : list category) {struct fuel}
  : outcome (list category) :=
  match rev stack with
  | [] => Returns descendants
  | current :: below =>
      match fuel with
      | O => OutOfFuel
      | S fuel =>
          let stack := rev below in
          let descendants :=
            if bool_decide (c_id current <> c_id self)
            then descendants ++ [current] else descendants in
          let children := active_children t current in
          let stack := stack ++ rev children in
          descendants_loop fuel t self stack descendants
      end
  end.

Definition get_descendants_dfs (fuel : nat) (t : list category) (self : category)
  : outcome (list category) :=
  descendants_loop fuel t self [self] [].

End Category.

Module CategoryTreeService.

(** The fuel bounds the depth of the recursion. *)
Fixpoint _serialize_category_dfs (fuel : nat) (t : list category) (c : category)
  : outcome tree :=
  match fuel with
  | O => OutOfFuel
  | S fuel =>
      outcome_bind
        (outcome_map (_serialize_category_dfs fuel t) (Category.active_children t c))
        (fun children => Returns (Node c children))
  end.

(** [Category.objects.filter(parent=None, is_active=True)], each serialized. *)
Definition _build_category_tree (fuel : nat) (t : list category) : outcome (list tree) :=
  let root_categories :=
    List.filter (fun x => bool_decide (c_parent x = None) && c_is_active x) t in
  outcome_map (_serialize_category_dfs fuel t) root_categories.

End CategoryTreeService.

(** The rows of a serialized tree, parents before children and children in
    their order (preorder). *)
Fixpoint preorder (tr : tree) : list category :=
  match tr with
  | Node c children => c :: List.concat (map preorder children)
  end.

(** Electronics with Laptops (and Gaming Laptops under it) and Phones. *)
Definition catalogue : list category :=
  [Category_ 1 "Electronics" None true;
   Category_ 3 "Gaming Laptops" (Some 2) true;
   Category_ 2 "Laptops" (Some 1) true;
   Category_ 4 "Phones" (Some 1) true].

(** A table in which category 5 has been made its own parent. *)
Definition looped : list category :=
  [Category_ 5 "Misc" (Some 5) true].

(** [parent_chain from l]: [l] starts at the row [from] points to, each next
    row is the parent of the one before, and the last row has no parent. *)
Fixpoint parent_chain (from : option Z) (l : list category) : Prop :=
  match l with
  | [] => from = None
  | c :: rest => from = Some (c_id c) /\ parent_chain (c_parent c) rest
  end.

(** [under t self c]: [c] is reached from [self] by going from a category to
    one of its active children, one or more times. *)
Inductive under (t : list category) (self : category) : category -> Prop :=
  | under_child c :
      c ∈ Category.active_children t self -> under t self c
  | under_step c d :
      under t self c -> d ∈ Category.active_children t c -> under t self d.
(** ** Facts about tables and about the monad *)

Section Rows.
Context {A : Type} (key : A -> Z).

Lemma row_get_key k t r : row_get key k t = Some r -> key r = k.
Proof.
  induction t as [|x t IH]; simpl; [done|].
  case_bool_decide; [intros [= <-]; done | exact IH].
Qed.

Lemma row_get_put_eq r t :
  is_Some (row_get key (key r) t) ->
  row_get key (key r) (row_put key r t) = Some r.
Proof.
  induction t as [|x t IH]; simpl; [intros [? [=]]|].
  case_bool_decide as Hx.
  - intros _. by rewrite bool_decide_true.
  - intros H. rewrite bool_decide_false by done. by apply IH.
Qed.

Lemma row_get_put_ne k r t :
  k <> key r -> row_get key k (row_put key r t) = row_get key k t.
Proof.
  intros Hne. induction t as [|x t IH]; simpl; [done|].
  destruct (bool_decide (key x = key r)) eqn:Hx.
  - apply bool_decide_eq_true in Hx.
    rewrite !bool_decide_false by congruence. exact IH.
  - by rewrite IH.
Qed.
End Rows.

(** Stepping through a computation: one rewriting lemma per combinator. *)
Lemma bind_Ok {A B} (m : M A) (k : A -> M B) w a w' :
  m w = (Ok a, w') -> bind m k w = k a w'.
Proof. unfold bind. by intros ->. Qed.

Lemma bind_Raise' {A B} (m : M A) (k : A -> M B) w e w' :
  m w = (Raise e, w') -> bind m k w = (Raise e, w').
Proof. unfold bind. by intros ->. Qed.

Lemma bind_inv_Ok {A B} (m : M A) (k : A -> M B) w b w2 :
  bind m k w = (Ok b, w2) ->
  exists a w1, m w = (Ok a, w1) /\ k a w1 = (Ok b, w2).
Proof.
  unfold bind. destruct (m w) as [[a|e] w1]; [eauto | intros [=]].
Qed.

Lemma atomic_Raise_db {A} (m : M A) w e w' :
  atomic m w = (Raise e, w') -> db w' = db w.
Proof.
  unfold atomic. destruct (m w) as [[a|e0] w1]; intros [= ? <-]; done.
Qed.

Section Keeps.
Context {B : Type} (f : world -> B).

Lemma keeps_ret {A} (a : A) : keeps f (ret a).
Proof. intros w r w' [= _ <-]. done. Qed.

Lemma keeps_raise {A} e : keeps f (@raise A e).
Proof. intros w r w' [= _ <-]. done. Qed.

Lemma keeps_read {A} (g : database -> A) : keeps f (read g).
Proof. intros w r w' [= _ <-]. done. Qed.

Lemma keeps_of_option {A} (o : option A) e : keeps f (of_option o e).
Proof. destruct o; [apply keeps_ret | apply keeps_raise]. Qed.

Lemma keeps_bind {A C} (m : M A) (k : A -> M C) :
  keeps f m -> (forall a, keeps f (k a)) -> keeps f (bind m k).
Proof.
  intros Hm Hk w r w'. unfold bind.
  destruct (m w) as [[a|e] w1] eqn:E.
  - intros H. rewrite (Hk _ _ _ _ H). eapply Hm, E.
  - intros [= <- <-]. eapply Hm, E.
Qed.

Lemma keeps_try_except {A} (m : M A) handles h :
  keeps f m -> (forall e, keeps f (h e)) -> keeps f (try_except m handles h).
Proof.
  intros Hm Hh w r w'. unfold try_except.
  destruct (m w) as [[a|e] w1] eqn:E.
  - intros [= <- <-]. eapply Hm, E.
  - destruct (handles e).
    + intros H. rewrite (Hh _ _ _ _ H). eapply Hm, E.
    + intros [= <- <-]. eapply Hm, E.
Qed.

Lemma keeps_for_each {A} (xs : list A) body :
  (forall x, keeps f (body x)) -> keeps f (for_each xs body).
Proof.
  intros Hb. induction xs as [|x xs IH]; simpl.
  - apply keeps_ret.
  - apply keeps_bind; [apply Hb | intros _; exact IH].
Qed.

Lemma keeps_write g :
  (forall d l, f (World_ (g d) l) = f (World_ d l)) -> keeps f (write g).
Proof. intros Hg [d l] r w' [= _ <-]. apply Hg. Qed.
End Keeps.

Create HintDb keeps.
#[local] Hint Resolve keeps_ret keeps_raise keeps_read keeps_of_option : keeps.

(** Peel the binds and handlers of a computation, closing the leaves that
    only read, return or raise. *)
Ltac keeps_steps :=
  repeat first
    [ apply keeps_bind; [|intros ?]
    | apply keeps_try_except; [|intros ?]
    | solve [auto with keeps] ].

Lemma Product_save_keeps {B} (f : world -> B) self :
  ignores_products f -> keeps f (Product.save self).
Proof.
  intros Hf. unfold Product.save. apply keeps_bind; [auto with keeps|].
  intros [r|]; [|auto with keeps]. apply keeps_write. intros d l. apply Hf.
Qed.

Lemma Product_reduce_stock_keeps {B} (f : world -> B) self q :
  ignores_products f -> keeps f (Product.reduce_stock self q).
Proof.
  intros Hf. unfold Product.reduce_stock.
  repeat case_bool_decide; try apply keeps_raise;
    (apply keeps_bind; [by apply Product_save_keeps | intros; apply keeps_ret]).
Qed.

Lemma Product_increase_stock_keeps {B} (f : world -> B) self q :
  ignores_products f -> keeps f (Product.increase_stock self q).
Proof.
  intros Hf. unfold Product.increase_stock.
  repeat case_bool_decide; try apply keeps_raise;
    (apply keeps_bind; [by apply Product_save_keeps | intros; apply keeps_ret]).
Qed.

Lemma Order_save_keeps {B} (f : world -> B) self cols :
  ignores_orders f -> keeps f (Order.save self cols).
Proof.
  intros Hf. unfold Order.save. apply keeps_bind; [apply keeps_read|].
  intros [r|]; [|apply keeps_raise]. apply keeps_write. intros d l. apply Hf.
Qed.

Lemma reduce_item_keeps {B} (f : world -> B) item :
  ignores_products f -> keeps f (reduce_item item).
Proof.
  intros Hf. unfold reduce_item, Product.objects_get.
  keeps_steps. by apply Product_reduce_stock_keeps.
Qed.

Lemma restore_item_keeps {B} (f : world -> B) item :
  ignores_products f -> keeps f (restore_item item).
Proof.
  intros Hf. unfold restore_item, Product.objects_get.
  keeps_steps. by apply Product_increase_stock_keeps.
Qed.

Lemma reduce_loop_keeps {B} (f : world -> B) its :
  ignores_products f -> keeps f (for_each its reduce_item).
Proof. intros Hf. apply keeps_for_each. intros item. by apply reduce_item_keeps. Qed.

Lemma restore_loop_keeps {B} (f : world -> B) its :
  ignores_products f -> keeps f (for_each its restore_item).
Proof. intros Hf. apply keeps_for_each. intros item. by apply restore_item_keeps. Qed.

Lemma Order_mark_as_paid_keeps {B} (f : world -> B) self :
  ignores_products f -> ignores_orders f -> keeps f (Order.mark_as_paid self).
Proof.
  intros Hp Ho. unfold Order.mark_as_paid.
  case_bool_decide; [apply keeps_raise|].
  apply keeps_bind; [by apply Order_save_keeps|]. intros _.
  apply keeps_bind; [apply keeps_read|]. intros its.
  apply keeps_bind; [|intros; apply keeps_ret].
  apply keeps_for_each. intros item. by apply (reduce_item_keeps f item).
Qed.

Lemma Product_save_Ok self w r :
  product_row w (p_id self) = Some r ->
  exists w',
    Product.save self w = (Ok tt, w') /\
    logs w' = logs w /\
    orders (db w') = orders (db w) /\
    order_items (db w') = order_items (db w) /\
    payments (db w') = payments (db w) /\
    product_row w' (p_id self) =
      Some (Product_ (p_id self) (p_price r) (p_stock self) (p_status self)) /\
    (forall k, k <> p_id self -> product_row w' k = product_row w k).
Proof.
  intros Hr. unfold Product.save, bind, read, write, product_row in *.
  rewrite Hr. eexists; split; [reflexivity|]. simpl.
  pose proof (row_get_key _ _ _ _ Hr) as Hk.
  repeat split; try done.
  - rewrite <- Hk at 1.
    change (p_id r) with (p_id (Product_ (p_id r) (p_price r) (p_stock self) (p_status self))) at 1.
    rewrite row_get_put_eq; [by rewrite Hk|].
    simpl. rewrite Hk. by eexists.
  - intros k Hne. apply row_get_put_ne. simpl. congruence.
Qed.

(** ** Product stock mutations *)

(** C10. [reduce_stock] and [increase_stock] reject a quantity [q <= 0], and
    [reduce_stock] rejects [q] above the current stock, each time with a
    [ValueError] and without touching the product, the database or the log.
    A reduction of a stored product that brings the stock to exactly 0
    succeeds, stores status [OutOfStock] with stock 0, and the product is no
    longer available.  An accepted increase of a stored product whose status
    is [OutOfStock] stores status [Active] with the raised stock. *)
Theorem stock_and_status_coupled (self : product) (q : Z) (w : world) :
  (q <= 0 ->
     Product.reduce_stock self q w = (Raise (ValueError QuantityMustBePositive), w) /\
     Product.increase_stock self q w = (Raise (ValueError QuantityMustBePositive), w)) /\
  (p_stock self < q ->
     exists m, Product.reduce_stock self q w = (Raise (ValueError m), w)) /\
  (forall r, product_row w (p_id self) = Some r -> 0 < q -> q = p_stock self ->
     exists self' w',
       Product.reduce_stock self q w = (Ok self', w') /\
       p_stock self' = 0 /\ p_status self' = OutOfStock /\
       Product.is_available self' = false /\
       product_row w' (p_id self) = Some (Product_ (p_id self) (p_price r) 0 OutOfStock)) /\
  (forall r, product_row w (p_id self) = Some r -> 0 < q -> p_status self = OutOfStock ->
     exists self' w',
       Product.increase_stock self q w = (Ok self', w') /\
       p_stock self' = p_stock self + q /\ p_status self' = Active /\
       product_row w' (p_id self) =
         Some (Product_ (p_id self) (p_price r) (p_stock self + q) Active)).
Proof.
  repeat split.
  - unfold Product.reduce_stock. by rewrite bool_decide_true.
  - unfold Product.increase_stock. by rewrite bool_decide_true.
  - intros Hlt. unfold Product.reduce_stock.
    case_bool_decide; [by eexists|]. rewrite bool_decide_true by done. by eexists.
  - intros r Hr Hq ->. unfold Product.reduce_stock.
    rewrite !bool_decide_false by lia.
    rewrite bool_decide_true by lia.
    set (self' := Product_ _ _ _ _).
    destruct (Product_save_Ok self' w r Hr) as (w' & Hs & _ & _ & _ & _ & Hrow & _).
    exists self', w'. rewrite (bind_Ok _ _ _ _ _ Hs).
    subst self'; simpl in *. replace (p_stock self - p_stock self) with 0 in * by lia.
    repeat split; try done.
  - intros r Hr Hq Hst. unfold Product.increase_stock.
    rewrite bool_decide_false by lia.
    rewrite bool_decide_true by done.
    set (self' := Product_ _ _ _ _).
    destruct (Product_save_Ok self' w r Hr) as (w' & Hs & _ & _ & _ & _ & Hrow & _).
    exists self', w'. rewrite (bind_Ok _ _ _ _ _ Hs). by subst self'.
Qed.

(** ** Stock bookkeeping of the two loops *)

Lemma Product_objects_get_inv k w p w' :
  Product.objects_get k w = (Ok p, w') -> w' = w /\ product_row w k = Some p.
Proof.
  unfold Product.objects_get, bind, read, product_row.
  destruct (row_get p_id k (products (db w))) as [r|]; simpl; [|intros [=]].
  by intros [= <- <-].
Qed.

Lemma Product_objects_get_Some k w p :
  product_row w k = Some p -> Product.objects_get k w = (Ok p, w).
Proof.
  unfold Product.objects_get, bind, read, product_row. by intros ->.
Qed.

Lemma fmap_stock_id (o : option Z) : (fun s => s - 0) <$> o = o.
Proof. destruct o as [s|]; simpl; [f_equal; lia | done]. Qed.

Lemma fmap_stock_id' (o : option Z) : (fun s => s + 0) <$> o = o.
Proof. destruct o as [s|]; simpl; [f_equal; lia | done]. Qed.

Lemma reduce_item_Ok item w w' :
  reduce_item item w = (Ok tt, w') ->
  0 < i_quantity item /\
  forall k, stock_of w' k =
    (fun s => s - (if bool_decide (i_product item = k) then i_quantity item else 0))
      <$> stock_of w k.
Proof.
  unfold reduce_item. intros H.
  apply bind_inv_Ok in H as (p & w0 & Hget & H).
  apply Product_objects_get_inv in Hget as [-> Hp].
  apply bind_inv_Ok in H as (p' & w1 & Hred & H).
  injection H as <-.
  unfold Product.reduce_stock in Hred.
  case_bool_decide as Hq; [discriminate|].
  case_bool_decide as Hs; [discriminate|].
  apply bind_inv_Ok in Hred as ([] & w2 & Hsave & Hret). injection Hret as _ <-.
  pose proof (row_get_key _ _ _ _ Hp) as Hid.
  set (self' := Product_ _ _ _ _) in Hsave.
  destruct (Product_save_Ok self' w p) as (w3 & Hs3 & _ & _ & _ & _ & Hrow & Hother);
    [by rewrite <- Hid in Hp|].
  rewrite Hs3 in Hsave. injection Hsave as <-.
  split; [lia|]. intros k. unfold stock_of.
  case_bool_decide as Hk.
  - subst k. simpl in Hrow. rewrite Hid in Hrow. rewrite Hrow, Hp. done.
  - rewrite Hother by (simpl; congruence). apply eq_sym, fmap_stock_id.
Qed.

Lemma restore_item_Ok item w p :
  product_row w (i_product item) = Some p -> 0 < i_quantity item ->
  exists w',
    restore_item item w = (Ok tt, w') /\
    forall k, stock_of w' k =
      (fun s => s + (if bool_decide (i_product item = k) then i_quantity item else 0))
        <$> stock_of w k.
Proof.
  intros Hp Hq. unfold restore_item.
  rewrite (bind_Ok _ _ _ _ _ (Product_objects_get_Some _ _ _ Hp)).
  unfold Product.increase_stock. rewrite bool_decide_false by lia.
  pose proof (row_get_key _ _ _ _ Hp) as Hid.
  set (self' := Product_ _ _ _ _).
  destruct (Product_save_Ok self' w p) as (w3 & Hs3 & _ & _ & _ & _ & Hrow & Hother);
    [by rewrite <- Hid in Hp|].
  exists w3. split.
  - unfold bind at 1. unfold bind at 1. rewrite Hs3. done.
  - intros k. unfold stock_of. case_bool_decide as Hk.
    + subst k. simpl in Hrow. rewrite Hid in Hrow. rewrite Hrow, Hp. done.
    + rewrite Hother by (simpl; congruence). apply eq_sym, fmap_stock_id'.
Qed.

Lemma reduce_loop_Ok its w w' :
  for_each its reduce_item w = (Ok tt, w') ->
  Forall (fun i => 0 < i_quantity i /\ is_Some (stock_of w (i_product i))) its /\
  forall k, stock_of w' k = (fun s => s - quantity_of k its) <$> stock_of w k.
Proof.
  revert w. induction its as [|item its IH]; intros w; simpl.
  - intros [= <-]. split; [constructor|]. intros k. apply eq_sym, fmap_stock_id.
  - intros H. apply bind_inv_Ok in H as ([] & w1 & H1 & H2).
    pose proof H1 as Hget.
    apply reduce_item_Ok in H1 as [Hq H1]. apply IH in H2 as [Hall H2]. split.
    + constructor.
      * split; [done|]. specialize (H1 (i_product item)).
        unfold reduce_item in Hget. apply bind_inv_Ok in Hget as (p & w0 & Hg & _).
        apply Product_objects_get_inv in Hg as [_ Hg]. unfold stock_of. rewrite Hg. eauto.
      * eapply Forall_impl; [exact Hall|]. intros i [? Hi]. split; [done|].
        rewrite H1 in Hi. destruct (stock_of w (i_product i)); [eauto|].
        by destruct Hi.
    + intros k. rewrite H2, H1. destruct (stock_of w k); simpl; [f_equal; lia | done].
Qed.

Lemma restore_loop_Ok its w :
  Forall (fun i => 0 < i_quantity i /\ is_Some (stock_of w (i_product i))) its ->
  exists w',
    for_each its restore_item w = (Ok tt, w') /\
    forall k, stock_of w' k = (fun s => s + quantity_of k its) <$> stock_of w k.
Proof.
  revert w. induction its as [|item its IH]; intros w Hall; simpl.
  - exists w. split; [done|]. intros k. apply eq_sym, fmap_stock_id'.
  - inversion Hall as [|? ? [Hq Hp] Hrest]; subst.
    unfold stock_of in Hp. destruct (product_row w (i_product item)) as [p|] eqn:Ep;
      [|by destruct Hp].
    destruct (restore_item_Ok item w p Ep Hq) as (w1 & H1 & Hs1).
    destruct (IH w1) as (w' & H2 & Hs2).
    { eapply Forall_impl; [exact Hrest|]. intros i [? Hi]. split; [done|].
      rewrite Hs1. destruct (stock_of w (i_product i)); [eauto | by destruct Hi]. }
    exists w'. split; [by rewrite (bind_Ok _ _ _ _ _ H1)|].
    intros k. rewrite Hs2, Hs1. destruct (stock_of w k); simpl; [f_equal; lia | done].
Qed.

Lemma quantity_of_app k (its1 its2 : list order_item) :
  quantity_of k (its1 ++ its2) = quantity_of k its1 + quantity_of k its2.
Proof. induction its1 as [|i its1 IH]; simpl; [done|]. rewrite IH. lia. Qed.

Lemma quantity_of_nonneg {P : order_item -> Prop} k (its : list order_item) :
  Forall (fun i => 0 < i_quantity i /\ P i) its -> 0 <= quantity_of k its.
Proof.
  induction 1 as [|i its [Hq _] _ IH]; simpl; [done|]. case_bool_decide; lia.
Qed.

Lemma reduce_item_run item w s :
  stock_of w (i_product item) = Some s -> 0 < i_quantity item -> i_quantity item <= s ->
  exists w', reduce_item item w = (Ok tt, w').
Proof.
  unfold stock_of. intros Hs Hq Hle.
  destruct (product_row w (i_product item)) as [p|] eqn:Hp; [|discriminate].
  injection Hs as Hs. unfold reduce_item.
  rewrite (bind_Ok _ _ _ _ _ (Product_objects_get_Some _ _ _ Hp)).
  unfold Product.reduce_stock. rewrite !bool_decide_false by lia.
  pose proof (row_get_key _ _ _ _ Hp) as Hid.
  set (self' := Product_ _ _ _ _).
  destruct (Product_save_Ok self' w p) as (w3 & Hs3 & _); [by rewrite <- Hid in Hp|].
  exists w3. unfold bind at 1. unfold bind at 1. by rewrite Hs3.
Qed.

(** The stock loop goes through when every product holds what the lines
    ask of it. *)
Lemma reduce_loop_run its : forall w,
  Forall (fun i => 0 < i_quantity i /\ is_Some (stock_of w (i_product i))) its ->
  (forall k s, stock_of w k = Some s -> quantity_of k its <= s) ->
  exists w', for_each its reduce_item w = (Ok tt, w').
Proof.
  induction its as [|item its IH]; intros w Hall Hle; simpl; [by exists w|].
  inversion Hall as [|? ? [Hq [s Hs]] Hrest]; subst.
  pose proof (quantity_of_nonneg (i_product item) its Hrest) as Hnn.
  destruct (reduce_item_run item w s Hs Hq) as [w1 H1].
  { specialize (Hle _ _ Hs). simpl in Hle. rewrite bool_decide_true in Hle by done. lia. }
  pose proof (reduce_item_Ok _ _ _ H1) as [_ Hs1].
  destruct (IH w1) as [w' H2].
  - eapply Forall_impl; [exact Hrest|]. intros i [? Hi]. split; [done|].
    rewrite Hs1. destruct (stock_of w (i_product i)); [eauto | by destruct Hi].
  - intros k s' Hk. rewrite Hs1 in Hk.
    destruct (stock_of w k) as [s0|] eqn:E; [|discriminate].
    injection Hk as <-. specialize (Hle k s0 E). simpl in Hle.
    case_bool_decide; lia.
  - exists w'. by rewrite (bind_Ok _ _ _ _ _ H1).
Qed.

(** A line whose reduction fails leaves the world as it is. *)
Lemma reduce_item_Raise item w e w' :
  reduce_item item w = (Raise e, w') -> w' = w.
Proof.
  unfold reduce_item. unfold bind at 1.
  destruct (Product.objects_get _ w) as [[p|e0] w0] eqn:Hget.
  2: { intros [= _ <-]. unfold Product.objects_get, bind, read in Hget.
       destruct (row_get _ _ _); simpl in Hget; by injection Hget as _ <-. }
  apply Product_objects_get_inv in Hget as [-> Hp].
  unfold bind at 1. unfold Product.reduce_stock.
  case_bool_decide; [by intros [= _ <-]|].
  case_bool_decide; [by intros [= _ <-]|].
  unfold bind at 1. unfold Product.save, bind, read, write.
  destruct (row_get _ _ _); simpl; [discriminate | by intros [= _ <-]].
Qed.

(** A stock loop that raises has gone through the lines before the one that
    failed, and through no other. *)
Lemma reduce_loop_Raise its : forall w e w',
  for_each its reduce_item w = (Raise e, w') ->
  exists taken item rest,
    its = taken ++ item :: rest /\
    for_each taken reduce_item w = (Ok tt, w').
Proof.
  induction its as [|item its IH]; intros w e w'; simpl; [discriminate|].
  unfold bind at 1. destruct (reduce_item item w) as [[[]|e0] w1] eqn:Hitem.
  - intros H. apply IH in H as (taken & it & rest & -> & Htaken).
    exists (item :: taken), it, rest. split; [done|]. simpl.
    by rewrite (bind_Ok _ _ _ _ _ Hitem).
  - intros [= _ <-]. apply reduce_item_Raise in Hitem as ->.
    by exists [], item, its.
Qed.

(** ** Orders: saving, paying, cancelling *)

Lemma Order_objects_get_inv k w o w' :
  Order.objects_get k w = (Ok o, w') -> w' = w /\ order_row w k = Some o.
Proof.
  unfold Order.objects_get, bind, read, order_row.
  destruct (row_get o_id k (orders (db w))) as [r|]; simpl; [|intros [=]].
  by intros [= <- <-].
Qed.

Lemma Order_objects_get_Some k w o :
  order_row w k = Some o -> Order.objects_get k w = (Ok o, w).
Proof. unfold Order.objects_get, bind, read, order_row. by intros ->. Qed.

Lemma Order_save_Some self cols w r :
  order_row w (o_id self) = Some r -> o_id (cols r) = o_id r ->
  exists w1,
    Order.save self cols w = (Ok tt, w1) /\
    order_row w1 (o_id self) = Some (cols r) /\
    (forall k, k <> o_id self -> order_row w1 k = order_row w k) /\
    products (db w1) = products (db w) /\
    order_items (db w1) = order_items (db w) /\
    payments (db w1) = payments (db w) /\
    logs w1 = logs w.
Proof.
  intros Hr Hc. unfold Order.save, bind, read, write, order_row in *.
  rewrite Hr. eexists; split; [reflexivity|]. simpl.
  pose proof (row_get_key _ _ _ _ Hr) as Hk.
  repeat split; try done.
  - rewrite <- Hk, <- Hc. rewrite row_get_put_eq; [done|].
    rewrite Hc, Hk. by eexists.
  - intros k Hne. apply row_get_put_ne. congruence.
Qed.

Lemma Order_save_inv self cols w w' :
  Order.save self cols w = (Ok tt, w') -> is_Some (order_row w (o_id self)).
Proof.
  unfold Order.save, bind, read, order_row.
  destruct (row_get o_id (o_id self) (orders (db w))); [eauto | intros [=]].
Qed.

Lemma Order_save_Raise self cols w e w' :
  Order.save self cols w = (Raise e, w') -> w' = w.
Proof.
  unfold Order.save, bind, read, write.
  destruct (row_get o_id (o_id self) (orders (db w))); simpl; [intros [=]|].
  by intros [= _ <-].
Qed.

Lemma Order_items_run self w : Order.items self w = (Ok (items_of w (o_id self)), w).
Proof. done. Qed.

(** [mark_as_paid] on a pending instance: the status is stored first, then
    the stock loop runs on the lines of the order. *)
Lemma mark_as_paid_pending self w r :
  o_status self = OPending -> order_row w (o_id self) = Some r ->
  exists w1,
    order_row w1 (o_id self) = Some (Order.col_status (Order.with_status self OPaid) r) /\
    products (db w1) = products (db w) /\
    order_items (db w1) = order_items (db w) /\
    payments (db w1) = payments (db w) /\
    logs w1 = logs w /\
    Order.mark_as_paid self w =
      match for_each (items_of w (o_id self)) reduce_item w1 with
      | (Ok _, w2) => (Ok (Order.with_status self OPaid), w2)
      | (Raise e, w2) => (Raise e, w2)
      end.
Proof.
  intros Hst Hr.
  destruct (Order_save_Some (Order.with_status self OPaid)
              (Order.col_status (Order.with_status self OPaid)) w r)
    as (w1 & Hsave & Hrow & _ & Hp & Hi & Hpay & Hl); [done..|].
  exists w1. repeat split; try done.
  unfold Order.mark_as_paid. rewrite bool_decide_false by (rewrite Hst; auto).
  rewrite (bind_Ok _ _ _ _ _ Hsave).
  rewrite (bind_Ok _ _ _ _ _ (Order_items_run _ w1)).
  unfold items_of. simpl. rewrite Hi.
  unfold bind at 1. fold reduce_item.
  by destruct (for_each _ reduce_item w1) as [[[]|e] w2].
Qed.

Lemma mark_as_paid_inv self w self1 w1 :
  Order.mark_as_paid self w = (Ok self1, w1) ->
  o_status self = OPending /\ self1 = Order.with_status self OPaid /\
  o_status <$> order_row w1 (o_id self) = Some OPaid /\
  order_items (db w1) = order_items (db w) /\
  Forall (fun i => 0 < i_quantity i /\ is_Some (stock_of w (i_product i)))
         (items_of w (o_id self)) /\
  forall k, stock_of w1 k =
    (fun s => s - quantity_of k (items_of w (o_id self))) <$> stock_of w k.
Proof.
  intros H.
  assert (o_status self = OPending) as Hst.
  { unfold Order.mark_as_paid in H. case_bool_decide as Hg; [discriminate|].
    destruct (decide (o_status self = OPending)); [done | by destruct Hg]. }
  assert (is_Some (order_row w (o_id self))) as [r Hr].
  { unfold Order.mark_as_paid in H. rewrite bool_decide_false in H by (rewrite Hst; auto).
    apply bind_inv_Ok in H as ([] & w0 & Hs & _). by apply Order_save_inv in Hs. }
  destruct (mark_as_paid_pending self w r Hst Hr) as (w0 & Hrow & Hp & Hi & _ & _ & Hrun).
  rewrite Hrun in H.
  destruct (for_each _ reduce_item w0) as [[[]|e] w2] eqn:Hloop; [|discriminate].
  injection H as <- <-.
  assert (forall k, stock_of w0 k = stock_of w k) as Hs0.
  { intros k. unfold stock_of, product_row. by rewrite Hp. }
  pose proof (reduce_loop_Ok _ _ _ Hloop) as [Hall Hstock].
  repeat split; try done.
  - pose proof (reduce_loop_keeps (fun w => order_row w (o_id self)) _
                  (fun _ _ _ => eq_refl) _ _ _ Hloop) as Ho.
    simpl in Ho. by rewrite Ho, Hrow.
  - pose proof (reduce_loop_keeps (fun w => order_items (db w)) _
                  (fun _ _ _ => eq_refl) _ _ _ Hloop) as Ho.
    simpl in Ho. by rewrite Ho.
  - eapply Forall_impl; [exact Hall|]. intros i [? ?]. by rewrite <- Hs0.
  - intros k. by rewrite Hstock, Hs0.
Qed.

Lemma mark_as_paid_rejects self w :
  o_status self <> OPending ->
  Order.mark_as_paid self w = (Raise (ValueError (CannotMarkPaid (o_status self))), w).
Proof. intros H. unfold Order.mark_as_paid. by rewrite bool_decide_true. Qed.

(** C3, on the code.  [mark_as_paid] looks at the status of the instance it
    is called on, not at the stored order.  A call that succeeds was made on
    a pending instance; it stores status [OPaid] and takes from every product
    exactly the quantity the order's lines ask of it.  A second call on the
    instance the first call left, or on the order read again from the
    database, raises [ValueError] and leaves the world as it is.  But a
    second call on an instance of the order that is still pending, as every
    instance read before the first call is, is not refused: where every
    product holds twice what the lines ask of it, the call returns, the
    order stays [OPaid], and the stock has been taken twice. *)
Theorem mark_as_paid_guards_on_the_instance
    (self : order) (w : world) (self1 : order) (w1 : world) :
  Order.mark_as_paid self w = (Ok self1, w1) ->
  o_status self = OPending /\
  o_status <$> order_row w1 (o_id self) = Some OPaid /\
  (forall k, stock_of w1 k =
     (fun s => s - quantity_of k (items_of w (o_id self))) <$> stock_of w k) /\
  Order.mark_as_paid self1 w1 = (Raise (ValueError (CannotMarkPaid OPaid)), w1) /\
  (exists again,
     Order.objects_get (o_id self) w1 = (Ok again, w1) /\
     Order.mark_as_paid again w1 = (Raise (ValueError (CannotMarkPaid OPaid)), w1)) /\
  (forall stale,
     o_id stale = o_id self -> o_status stale = OPending ->
     (forall k s, stock_of w k = Some s ->
        2 * quantity_of k (items_of w (o_id self)) <= s) ->
     exists stale1 w2,
       Order.mark_as_paid stale w1 = (Ok stale1, w2) /\
       o_status <$> order_row w2 (o_id self) = Some OPaid /\
       forall k, stock_of w2 k =
         (fun s => s - 2 * quantity_of k (items_of w (o_id self))) <$> stock_of w k).
Proof.
  intros H. apply mark_as_paid_inv in H as (Hst & -> & Hrow & Hi & Hall & Hstock).
  do 3 (split; [done|]). split; [|split].
  - by rewrite mark_as_paid_rejects.
  - destruct (order_row w1 (o_id self)) as [again|] eqn:Ha; [|discriminate].
    injection Hrow as Hpaid. exists again. split; [by apply Order_objects_get_Some|].
    rewrite mark_as_paid_rejects; rewrite Hpaid; done.
  - intros stale Hid Hpending Htwice.
    destruct (order_row w1 (o_id self)) as [r1|] eqn:Hr1; [|discriminate].
    rewrite <- Hid in Hr1.
    destruct (mark_as_paid_pending stale w1 r1 Hpending Hr1)
      as (w0 & Hrow0 & Hp0 & _ & _ & _ & Hrun).
    assert (items_of w1 (o_id stale) = items_of w (o_id self)) as Hits.
    { unfold items_of. by rewrite Hi, Hid. }
    rewrite Hits in Hrun.
    assert (forall k, stock_of w0 k = stock_of w1 k) as Hs0.
    { intros k. unfold stock_of, product_row. by rewrite Hp0. }
    destruct (reduce_loop_run (items_of w (o_id self)) w0) as [w2 Hloop].
    { eapply Forall_impl; [exact Hall|]. intros i [? Hsome]. split; [done|].
      rewrite Hs0, Hstock. destruct (stock_of w (i_product i)); [eauto | by destruct Hsome]. }
    { intros k s Hk. rewrite Hs0, Hstock in Hk.
      destruct (stock_of w k) as [s0|] eqn:E; [|discriminate].
      injection Hk as <-. specialize (Htwice k s0 E). lia. }
    rewrite Hloop in Hrun. exists (Order.with_status stale OPaid), w2.
    split; [done|]. split.
    + pose proof (reduce_loop_keeps (fun w => order_row w (o_id stale)) _
                    (fun _ _ _ => eq_refl) _ _ _ Hloop) as Ho.
      simpl in Ho. by rewrite <- Hid, Ho, Hrow0.
    + intros k. apply reduce_loop_Ok in Hloop as [_ Hloop].
      rewrite Hloop, Hs0, Hstock.
      destruct (stock_of w k); simpl; [f_equal; lia | done].
Qed.

Lemma cancel_rejects self w :
  o_status self = OShipped \/ o_status self = ODelivered ->
  Order.cancel self w = (Raise (ValueError (CannotCancel (o_status self))), w).
Proof. intros H. unfold Order.cancel. by rewrite bool_decide_true. Qed.

Lemma cancel_unpaid self w r :
  o_status self <> OShipped -> o_status self <> ODelivered -> o_status self <> OPaid ->
  order_row w (o_id self) = Some r ->
  exists w',
    Order.cancel self w = (Ok (Order.with_status self OCancelled), w') /\
    order_row w' (o_id self) =
      Some (Order.col_status (Order.with_status self OCancelled) r) /\
    products (db w') = products (db w) /\
    order_items (db w') = order_items (db w) /\
    payments (db w') = payments (db w) /\
    logs w' = logs w.
Proof.
  intros H1 H2 H3 Hr. unfold Order.cancel.
  rewrite bool_decide_false by tauto. rewrite (bool_decide_false _ H3).
  destruct (Order_save_Some (Order.with_status self OCancelled)
              (Order.col_status (Order.with_status self OCancelled)) w r)
    as (w1 & Hsave & Hrow & _ & Hp & Hi & Hpay & Hl); [done..|].
  exists w1. split; [|done].
  unfold bind at 1. unfold ret at 1. by rewrite (bind_Ok _ _ _ _ _ Hsave).
Qed.

Lemma cancel_paid self w r :
  o_status self = OPaid -> order_row w (o_id self) = Some r ->
  Forall (fun i => 0 < i_quantity i /\ is_Some (stock_of w (i_product i)))
         (items_of w (o_id self)) ->
  exists w',
    Order.cancel self w = (Ok (Order.with_status self OCancelled), w') /\
    order_row w' (o_id self) =
      Some (Order.col_status (Order.with_status self OCancelled) r) /\
    order_items (db w') = order_items (db w) /\
    forall k, stock_of w' k =
      (fun s => s + quantity_of k (items_of w (o_id self))) <$> stock_of w k.
Proof.
  intros Hst Hr Hall. unfold Order.cancel.
  rewrite bool_decide_false by (rewrite Hst; intros [|]; discriminate).
  rewrite (bool_decide_true _ Hst).
  destruct (restore_loop_Ok _ w Hall) as (w1 & Hloop & Hstock).
  pose proof (restore_loop_keeps (fun w => order_row w (o_id self)) _
                (fun _ _ _ => eq_refl) _ _ _ Hloop) as Ho.
  pose proof (restore_loop_keeps (fun w => order_items (db w)) _
                (fun _ _ _ => eq_refl) _ _ _ Hloop) as Hi.
  simpl in Ho, Hi. rewrite Hr in Ho.
  destruct (Order_save_Some (Order.with_status self OCancelled)
              (Order.col_status (Order.with_status self OCancelled)) w1 r)
    as (w2 & Hsave & Hrow & _ & Hp & Hi2 & _ & _); [done..|].
  exists w2. repeat split.
  - assert ((its <- Order.items self ;;
             for_each its (fun item =>
               product <- Product.objects_get (i_product item) ;;
               Product.increase_stock product (i_quantity item) ;;
               ret tt)) w = (Ok tt, w1)) as Hfirst.
    { rewrite (bind_Ok _ _ _ _ _ (Order_items_run _ w)). exact Hloop. }
    rewrite (bind_Ok _ _ _ _ _ Hfirst). by rewrite (bind_Ok _ _ _ _ _ Hsave).
  - done.
  - by rewrite Hi2.
  - intros k. rewrite <- Hstock. unfold stock_of, product_row. by rewrite Hp.
Qed.

(** C9, on the code.  Cancelling a paid order whose lines can be restored
    (positive quantities, products present) succeeds, gives every product
    the quantity the order's lines hold of it, and ends in [OCancelled]; the
    stored status moves only after the restoration went through, so a
    cancellation of a paid order that raises has left the order table alone.
    Cancelling a pending order never touches the product table.  After a
    [mark_as_paid] that returned, [cancel] succeeds and every product's
    stock is what it was before the payment.  But [cancel] gives back what
    the lines hold, not what was taken: after a [mark_as_paid] whose stock
    loop failed, the order is stored [OPaid], [cancel] of that order
    succeeds, and the product of the line that failed ends with more stock
    than it had before the payment. *)
Theorem cancel_restores_stock :
  (forall self w r,
     o_status self = OPaid -> order_row w (o_id self) = Some r ->
     Forall (fun i => 0 < i_quantity i /\ is_Some (stock_of w (i_product i)))
            (items_of w (o_id self)) ->
     exists self' w',
       Order.cancel self w = (Ok self', w') /\
       o_status self' = OCancelled /\
       o_status <$> order_row w' (o_id self) = Some OCancelled /\
       forall k, stock_of w' k =
         (fun s => s + quantity_of k (items_of w (o_id self))) <$> stock_of w k) /\
  (forall self w e w',
     o_status self = OPaid -> Order.cancel self w = (Raise e, w') ->
     orders (db w') = orders (db w)) /\
  (forall self w res w',
     o_status self = OPending -> Order.cancel self w = (res, w') ->
     products (db w') = products (db w)) /\
  (forall self w self1 w1,
     Order.mark_as_paid self w = (Ok self1, w1) ->
     exists self2 w2,
       Order.cancel self1 w1 = (Ok self2, w2) /\
       o_status self2 = OCancelled /\
       forall k, stock_of w2 k = stock_of w k) /\
  (forall self w r e w1,
     o_status self = OPending -> order_row w (o_id self) = Some r ->
     Forall (fun i => 0 < i_quantity i /\ is_Some (stock_of w (i_product i)))
            (items_of w (o_id self)) ->
     Order.mark_as_paid self w = (Raise e, w1) ->
     exists paid self2 w2,
       Order.objects_get (o_id self) w1 = (Ok paid, w1) /\ o_status paid = OPaid /\
       Order.cancel paid w1 = (Ok self2, w2) /\ o_status self2 = OCancelled /\
       exists k s s2, stock_of w k = Some s /\ stock_of w2 k = Some s2 /\ s < s2).
Proof.
  split; [|split; [|split; [|split]]].
  - intros self w r Hst Hr Hall.
    destruct (cancel_paid self w r Hst Hr Hall) as (w' & Hc & Hrow & _ & Hstock).
    exists (Order.with_status self OCancelled), w'. rewrite Hrow. done.
  - intros self w e w' Hst. unfold Order.cancel.
    rewrite bool_decide_false by (rewrite Hst; intros [|]; discriminate).
    rewrite (bool_decide_true _ Hst). unfold bind at 1.
    destruct ((its <- Order.items self ;; for_each its _) w) as [[[]|e1] w1] eqn:Hloop.
    + rewrite (bind_Ok _ _ _ _ _ (Order_items_run _ w)) in Hloop.
      apply (restore_loop_keeps (fun w => orders (db w)) _ (fun _ _ _ => eq_refl)) in Hloop.
      simpl in Hloop. intros H. unfold bind at 1 in H.
      destruct (Order.save _ _ w1) as [[[]|e2] w2] eqn:Hs; [discriminate|].
      injection H as _ <-. apply Order_save_Raise in Hs as ->. done.
    + rewrite (bind_Ok _ _ _ _ _ (Order_items_run _ w)) in Hloop.
      apply (restore_loop_keeps (fun w => orders (db w)) _ (fun _ _ _ => eq_refl)) in Hloop.
      by intros [= _ <-].
  - intros self w res w' Hst. unfold Order.cancel.
    rewrite bool_decide_false by (rewrite Hst; intros [|]; discriminate).
    rewrite bool_decide_false by (rewrite Hst; discriminate).
    intros H.
    eapply (keeps_bind (fun w => products (db w))) in H; [exact H | apply keeps_ret |].
    intros _. apply keeps_bind; [|intros; apply keeps_ret].
    apply Order_save_keeps. done.
  - intros self w self1 w1 H.
    apply mark_as_paid_inv in H as (Hst & -> & Hrow & Hi & Hall & Hstock).
    destruct (order_row w1 (o_id self)) as [r|] eqn:Hr; [|discriminate].
    assert (items_of w1 (o_id self) = items_of w (o_id self)) as Hits.
    { unfold items_of. by rewrite Hi. }
    destruct (cancel_paid (Order.with_status self OPaid) w1 r) as (w2 & Hc & _ & _ & Hs2);
      [done | done | |].
    { simpl. rewrite Hits. eapply Forall_impl; [exact Hall|]. intros i [? Hs].
      split; [done|]. rewrite Hstock. destruct (stock_of w (i_product i)); [eauto|].
      by destruct Hs. }
    exists (Order.with_status (Order.with_status self OPaid) OCancelled), w2.
    split; [done|]. split; [done|].
    intros k. rewrite Hs2. simpl. rewrite Hits, Hstock.
    destruct (stock_of w k); simpl; [f_equal; lia | done].
  - intros self w r e w1 Hst Hr Hall Hfail.
    destruct (mark_as_paid_pending self w r Hst Hr)
      as (w0 & Hrow0 & Hp0 & Hi0 & _ & _ & Hrun).
    rewrite Hfail in Hrun.
    destruct (for_each _ reduce_item w0) as [[[]|e0] w2] eqn:Hloop; [discriminate|].
    injection Hrun as <- <-.
    apply reduce_loop_Raise in Hloop as (taken & item & rest & Hsplit & Htaken).
    pose proof (reduce_loop_keeps (fun w => order_row w (o_id self)) _
                  (fun _ _ _ => eq_refl) _ _ _ Htaken) as Hrow1.
    pose proof (reduce_loop_keeps (fun w => order_items (db w)) _
                  (fun _ _ _ => eq_refl) _ _ _ Htaken) as Hi1.
    simpl in Hrow1, Hi1. rewrite Hrow0 in Hrow1. rewrite Hi0 in Hi1.
    apply reduce_loop_Ok in Htaken as [_ Htaken].
    assert (forall k, stock_of w1 k =
              (fun s => s - quantity_of k taken) <$> stock_of w k) as Hstock1.
    { intros k. rewrite Htaken. unfold stock_of, product_row. by rewrite Hp0. }
    set (paid := Order.col_status (Order.with_status self OPaid) r) in *.
    assert (o_id paid = o_id self) as Hid.
    { simpl. by apply (row_get_key _ _ _ _ Hr). }
    assert (items_of w1 (o_id paid) = items_of w (o_id self)) as Hits.
    { unfold items_of. by rewrite Hi1, Hid. }
    destruct (cancel_paid paid w1 paid) as (w2 & Hc & _ & _ & Hs2);
      [done | by rewrite Hid | |].
    { rewrite Hits. eapply Forall_impl; [exact Hall|]. intros i [? Hs].
      split; [done|]. rewrite Hstock1. destruct (stock_of w (i_product i)); [eauto|].
      by destruct Hs. }
    exists paid, (Order.with_status paid OCancelled), w2.
    split; [by apply Order_objects_get_Some|]. do 3 (split; [done|]).
    assert (item ∈ items_of w (o_id self)) as Hin.
    { rewrite Hsplit. apply elem_of_app. right. apply list_elem_of_here. }
    rewrite Forall_forall in Hall. destruct (Hall item Hin) as [Hq [s Hs]].
    exists (i_product item), s, (s + quantity_of (i_product item) (item :: rest)).
    split; [done|]. split.
    + rewrite Hs2, Hits, Hstock1, Hs. simpl. f_equal.
      rewrite Hsplit, quantity_of_app. simpl. lia.
    + assert (0 <= quantity_of (i_product item) rest) as Hnn.
      { apply (quantity_of_nonneg (P := fun i => is_Some (stock_of w (i_product i)))).
        apply Forall_forall. intros i Hi. apply Hall. rewrite Hsplit.
        apply elem_of_app. right. by apply list_elem_of_further. }
      simpl. rewrite bool_decide_true by done. lia.
Qed.

Lemma get_order_details_inv order_id u w o w' :
  OrderService.get_order_details order_id u w = (Ok o, w') ->
  w' = w /\ order_row w order_id = Some o /\ o_id o = order_id.
Proof.
  unfold OrderService.get_order_details. intros H.
  apply bind_inv_Ok in H as (o0 & w0 & Hget & H).
  apply Order_objects_get_inv in Hget as [-> Hrow].
  assert (o = o0 /\ w' = w) as [-> ->].
  { destruct u as [u|]; [case_bool_decide|]; by inversion H. }
  repeat split; [done|]. by apply row_get_key in Hrow.
Qed.

Lemma col_status_self o st :
  Order.col_status (Order.with_status o st) o = Order.with_status o st.
Proof. done. Qed.

(** C8, as the code has it.  [cancel_order] refuses exactly the orders in
    status [OShipped] or [ODelivered]: it raises with the message of
    [Order.cancel], logs the refusal and leaves the database as it was.  From
    [OPending], [OProcessing] and [OCancelled] it succeeds, stores
    [OCancelled] and leaves the products alone; from [OPaid] it succeeds and
    stores [OCancelled] whenever the order's lines can be restored. *)
Theorem cancel_order_refuses_shipped_delivered
    (order_id : Z) (u : option user) (w : world) (o : order) :
  OrderService.get_order_details order_id u w = (Ok o, w) ->
  (o_status o = OShipped \/ o_status o = ODelivered ->
     OrderService.cancel_order order_id u w =
       (Raise (ValidationError (CannotCancel (o_status o))),
        World_ (db w) (logs w ++ [Log_ Error "orders" order_id (CannotCancel (o_status o))]))) /\
  (o_status o = OPending \/ o_status o = OProcessing \/ o_status o = OCancelled ->
     exists o' w',
       OrderService.cancel_order order_id u w = (Ok o', w') /\
       o_status o' = OCancelled /\
       order_row w' order_id = Some o' /\
       products (db w') = products (db w)) /\
  (o_status o = OPaid ->
     Forall (fun i => 0 < i_quantity i /\ is_Some (stock_of w (i_product i)))
            (items_of w order_id) ->
     exists o' w',
       OrderService.cancel_order order_id u w = (Ok o', w') /\
       o_status o' = OCancelled /\
       order_row w' order_id = Some o').
Proof.
  intros Hget. pose proof Hget as Hd.
  apply get_order_details_inv in Hd as (_ & Hrow & Hid).
  unfold OrderService.cancel_order, atomic.
  rewrite (bind_Ok _ _ _ _ _ Hget). unfold try_except.
  split; [|split].
  - intros Hst. rewrite (cancel_rejects o w Hst). simpl.
    unfold bind, logger, raise. simpl. done.
  - intros Hst. rewrite <- Hid in Hrow.
    destruct (cancel_unpaid o w o) as (w' & Hc & Hr' & Hp & _); [| | |done|].
    1-3: destruct Hst as [->|[->| ->]]; discriminate.
    rewrite Hc. eexists _, _. split; [done|]. rewrite <- Hid.
    rewrite Hr', col_status_self. done.
  - intros Hst Hall. rewrite <- Hid in Hrow, Hall.
    destruct (cancel_paid o w o Hst Hrow Hall) as (w' & Hc & Hr' & _).
    rewrite Hc. eexists _, _. split; [done|]. rewrite <- Hid.
    rewrite Hr', col_status_self. done.
Qed.

(** C8, as the claim has it, fails: an order in status ['processing'] is
    cancelled without complaint. *)
Lemma cancel_order_processing_goes_through :
  OrderService.cancel_order 1 None shop_processing =
    (Ok (Order_ 1 7 10000 OCancelled ""),
     World_ (Database_ [Product_ 1 5000 10 Active] [Order_ 1 7 10000 OCancelled ""]
                       [OrderItem_ 1 1 1 2 5000 10000] [] 2 2 1) []).
Proof. reflexivity. Qed.

Lemma cancel_order_refuses_shipped_delivered_witness :
  OrderService.get_order_details 1 (Some alice) shop_processing =
    (Ok (Order_ 1 7 10000 OProcessing ""), shop_processing) /\
  exists o' w',
    OrderService.cancel_order 1 (Some alice) shop_processing = (Ok o', w') /\
    o_status o' = OCancelled /\
    order_row w' 1 = Some o' /\
    products (db w') = products (db shop_processing).
Proof.
  split; [reflexivity|].
  apply (cancel_order_refuses_shipped_delivered 1 (Some alice) shop_processing
           (Order_ 1 7 10000 OProcessing ""));
    [reflexivity | right; left; reflexivity].
Defined.

Lemma stock_and_status_coupled_witness :
  let self := Product_ 2 300 2 Active in
  (Product.reduce_stock self 0 shop = (Raise (ValueError QuantityMustBePositive), shop) /\
   Product.increase_stock self 0 shop = (Raise (ValueError QuantityMustBePositive), shop)) /\
  (exists m, Product.reduce_stock self 3 shop = (Raise (ValueError m), shop)) /\
  (exists self' w',
     Product.reduce_stock self 2 shop = (Ok self', w') /\
     p_stock self' = 0 /\ p_status self' = OutOfStock /\
     Product.is_available self' = false /\
     product_row w' 2 = Some (Product_ 2 300 0 OutOfStock)) /\
  (exists self' w',
     Product.increase_stock (Product_ 2 300 0 OutOfStock) 5 shop = (Ok self', w') /\
     p_stock self' = 0 + 5 /\ p_status self' = Active /\
     product_row w' 2 = Some (Product_ 2 300 (0 + 5) Active)).
Proof.
  intros self. split; [|split; [|split]].
  - apply (stock_and_status_coupled self 0 shop). lia.
  - apply (stock_and_status_coupled self 3 shop). simpl. lia.
  - apply (stock_and_status_coupled self 2 shop) with (r := self);
      [reflexivity | lia | reflexivity].
  - apply (stock_and_status_coupled (Product_ 2 300 0 OutOfStock) 5 shop) with (r := self);
      [reflexivity | lia | reflexivity].
Defined.

(** Two requests have read the order of [shop_single] while it was pending.
    The first marks it paid and takes two units; the second, holding its
    pending instance, takes two more. *)
Lemma mark_as_paid_guards_on_the_instance_witness :
  exists stale self1 w1 stale1 w2,
    Order.objects_get 1 shop_single = (Ok stale, shop_single) /\
    stock_of shop_single 1 = Some 10 /\
    Order.mark_as_paid stale shop_single = (Ok self1, w1) /\
    stock_of w1 1 = Some 8 /\
    Order.mark_as_paid self1 w1 = (Raise (ValueError (CannotMarkPaid OPaid)), w1) /\
    Order.mark_as_paid stale w1 = (Ok stale1, w2) /\
    o_status <$> order_row w2 1 = Some OPaid /\
    stock_of w2 1 = Some 6.
Proof.
  set (stale := Order_ 1 7 10000 OPending "").
  destruct (Order.mark_as_paid stale shop_single) as [r w1] eqn:E.
  assert (r = Ok (Order_ 1 7 10000 OPaid "")) as -> by (vm_compute in E; congruence).
  destruct (mark_as_paid_guards_on_the_instance stale shop_single _ w1 E)
    as (_ & _ & Hstock & Hsecond & _ & Hstale).
  destruct (Hstale stale eq_refl eq_refl) as (stale1 & w2 & Hrun & Hpaid & Htwice).
  { intros k s. unfold stock_of, product_row. simpl.
    case_bool_decide as Hk; [|discriminate]. subst k. intros [= <-].
    vm_compute. discriminate. }
  exists stale, (Order_ 1 7 10000 OPaid ""), w1, stale1, w2.
  split; [reflexivity|]. split; [reflexivity|]. split; [exact E|].
  split; [exact (Hstock 1)|]. split; [exact Hsecond|]. split; [exact Hrun|].
  split; [exact Hpaid | exact (Htwice 1)].
Defined.

(** The order of [shop_short] asks two units of product 2, which has one.
    The payment takes the two units of product 1 and fails on product 2; the
    cancellation gives two units to each, and product 2 ends with three. *)
Lemma cancel_restores_stock_witness :
  let self := Order_ 1 7 10600 OPending "" in
  (exists self1 w1 self2 w2,
     Order.mark_as_paid self shop_ordered = (Ok self1, w1) /\
     Order.cancel self1 w1 = (Ok self2, w2) /\
     o_status self2 = OCancelled /\
     forall k, stock_of w2 k = stock_of shop_ordered k) /\
  (exists e w1 paid self2 w2,
     Order.mark_as_paid self shop_short = (Raise e, w1) /\
     Order.objects_get 1 w1 = (Ok paid, w1) /\ o_status paid = OPaid /\
     Order.cancel paid w1 = (Ok self2, w2) /\
     stock_of shop_short 1 = Some 10 /\ stock_of w2 1 = Some 10 /\
     stock_of shop_short 2 = Some 1 /\ stock_of w2 2 = Some 3).
Proof.
  intros self.
  destruct cancel_restores_stock as (_ & _ & _ & H & Hfailed).
  split.
  - destruct (Order.mark_as_paid self shop_ordered) as [r w1] eqn:E.
    assert (r = Ok (Order_ 1 7 10600 OPaid "")) as -> by (vm_compute in E; congruence).
    destruct (H self shop_ordered _ w1 E) as (self2 & w2 & Hc & Hst & Hk).
    exists (Order_ 1 7 10600 OPaid ""), w1, self2, w2. done.
  - destruct (Order.mark_as_paid self shop_short) as [r w1] eqn:E.
    assert (r = Raise (ValueError (InsufficientStock 1 2))) as ->
      by (vm_compute in E; congruence).
    destruct (Hfailed self shop_short self (ValueError (InsufficientStock 1 2)) w1
                eq_refl eq_refl) as
      (paid & self2 & w2 & Hget & Hpaid & Hc & _ & _); [|exact E|].
    { repeat constructor; by eexists. }
    exists (ValueError (InsufficientStock 1 2)), w1, paid, self2, w2.
    do 4 (split; [done|]). split; [reflexivity|].
    assert (w1 = snd (Order.mark_as_paid self shop_short)) as Hw1 by (by rewrite E).
    assert (paid = Order_ 1 7 10600 OPaid "") as ->.
    { rewrite Hw1 in Hget. vm_compute in Hget. congruence. }
    assert (w2 = snd (Order.cancel (Order_ 1 7 10600 OPaid "") w1)) as -> by (by rewrite Hc).
    rewrite Hw1. split; [reflexivity|]. split; reflexivity.
Defined.

(** ** Order lines and the order total *)

Lemma row_get_app_new {A} (key : A -> Z) (t : list A) (r : A) :
  row_get key (key r) t = None -> row_get key (key r) (t ++ [r]) = Some r.
Proof.
  induction t as [|x t IH]; simpl.
  - intros _. by rewrite bool_decide_true.
  - case_bool_decide; [discriminate | exact IH].
Qed.

Lemma row_get_app_old {A} (key : A -> Z) (t : list A) (r : A) k :
  k <> key r -> row_get key k (t ++ [r]) = row_get key k t.
Proof.
  intros Hne. induction t as [|x t IH]; simpl.
  - by rewrite bool_decide_false.
  - by rewrite IH.
Qed.



Lemma calculate_total_run o w :
  Order.calculate_total o w = (Ok (subtotals (items_of w (o_id o))), w).
Proof. done. Qed.

Lemma decimal_column_fits v w : fits v = true -> decimal_column v w = (Ok tt, w).
Proof. unfold decimal_column. by intros ->. Qed.

Lemma decimal_column_overflow v w :
  fits v = false -> decimal_column v w = (Raise InvalidOperation, w).
Proof. unfold decimal_column. by intros ->. Qed.

Lemma decimal_column_inv v w w' :
  decimal_column v w = (Ok tt, w') -> w' = w /\ fits v = true.
Proof. unfold decimal_column. destruct (fits v); [by intros [= <-] | discriminate]. Qed.

Lemma keeps_decimal_column {B} (f : world -> B) v : keeps f (decimal_column v).
Proof. unfold decimal_column. destruct (fits v); [apply keeps_ret | apply keeps_raise]. Qed.

Lemma recalculate_and_save_overflow o w :
  fits (subtotals (items_of w (o_id o))) = false ->
  Order.recalculate_and_save o w = (Raise InvalidOperation, w).
Proof.
  intros Hfits. unfold Order.recalculate_and_save.
  rewrite (bind_Ok _ _ _ _ _ (calculate_total_run o w)). simpl.
  unfold bind at 1. by rewrite (decimal_column_overflow _ _ Hfits).
Qed.

Lemma recalculate_and_save_Some o w r :
  order_row w (o_id o) = Some r ->
  fits (subtotals (items_of w (o_id o))) = true ->
  let o' := Order.with_total_amount o (subtotals (items_of w (o_id o))) in
  exists w',
    Order.recalculate_and_save o w = (Ok o', w') /\
    order_row w' (o_id o) = Some (Order.col_total_amount o' r) /\
    (forall k, k <> o_id o -> order_row w' k = order_row w k) /\
    products (db w') = products (db w) /\
    order_items (db w') = order_items (db w) /\
    payments (db w') = payments (db w) /\
    logs w' = logs w.
Proof.
  intros Hr Hfits o'.
  destruct (Order_save_Some o' (Order.col_total_amount o') w r)
    as (w' & Hsave & Hrow & Hother & Hp & Hi & Hpay & Hl); [done..|].
  exists w'. split; [|done].
  unfold Order.recalculate_and_save.
  rewrite (bind_Ok _ _ _ _ _ (calculate_total_run o w)).
  fold o'. rewrite (bind_Ok _ _ _ _ _ (decimal_column_fits _ w Hfits)).
  by rewrite (bind_Ok _ _ _ _ _ Hsave).
Qed.

Lemma recalculate_and_save_fits o w o1 w1 :
  Order.recalculate_and_save o w = (Ok o1, w1) ->
  fits (subtotals (items_of w (o_id o))) = true.
Proof.
  intros H. destruct (fits _) eqn:Hfits; [done|].
  by rewrite (recalculate_and_save_overflow _ _ Hfits) in H.
Qed.

Lemma recalculate_and_save_keeps {B} (f : world -> B) o :
  ignores_orders f -> keeps f (Order.recalculate_and_save o).
Proof.
  intros Hf. unfold Order.recalculate_and_save, Order.calculate_total, Order.items.
  apply keeps_bind; [keeps_steps|]. intros total.
  apply keeps_bind; [apply keeps_decimal_column|]. intros _.
  apply keeps_bind; [by apply Order_save_keeps | auto with keeps].
Qed.

(** The price an order line is stored with. *)
Lemma OrderItem_create_Ok o p q price w line o1 w1 :
  OrderItem.objects_create o p q price w = (Ok (line, o1), w1) ->
  let price' := match price with
                | Some v => if bool_decide (v = 0) then p_price p else v
                | None => p_price p
                end in
  line = OrderItem_ (item_seq (db w)) (o_id o) (p_id p) q price' (q * price') /\
  order_items (db w1) = order_items (db w) ++ [line] /\
  products (db w1) = products (db w) /\
  payments (db w1) = payments (db w) /\
  logs w1 = logs w /\
  o_id o1 = o_id o /\
  (forall k, k <> o_id o -> order_row w1 k = order_row w k) /\
  exists r, order_row w (o_id o) = Some r /\
    (o_id o <> 0 ->
       o1 = Order.with_total_amount o (subtotals (items_of w1 (o_id o))) /\
       order_row w1 (o_id o) = Some (Order.col_total_amount o1 r)) /\
    (o_id o = 0 -> o1 = o /\ order_row w1 (o_id o) = Some r).
Proof.
  intros H price'. unfold OrderItem.objects_create in H. fold price' in H.
  apply bind_inv_Ok in H as ([] & ? & [-> _]%decimal_column_inv & H).
  apply bind_inv_Ok in H as ([] & ? & [-> _]%decimal_column_inv & H).
  unfold bind at 1 in H. unfold read at 1 in H.
  unfold bind at 1 in H. unfold read at 1 in H.
  destruct (_ && _) eqn:Hok in H; simpl in H; [|discriminate].
  apply andb_prop in Hok as [Hok _]. apply andb_prop in Hok as [Hok _].
  apply andb_prop in Hok as [Hok _]. apply bool_decide_eq_true in Hok as [r Hr].
  set (line0 := OrderItem_ _ _ _ _ _ _) in H.
  set (w0 := World_ (set_order_items (db w) (order_items (db w) ++ [line0])
                       (item_seq (db w) + 1)) (logs w)).
  unfold bind at 1 in H. unfold write at 1 in H. fold w0 in H.
  case_bool_decide as Hz.
  - assert (fits (subtotals (items_of w0 (o_id o))) = true) as Hfits.
    { unfold bind at 1 in H.
      destruct (Order.recalculate_and_save o w0) as [[o2|e] w2] eqn:Hrec; [|discriminate].
      by apply recalculate_and_save_fits in Hrec. }
    destruct (recalculate_and_save_Some o w0 r) as (w2 & Hrun & Hrow & Hother & Hp & Hi & Hpay & Hl);
      [exact Hr|exact Hfits|].
    rewrite (bind_Ok _ _ _ _ _ Hrun) in H. injection H as <- <- <-.
    assert (items_of w2 (o_id o) = items_of w0 (o_id o)) as Hits.
    { unfold items_of. by rewrite Hi. }
    split; [done|]. split; [by rewrite Hi|]. split; [by rewrite Hp|].
    split; [by rewrite Hpay|]. split; [by rewrite Hl|]. split; [done|].
    split; [intros k Hk; by rewrite Hother|].
    exists r. split; [done|]. split; [|done]. intros _. rewrite Hits. done.
  - unfold bind, ret in H. injection H as <- <- <-.
    do 6 (split; [done|]). split; [done|].
    exists r. split; [done|]. split; [done|]. intros _. done.
Qed.

Lemma OrderItem_create_keeps_products o p q price :
  keeps (fun w => products (db w)) (OrderItem.objects_create o p q price).
Proof.
  unfold OrderItem.objects_create.
  apply keeps_bind; [apply keeps_decimal_column|]. intros _.
  apply keeps_bind; [apply keeps_decimal_column|]. intros _.
  apply keeps_bind; [apply keeps_read|]. intros k.
  apply keeps_bind; [apply keeps_read|]. intros ok.
  destruct (negb ok); [apply keeps_raise|].
  apply keeps_bind; [by apply keeps_write|]. intros _.
  apply keeps_bind; [|intros; apply keeps_ret].
  case_bool_decide; [by apply recalculate_and_save_keeps | apply keeps_ret].
Qed.

Lemma OrderItem_delete_Ok line w w1 :
  OrderItem.delete line w = (Ok tt, w1) ->
  order_items (db w1) = row_del i_id (i_id line) (order_items (db w)) /\
  products (db w1) = products (db w) /\
  o_total_amount <$> order_row w1 (i_order line) =
    Some (subtotals (items_of w1 (i_order line))).
Proof.
  unfold OrderItem.delete. intros H.
  apply bind_inv_Ok in H as (o & w0 & Hget & H).
  apply Order_objects_get_inv in Hget as [-> Hrow].
  pose proof (row_get_key _ _ _ _ Hrow) as Hid.
  unfold bind at 1 in H. unfold write at 1 in H.
  set (w0 := World_ _ _) in H.
  assert (fits (subtotals (items_of w0 (o_id o))) = true) as Hfits.
  { unfold bind at 1 in H.
    destruct (Order.recalculate_and_save o w0) as [[o2|e] w2] eqn:Hrec; [|discriminate].
    by apply recalculate_and_save_fits in Hrec. }
  destruct (recalculate_and_save_Some o w0 o) as (w2 & Hrun & Hr2 & _ & Hp & Hi & _);
    [by rewrite Hid|exact Hfits|].
  rewrite (bind_Ok _ _ _ _ _ Hrun) in H. injection H as <-.
  rewrite Hi, Hp. split; [done|]. split; [done|].
  rewrite <- Hid, Hr2. simpl. unfold items_of. by rewrite Hi.
Qed.

(** ** [create_order] *)

Lemma item_valid_products d d' item :
  products d' = products d -> item_valid d' item = item_valid d item.
Proof. unfold item_valid. by intros ->. Qed.

Lemma line_of_products d d' k item line :
  products d' = products d -> line_of d k item line -> line_of d' k item line.
Proof. unfold line_of. by intros ->. Qed.

Lemma add_item_keeps_products item o :
  keeps (fun w => products (db w)) (OrderService.add_item item o).
Proof.
  unfold OrderService.add_item. apply keeps_try_except; [|intros; apply keeps_raise].
  apply keeps_bind.
  - unfold Product.objects_get.
    apply keeps_bind; [apply keeps_read | intros; apply keeps_of_option].
  - intros p. destruct (negb _); [apply keeps_raise|].
    case_bool_decide; [apply keeps_raise|].
    apply keeps_bind; [apply OrderItem_create_keeps_products | intros; apply keeps_ret].
Qed.

Lemma add_item_Ok item o w o1 w1 :
  OrderService.add_item item o w = (Ok o1, w1) ->
  item_valid (db w) item = true /\
  exists line,
    line_of (db w) (o_id o) item line /\
    order_items (db w1) = order_items (db w) ++ [line] /\
    payments (db w1) = payments (db w) /\
    logs w1 = logs w /\
    o_id o1 = o_id o /\
    (forall k, k <> o_id o -> order_row w1 k = order_row w k) /\
    exists r, order_row w (o_id o) = Some r /\
      (o_id o <> 0 ->
         o1 = Order.with_total_amount o (subtotals (items_of w1 (o_id o))) /\
         order_row w1 (o_id o) = Some (Order.col_total_amount o1 r)) /\
      (o_id o = 0 -> o1 = o /\ order_row w1 (o_id o) = Some r).
Proof.
  unfold OrderService.add_item, try_except. intros H.
  destruct (bind _ _ w) as [[o2|e] w2] eqn:Hbody.
  2: { destruct (is_ProductDoesNotExist e); discriminate. }
  injection H as -> ->.
  apply bind_inv_Ok in Hbody as (p & w0 & Hget & H).
  apply Product_objects_get_inv in Hget as [-> Hp].
  destruct (Product.is_available p) eqn:Hav; simpl in H; [|discriminate].
  case_bool_decide as Hs; [discriminate|].
  apply bind_inv_Ok in H as ([line o2] & w2 & Hc & Hret). injection Hret as <- <-.
  apply OrderItem_create_Ok in Hc as (Hline & Hi & _ & Hpay & Hl & Hid & Hother & Hr).
  pose proof (row_get_key _ _ _ _ Hp) as Hpid.
  split.
  - unfold item_valid. unfold product_row in Hp. rewrite Hp, Hav. simpl.
    apply bool_decide_eq_true. lia.
  - exists line. split; [|done].
    assert ((if bool_decide (p_price p = 0) then p_price p else p_price p) = p_price p)
      as Hprice by (by case_bool_decide).
    rewrite Hprice in Hline. subst line. unfold line_of. simpl.
    unfold product_row in Hp. rewrite Hp. done.
Qed.

(** The effect of the loop of [create_order], line by line. *)
Lemma add_items_Ok items : forall o w o1 w1,
  for_each_with items o OrderService.add_item w = (Ok o1, w1) ->
  Forall (fun item => item_valid (db w) item = true) items /\
  products (db w1) = products (db w) /\
  payments (db w1) = payments (db w) /\
  logs w1 = logs w /\
  o_id o1 = o_id o /\
  (forall k, k <> o_id o -> order_row w1 k = order_row w k) /\
  (exists lines,
     Forall2 (line_of (db w) (o_id o)) items lines /\
     order_items (db w1) = order_items (db w) ++ lines) /\
  (forall r, order_row w (o_id o) = Some r ->
     exists r1, order_row w1 (o_id o) = Some r1 /\
       o_id r1 = o_id r /\ o_user r1 = o_user r /\
       o_status r1 = o_status r /\ o_notes r1 = o_notes r /\
       (items <> [] -> o_id o <> 0 ->
          o_total_amount r1 = subtotals (items_of w1 (o_id o)))).
Proof.
  induction items as [|item items IH]; intros o w o1 w1; simpl.
  - intros [= <- <-]. do 6 (split; [done|]).
    split; [exists []; split; [constructor | by rewrite app_nil_r]|].
    intros r Hr. exists r. done.
  - intros H. apply bind_inv_Ok in H as (o0 & w0 & Hadd & Hrest).
    pose proof (add_item_keeps_products item o _ _ _ Hadd) as Hp0. simpl in Hp0.
    apply add_item_Ok in Hadd
      as (Hvalid & line & Hline & Hi0 & Hpay0 & Hl0 & Hid0 & Hother0 & r0 & Hr0 & Hnz & Hz).
    pose proof Hrest as Hrest0.
    apply IH in Hrest
      as (Hvalids & Hp1 & Hpay1 & Hl1 & Hid1 & Hother1 & (lines & Hlines & Hi1) & Hrows).
    rewrite Hid0 in *.
    split.
    { constructor; [done|]. eapply Forall_impl; [exact Hvalids|].
      intros it Hit. simpl in *. by rewrite <- (item_valid_products _ _ it Hp0). }
    split; [congruence|]. split; [congruence|]. split; [congruence|].
    split; [congruence|].
    split; [intros k Hk; by rewrite Hother1, Hother0|].
    split.
    { exists (line :: lines). split.
      - constructor; [done|]. eapply Forall2_impl; [exact Hlines|].
        intros it l. by apply line_of_products.
      - rewrite Hi1, Hi0, <- app_assoc. done. }
    intros r Hr. rewrite Hr in Hr0. injection Hr0 as <-.
    destruct (decide (o_id o = 0)) as [Hzero|Hnonzero].
    + destruct (Hz Hzero) as [-> Hr1].
      destruct (Hrows r Hr1) as (r1 & Hr1' & ? & ? & ? & ? & _).
      exists r1. repeat split; try done.
    + destruct (Hnz Hnonzero) as [Ho0 Hr1].
      destruct (Hrows _ Hr1) as (r1 & Hr1' & Ha & Hb & Hc & Hd & Htot).
      exists r1. split; [done|]. do 4 (split; [done|]).
      intros _ _. destruct items as [|item2 items].
      * simpl in Hrest0. injection Hrest0 as _ <-.
        rewrite Hr1 in Hr1'. injection Hr1' as <-. rewrite Ho0. done.
      * apply Htot; [discriminate | done].
Qed.

Lemma Order_objects_create_Ok uid total notes w o w' :
  Order.objects_create uid total notes w = (Ok o, w') ->
  o = Order_ (order_seq (db w)) uid total OPending notes /\
  order_row w (o_id o) = None /\
  order_row w' (o_id o) = Some o /\
  (forall k, k <> o_id o -> order_row w' k = order_row w k) /\
  products (db w') = products (db w) /\
  order_items (db w') = order_items (db w) /\
  payments (db w') = payments (db w) /\
  logs w' = logs w.
Proof.
  unfold Order.objects_create. intros H.
  apply bind_inv_Ok in H as ([] & ? & [-> _]%decimal_column_inv & H). revert H.
  unfold bind, read, write, ret, raise. simpl.
  destruct (row_get o_id (order_seq (db w)) (orders (db w))) eqn:Hfree; [discriminate|].
  intros [= <- <-]. simpl. unfold order_row. simpl.
  split; [done|]. split; [done|]. split.
  - by apply (row_get_app_new o_id _ (Order_ (order_seq (db w)) uid total OPending notes)).
  - split; [|done]. intros k Hk. by apply row_get_app_old.
Qed.

Lemma filter_lines_all (k : Z) (lines : list order_item) :
  Forall (fun i => i_order i = k) lines -> filter (fun i => i_order i = k) lines = lines.
Proof.
  induction 1 as [|i lines Hi _ IH]; [done|].
  rewrite filter_cons. destruct (decide _); [by rewrite IH | done].
Qed.

Lemma items_of_unknown_order d l k :
  lines_have_orders d -> row_get o_id k (orders d) = None ->
  items_of (World_ d l) k = [].
Proof.
  unfold lines_have_orders, items_of. simpl. intros Hall Hnone.
  induction Hall as [|i its Hi _ IH]; [done|].
  rewrite filter_cons. destruct (decide _) as [Heq|]; [|exact IH].
  rewrite Heq, Hnone in Hi. by destruct Hi.
Qed.

Lemma create_order_Ok u items notes w o w' :
  OrderService.create_order u items notes w = (Ok o, w') ->
  items <> [] /\
  Forall (fun item => item_valid (db w) item = true) items /\
  o_id o = order_seq (db w) /\
  order_row w (o_id o) = None /\
  order_row w' (o_id o) = Some o /\
  o_user o = u_id u /\ o_status o = OPending /\ o_notes o = notes /\
  (forall k, k <> o_id o -> order_row w' k = order_row w k) /\
  products (db w') = products (db w) /\
  payments (db w') = payments (db w) /\
  logs w' = logs w /\
  (exists lines,
     Forall2 (line_of (db w) (o_id o)) items lines /\
     order_items (db w') = order_items (db w) ++ lines) /\
  (o_id o <> 0 -> o_total_amount o = subtotals (items_of w' (o_id o))).
Proof.
  unfold OrderService.create_order, atomic. intros H.
  destruct (_ w) as [[o1|e] w1] eqn:Hbody in H; [|discriminate].
  injection H as -> ->.
  case_bool_decide as Hne; [discriminate|].
  apply bind_inv_Ok in Hbody as (o0 & w0 & Hcreate & H).
  apply Order_objects_create_Ok in Hcreate
    as (Ho0 & Hfree & Hrow0 & Hother0 & Hp0 & Hi0 & Hpay0 & Hl0).
  apply bind_inv_Ok in H as (o1 & w1 & Hloop & Hget).
  apply add_items_Ok in Hloop
    as (Hvalid & Hp1 & Hpay1 & Hl1 & Hid1 & Hother1 & (lines & Hlines & Hi1) & Hrows).
  apply Order_objects_get_inv in Hget as [-> Hrow].
  destruct (Hrows _ Hrow0) as (r1 & Hr1 & Ha & Hb & Hc & Hd & Htot).
  rewrite Hid1 in Hrow. rewrite Hrow in Hr1. injection Hr1 as <-.
  assert (o_id o = o_id o0) as Hid by done. rewrite Hid.
  split; [done|]. split.
  { eapply Forall_impl; [exact Hvalid|]. intros it Hit. simpl in *.
    by rewrite <- (item_valid_products _ _ it Hp0). }
  rewrite Hb, Hc, Hd. subst o0. simpl in *.
  do 2 (split; [done|]). split; [done|]. do 3 (split; [done|]).
  split; [intros k Hk; by rewrite Hother1, Hother0|].
  split; [congruence|]. split; [congruence|]. split; [congruence|].
  split.
  - exists lines. split; [|congruence].
    eapply Forall2_impl; [exact Hlines|]. intros it l. by apply line_of_products.
  - intros Hnz. by apply Htot.
Qed.

(** The lines of a new order are exactly the lines the call stored. *)
Lemma create_order_lines u items notes w o w' :
  OrderService.create_order u items notes w = (Ok o, w') ->
  lines_have_orders (db w) ->
  Forall2 (line_of (db w) (o_id o)) items (items_of w' (o_id o)) /\
  order_items (db w') = order_items (db w) ++ items_of w' (o_id o).
Proof.
  intros H Hfk. apply create_order_Ok in H
    as (_ & _ & _ & Hfree & _ & _ & _ & _ & _ & _ & _ & _ & (lines & Hlines & Hi) & _).
  assert (items_of w' (o_id o) = lines) as ->; [|done].
  unfold items_of. rewrite Hi, filter_app.
  destruct w as [d l]. simpl in *.
  pose proof (items_of_unknown_order d l (o_id o) Hfk Hfree) as Hnone.
  unfold items_of in Hnone. simpl in Hnone. rewrite Hnone. simpl.
  apply filter_lines_all.
  clear -Hlines. induction Hlines as [|it l its ls Hl _ IH]; constructor; [|done].
  by destruct Hl.
Qed.

(** ** Payments *)

Lemma blind_ret {A} (a : A) : payment_blind (ret a).
Proof. done. Qed.

Lemma blind_raise {A} e : payment_blind (@raise A e).
Proof. done. Qed.

Lemma blind_of_option {A} (o : option A) e : payment_blind (of_option o e).
Proof. by destruct o. Qed.

Lemma blind_read {A} (f : database -> A) :
  (forall d t, f (set_payments d t) = f d) -> payment_blind (read f).
Proof. intros Hf t w. unfold read, with_payments. simpl. by rewrite Hf. Qed.

Lemma blind_write g :
  (forall d t, g (set_payments d t) = set_payments (g d) t) -> payment_blind (write g).
Proof. intros Hg t w. unfold write, with_payments. simpl. by rewrite Hg. Qed.

Lemma blind_bind {A C} (m : M A) (k : A -> M C) :
  payment_blind m -> (forall a, payment_blind (k a)) -> payment_blind (bind m k).
Proof.
  intros Hm Hk t w. unfold bind. rewrite Hm.
  destruct (m w) as [[a|e] w1]; simpl; [apply Hk | done].
Qed.

Lemma blind_for_each {A} (xs : list A) body :
  (forall x, payment_blind (body x)) -> payment_blind (for_each xs body).
Proof.
  intros Hb. induction xs as [|x xs IH]; simpl; [apply blind_ret|].
  apply blind_bind; [apply Hb | intros _; exact IH].
Qed.

Lemma blind_reduce_item item : payment_blind (reduce_item item).
Proof.
  unfold reduce_item, Product.objects_get.
  apply blind_bind; [apply blind_bind; [by apply blind_read | intros; apply blind_of_option]|].
  intros p. apply blind_bind; [|intros; apply blind_ret].
  unfold Product.reduce_stock.
  repeat case_bool_decide; try apply blind_raise.
  all: apply blind_bind; [|intros; apply blind_ret].
  all: unfold Product.save; apply blind_bind; [by apply blind_read|].
  all: intros [r|]; [by apply blind_write | apply blind_raise].
Qed.

Lemma blind_mark_as_paid o : payment_blind (Order.mark_as_paid o).
Proof.
  unfold Order.mark_as_paid. case_bool_decide; [apply blind_raise|].
  apply blind_bind.
  { unfold Order.save. apply blind_bind; [by apply blind_read|].
    intros [r|]; [by apply blind_write | apply blind_raise]. }
  intros _. apply blind_bind; [by apply blind_read|]. intros its.
  apply blind_bind; [|intros; apply blind_ret].
  apply blind_for_each. intros item. apply blind_reduce_item.
Qed.

Lemma Payment_save_Some self cols w r :
  payment_row w (pay_id self) = Some r -> pay_id (cols r) = pay_id r ->
  Payment.save self cols w =
    (Ok tt, with_payments (row_put pay_id (cols r) (payments (db w))) w) /\
  payment_row (with_payments (row_put pay_id (cols r) (payments (db w))) w) (pay_id self)
    = Some (cols r) /\
  forall k, k <> pay_id self ->
    payment_row (with_payments (row_put pay_id (cols r) (payments (db w))) w) k
    = payment_row w k.
Proof.
  intros Hr Hc. unfold Payment.save, bind, read, write, payment_row in *.
  rewrite Hr. split; [done|]. simpl.
  pose proof (row_get_key _ _ _ _ Hr) as Hk. split.
  - rewrite <- Hk, <- Hc. rewrite row_get_put_eq; [done|]. rewrite Hc, Hk. by eexists.
  - intros k Hne. apply row_get_put_ne. congruence.
Qed.

Lemma reduce_loop_complaint its w m w' :
  for_each its reduce_item w = (Raise (ValueError m), w') -> stock_complaint m.
Proof.
  revert w. induction its as [|item its IH]; intros w; simpl; [intros [=]|].
  unfold bind at 1. destruct (reduce_item item w) as [[[]|e] w1] eqn:Hitem.
  - apply IH.
  - intros [= -> ->]. clear IH. unfold reduce_item in Hitem.
    unfold bind at 1 in Hitem.
    destruct (Product.objects_get _ w) as [[p|e] w0] eqn:Hget.
    2: { injection Hitem as -> _. unfold Product.objects_get, bind, read in Hget.
         destruct (row_get _ _ _); simpl in Hget; discriminate. }
    unfold bind at 1 in Hitem. unfold Product.reduce_stock in Hitem.
    case_bool_decide; [injection Hitem as <- _; by left|].
    case_bool_decide; [injection Hitem as <- _; right; by eexists _, _|].
    unfold bind at 1 in Hitem. unfold Product.save, bind, read, write in Hitem.
    destruct (row_get _ _ _); simpl in Hitem; discriminate.
Qed.

(** C4. A payment whose row is stored is marked successful for a pending
    order, and the stock loop of [Order.mark_as_paid] fails on that order
    ([mark_as_paid] raises a [ValueError], which on a pending order is one of
    the two complaints of [reduce_stock]).  Then [mark_as_success] returns
    normally with the payment in [PSuccess]; the failure has become one
    warning in the log, and the order is stored [OPaid]. *)
Theorem stock_failure_is_logged_not_raised
    (self : payment) (transaction_data : option json) (now : Z) (w : world)
    (o : order) (m : message) (w' : world) :
  is_Some (payment_row w (pay_id self)) ->
  order_row w (pay_order self) = Some o -> o_status o = OPending ->
  Order.mark_as_paid o w = (Raise (ValueError m), w') ->
  stock_complaint m /\
  o_status <$> order_row w' (pay_order self) = Some OPaid /\
  exists self1 w1,
    Payment.mark_as_success self transaction_data now w = (Ok self1, w1) /\
    pay_status self1 = PSuccess /\
    pay_status <$> payment_row w1 (pay_id self) = Some PSuccess /\
    o_status <$> order_row w1 (pay_order self) = Some OPaid /\
    logs w1 = logs w ++ [Log_ Warning "payments" (pay_id self) m].
Proof.
  intros [r Hr] Ho Hst Hfail.
  pose proof (row_get_key _ _ _ _ Ho) as Hoid.
  rewrite <- Hoid in Ho.
  destruct (mark_as_paid_pending o w o Hst Ho) as (w0 & Hrow0 & _ & _ & _ & Hl0 & Hrun).
  rewrite Hfail in Hrun.
  destruct (for_each _ reduce_item w0) as [[[]|e] w2] eqn:Hloop; [discriminate|].
  injection Hrun as <- <-.
  assert (o_status <$> order_row w' (o_id o) = Some OPaid) as Hpaid.
  { pose proof (reduce_loop_keeps (fun w => order_row w (o_id o)) _
                  (fun _ _ _ => eq_refl) _ _ _ Hloop) as Hk.
    simpl in Hk. by rewrite Hk, Hrow0. }
  assert (logs w' = logs w) as Hlogs.
  { pose proof (reduce_loop_keeps logs _ (fun _ _ _ => eq_refl) _ _ _ Hloop) as Hk.
    congruence. }
  split; [by apply reduce_loop_complaint in Hloop|].
  rewrite Hoid in Hpaid. split; [done|].
  unfold Payment.mark_as_success.
  set (self1 := Payment.with_outcome self PSuccess _ _ _).
  destruct (Payment_save_Some self1 (Payment.cols_success self1) w r)
    as (Hsave & Hprow & _); [done..|].
  set (t := row_put _ _ _) in *.
  exists self1, (World_ (db (with_payments t w'))
                        (logs w' ++ [Log_ Warning "payments" (pay_id self) m])).
  split.
  - rewrite (bind_Ok _ _ _ _ _ Hsave).
    assert (Order.objects_get (pay_order self1) (with_payments t w)
            = (Ok o, with_payments t w)) as Hget.
    { apply Order_objects_get_Some. simpl. by rewrite <- Hoid. }
    unfold bind at 1. unfold try_except.
    rewrite (bind_Ok _ _ _ _ _ Hget).
    unfold bind at 1. rewrite (blind_mark_as_paid o t w), Hfail. simpl. done.
  - split; [done|]. split; [|split; [done|by rewrite Hlogs]].
    pose proof (reduce_loop_keeps (fun w => payments (db w)) _
                  (fun _ _ _ => eq_refl) _ _ _ Hloop) as Hk.
    simpl. unfold payment_row in *. simpl in *. by rewrite Hprow.
Qed.

Lemma stock_failure_is_logged_not_raised_witness :
  let self := Payment_ 1 1 "stripe" "pi_1" 10600 "USD" PPending [] "" None None in
  exists self1 w1,
    Payment.mark_as_success self None 100 shop_short = (Ok self1, w1) /\
    pay_status self1 = PSuccess /\
    pay_status <$> payment_row w1 1 = Some PSuccess /\
    o_status <$> order_row w1 1 = Some OPaid /\
    logs w1 = [Log_ Warning "payments" 1 (InsufficientStock 1 2)].
Proof.
  intros self.
  apply (stock_failure_is_logged_not_raised self None 100 shop_short
           (Order_ 1 7 10600 OPending "") (InsufficientStock 1 2)
           (snd (Order.mark_as_paid (Order_ 1 7 10600 OPending "") shop_short)));
    [by eexists | reflexivity | reflexivity | reflexivity].
Defined.

(** ** Checkout *)

Lemma checkout_failure_restores_database provider u items payment_provider notes w e w' :
  CheckoutService.create_order_and_initiate_payment
    provider u items payment_provider notes w = (Raise e, w') ->
  db w' = db w.
Proof. apply atomic_Raise_db. Qed.

(** *** The strategies

    A strategy call never raises for a refusal: it logs and returns a reply
    that says so.  The database is not touched. *)

Lemma strategy_refused s x e w :
  met s x = Throws e ->
  PaymentContext.create_payment s x w
    = (Ok (refused e), World_ (db w) (logs w ++ refusal_log s CreatePayment x)) /\
  PaymentContext.confirm_payment s x w
    = (Ok (refused e), World_ (db w) (logs w ++ refusal_log s ConfirmPayment x)) /\
  PaymentContext.get_payment_status s x w
    = (Ok (refused e), World_ (db w) (logs w ++ refusal_log s GetPaymentStatus x)) /\
  PaymentContext.refund_payment s x w
    = (Ok (refused e), World_ (db w) (logs w ++ refusal_log s RefundPayment x)).
Proof.
  unfold met, refusal_log, met. destruct s, x as [[t|] [a|e0]]; simpl; intros [= <-];
    repeat split; destruct w as [d l]; cbv -[app]; by rewrite <- ?app_assoc.
Qed.

Lemma strategy_answered s x a w :
  met s x = Responds a ->
  (exists r, PaymentContext.create_payment s x w = (Ok r, w) /\
     r_success r = true /\ r_transaction_id r = a_id a /\
     r_raw_response r = Some (a_raw a) /\
     r_client_secret r = match s with Stripe => a_client_secret a | Bkash => None end /\
     r_bkash_url r = match s with Stripe => None | Bkash => a_bkash_url a end) /\
  (exists r, PaymentContext.confirm_payment s x w = (Ok r, w) /\
     r_success r = true /\ r_raw_response r = Some (a_raw a)) /\
  (a_amount a = None ->
   exists r, PaymentContext.get_payment_status s x w = (Ok r, w) /\
     r_success r = true /\ r_status r = a_status a /\
     r_raw_response r = Some (a_raw a)) /\
  (exists r, PaymentContext.refund_payment s x w = (Ok r, w) /\
     r_success r = true /\ r_refund_id r = a_refund_id a).
Proof.
  unfold met. destruct s, x as [[t|] [a0|e0]]; simpl; intros [= <-];
    (split; [|split; [|split]]); try (eexists; split; [reflexivity|done]);
    intros Hamount;
    try (eexists; split; [reflexivity|done]);
    (eexists; split;
     [ unfold StripePaymentStrategy.get_payment_status,
         BkashPaymentStrategy.get_payment_status, try_except, bind; simpl;
       rewrite Hamount; reflexivity
     | done ]).
Qed.

Lemma strategy_call_keeps_db s x :
  keeps db (PaymentContext.create_payment s x) /\
  keeps db (PaymentContext.confirm_payment s x) /\
  keeps db (PaymentContext.get_payment_status s x) /\
  keeps db (PaymentContext.refund_payment s x).
Proof.
  repeat split; intros [d l] r w';
    destruct s, x as [[t|] [[? ? ? ? ? [e1|] ?]|e0]]; try destruct e1;
    cbv -[app]; by intros [= _ <-].
Qed.

Lemma strategy_success s x w r w' :
  PaymentContext.create_payment s x w = (Ok r, w') \/
  PaymentContext.confirm_payment s x w = (Ok r, w') \/
  PaymentContext.get_payment_status s x w = (Ok r, w') \/
  PaymentContext.refund_payment s x w = (Ok r, w') ->
  r_success r = true ->
  w' = w /\ exists a, met s x = Responds a.
Proof.
  intros H Hok. destruct (met s x) as [a|e] eqn:Hmet.
  - destruct (strategy_answered s x a w Hmet) as ((r1 & H1 & _) & (r2 & H2 & _) & H3 & (r4 & H4 & _)).
    destruct H as [H|[H|[H|H]]].
    + rewrite H1 in H. injection H as <- <-. eauto.
    + rewrite H2 in H. injection H as <- <-. eauto.
    + split; [|eauto]. revert H. unfold met in Hmet. destruct w as [d l].
      destruct s, x as [[t|] [[? ? ? ? ? [e1|] ?]|e0]]; try destruct e1;
        simpl in *; try discriminate; cbv -[app];
        try (by intros [= _ <-]); try discriminate;
        intros [= <- _]; discriminate.
    + rewrite H4 in H. injection H as <- <-. eauto.
  - destruct (strategy_refused s x e w Hmet) as (H1 & H2 & H3 & H4).
    destruct H as [H|[H|[H|H]]]; [rewrite H1 in H|rewrite H2 in H|rewrite H3 in H|rewrite H4 in H];
      injection H as <- _; discriminate.
Qed.

Lemma checkout_needs_provider_success provider u items payment_provider notes w c w' :
  CheckoutService.create_order_and_initiate_payment
    provider u items payment_provider notes w = (Ok c, w') ->
  exists s o amount currency a, met s (provider s o amount currency) = Responds a.
Proof.
  unfold CheckoutService.create_order_and_initiate_payment, atomic. intros H.
  destruct (bind _ _ w) as [[c0|e] w0] eqn:Hbody in H; [|discriminate].
  clear H. apply bind_inv_Ok in Hbody as (errs & w1 & _ & H).
  destruct errs as [|err errs]; [|discriminate].
  apply bind_inv_Ok in H as (o & w2 & _ & H).
  apply bind_inv_Ok in H as (verdict & w3 & _ & H).
  destruct (negb (fst verdict)); [discriminate|].
  unfold try_except in H.
  destruct (bind (get_payment_strategy payment_provider) _ w3) as [[c1|e] w4] eqn:Htry.
  - apply bind_inv_Ok in Htry as (s & w5 & _ & Htry).
    apply bind_inv_Ok in Htry as (result & w6 & Hcall & Htry).
    destruct (r_success result) eqn:Hok; [|discriminate].
    destruct (strategy_success _ _ _ _ _ (or_introl Hcall) Hok) as (_ & a & Ha).
    by eexists _, _, _, _, _.
  - simpl in H. unfold bind, logger, raise in H. discriminate.
Qed.

(** C1, on the code.  The whole checkout is one [transaction.atomic] and
    reports a provider failure by raising.  So when the provider declines,
    the checkout fails and the database is the one it started from: the order
    that step 2 created is not there any more. *)
Theorem checkout_provider_failure_discards_order
    (provider : strategy -> order -> Z -> string -> provider_api)
    (u : user) (items : list item_data) (payment_provider notes : string)
    (w : world) (res : result checkout_result) (w' : world) :
  (forall s o amount currency, exists e, met s (provider s o amount currency) = Throws e) ->
  CheckoutService.create_order_and_initiate_payment
    provider u items payment_provider notes w = (res, w') ->
  (exists e, res = Raise e) /\ db w' = db w.
Proof.
  intros Hdeclines H. destruct res as [c|e].
  - apply checkout_needs_provider_success in H as (s & o & a & cur & obj & Hok).
    destruct (Hdeclines s o a cur) as [e He]. rewrite He in Hok. discriminate.
  - split; [by eexists|]. by apply checkout_failure_restores_database in H.
Qed.

(** alice checks out two units of product 1 with a provider that declines.
    Creating that order on its own succeeds and stores it pending; the
    checkout answers 400 and leaves no order, no line and no payment. *)
Lemma checkout_provider_failure_discards_order_witness :
  (exists o w1,
     OrderService.create_order alice [Item_ 1 2] "" shop = (Ok o, w1) /\
     order_row w1 (o_id o) = Some o /\ o_status o = OPending) /\
  let w' := snd (checkout_view declining alice [Item_ 1 2] "stripe" "" shop) in
  fst (checkout_view declining alice [Item_ 1 2] "stripe" "" shop) =
    Ok (Response_ 400
          (BodyError (PaymentInitiationFailed
             (PaymentInitiationFailed (ProviderError (Some "card declined")))))) /\
  db w' = db shop /\
  orders (db w') = [] /\ order_items (db w') = [] /\ payments (db w') = [].
Proof.
  split.
  - eexists _, _. split; [reflexivity|]. split; reflexivity.
  - intros w'. split; [reflexivity|].
    destruct (checkout_provider_failure_discards_order declining alice [Item_ 1 2]
                "stripe" "" shop
                (fst (CheckoutService.create_order_and_initiate_payment
                        declining alice [Item_ 1 2] "stripe" "" shop))
                (snd (CheckoutService.create_order_and_initiate_payment
                        declining alice [Item_ 1 2] "stripe" "" shop)))
      as [_ Hdb];
      [by intros [] ? ? ?; exists "card declined"%string | apply surjective_pairing |].
    split; [|by repeat split].
    transitivity (db (snd (CheckoutService.create_order_and_initiate_payment
                             declining alice [Item_ 1 2] "stripe" "" shop)));
      [reflexivity | exact Hdb].
Defined.

(** ** Reconciliation: confirm, poll, refund, webhook *)

Lemma keeps_logger {B} (f : world -> B) lv name about m :
  (forall d l l', f (World_ d l) = f (World_ d l')) -> keeps f (logger lv name about m).
Proof. intros Hf [d l] r w' [= _ <-]. apply Hf. Qed.

Lemma Payment_objects_get_Some sel w p :
  find sel (payments (db w)) = Some p -> Payment.objects_get sel w = (Ok p, w).
Proof. unfold Payment.objects_get, bind, read. by intros ->. Qed.

Lemma permission_denied_pure u p w r w' :
  permission_denied u p w = (r, w') -> w' = w.
Proof.
  intros H. eapply (keeps_bind (fun w => w)) in H; [exact H | |auto with keeps].
  unfold Order.objects_get. keeps_steps.
Qed.

Lemma get_payment_strategy_pure name w r w' :
  get_payment_strategy name w = (r, w') -> w' = w.
Proof.
  unfold get_payment_strategy. repeat case_bool_decide; by intros [= _ <-].
Qed.

Lemma reduce_loop_raises its w e w' :
  for_each its reduce_item w = (Raise e, w') -> e <> PaymentDoesNotExist.
Proof.
  revert w. induction its as [|item its IH]; intros w; simpl; [discriminate|].
  unfold bind at 1. destruct (reduce_item item w) as [[[]|e0] w2] eqn:Hitem; [apply IH|].
  intros [= <- _]. unfold reduce_item in Hitem. unfold bind at 1 in Hitem.
  destruct (Product.objects_get _ w) as [[p|e1] w3] eqn:Hget.
  2: { injection Hitem as <- _. unfold Product.objects_get, bind, read in Hget.
       destruct (row_get _ _ _); simpl in Hget; [discriminate|]. by injection Hget as <- _. }
  unfold bind at 1 in Hitem. unfold Product.reduce_stock in Hitem.
  case_bool_decide; [by injection Hitem as <- _|].
  case_bool_decide; [by injection Hitem as <- _|].
  unfold bind at 1 in Hitem. unfold Product.save, bind, read, write in Hitem.
  destruct (row_get _ _ _); simpl in Hitem; [discriminate|]. by injection Hitem as <- _.
Qed.

(** [mark_as_paid] never raises [PaymentDoesNotExist]. *)
Lemma Order_mark_as_paid_raises o w e w' :
  Order.mark_as_paid o w = (Raise e, w') -> e <> PaymentDoesNotExist.
Proof.
  unfold Order.mark_as_paid. case_bool_decide; [by intros [= <- _]|].
  unfold bind at 1. destruct (Order.save _ _ w) as [[[]|e0] w0] eqn:Hs.
  2: { intros [= <- _]. unfold Order.save, bind, read, write in Hs.
       destruct (row_get _ _ _); simpl in Hs; [discriminate|]. by injection Hs as <- _. }
  rewrite (bind_Ok _ _ _ _ _ (Order_items_run _ w0)).
  unfold bind at 1. fold reduce_item.
  destruct (for_each _ reduce_item w0) as [[[]|e1] w1] eqn:Hloop; [discriminate|].
  intros [= <- _]. by apply reduce_loop_raises in Hloop.
Qed.

Lemma mark_as_success_raises self data now w e w' :
  Payment.mark_as_success self data now w = (Raise e, w') -> e <> PaymentDoesNotExist.
Proof.
  unfold Payment.mark_as_success. unfold bind at 1.
  destruct (Payment.save _ _ w) as [[[]|e0] w0] eqn:Hs.
  2: { intros [= <- _]. unfold Payment.save, bind, read, write in Hs.
       destruct (row_get _ _ _); simpl in Hs; [discriminate|]. by injection Hs as <- _. }
  unfold bind at 1. unfold try_except.
  destruct (bind (Order.objects_get _) _ w0) as [[[]|e1] w2] eqn:Hb; [discriminate|].
  destruct (is_ValueError e1) eqn:Hv; [discriminate|].
  intros [= <- _]. unfold bind at 1 in Hb.
  destruct (Order.objects_get _ w0) as [[o|e2] w3] eqn:Hg.
  - unfold bind at 1 in Hb.
    destruct (Order.mark_as_paid o w3) as [[o'|e3] w4] eqn:Hm; [discriminate|].
    injection Hb as <- _. by apply Order_mark_as_paid_raises in Hm.
  - injection Hb as <- _. unfold Order.objects_get, bind, read in Hg.
    destruct (row_get _ _ _); simpl in Hg; [discriminate|]. by injection Hg as <- _.
Qed.

(** Whatever happens to the order, [mark_as_success] has stored the status,
    the completion time and the payload on the payment row. *)
Lemma mark_as_success_stores self data now w r res w' :
  payment_row w (pay_id self) = Some r ->
  Payment.mark_as_success self data now w = (res, w') ->
  let self1 := Payment.with_outcome self PSuccess (pay_error_message self) (Some now)
                                    (Payment.raw_after self data) in
  payment_row w' (pay_id self) = Some (Payment.cols_success self1 r).
Proof.
  intros Hr H self1. unfold Payment.mark_as_success in H. fold self1 in H.
  destruct (Payment_save_Some self1 (Payment.cols_success self1) w r)
    as (Hsave & Hrow & _); [done..|].
  rewrite (bind_Ok _ _ _ _ _ Hsave) in H.
  eapply (keeps_bind (fun w => payment_row w (pay_id self))) in H.
  - simpl in H. rewrite H. exact Hrow.
  - unfold Order.objects_get. keeps_steps.
    + by apply Order_mark_as_paid_keeps.
    + by apply keeps_logger.
  - auto with keeps.
Qed.

Lemma mark_as_failed_run self msg data now w r :
  payment_row w (pay_id self) = Some r ->
  let self1 := Payment.with_outcome self PFailed msg (Some now)
                                    (Payment.raw_after self data) in
  let w1 := with_payments (row_put pay_id (Payment.cols_failed self1 r) (payments (db w))) w in
  Payment.mark_as_failed self msg data now w = (Ok self1, w1) /\
  payment_row w1 (pay_id self) = Some (Payment.cols_failed self1 r) /\
  forall k, k <> pay_id self -> payment_row w1 k = payment_row w k.
Proof.
  intros Hr self1 w1.
  destruct (Payment_save_Some self1 (Payment.cols_failed self1) w r)
    as (Hsave & Hrow & Hother); [done..|].
  split; [|done]. unfold Payment.mark_as_failed. fold self1.
  by rewrite (bind_Ok _ _ _ _ _ Hsave).
Qed.

(** What a [payment_intent.succeeded] event does to the payment it names. *)
Lemma success_webhook_run
    (data : event_object) (now : Z) (w : world) (p : payment) (res : result response)
    (w' : world) :
  find (Payment.by_transaction_id (d_id data)) (payments (db w)) = Some p ->
  payment_row w (pay_id p) = Some p ->
  stripe_webhook_view (Event "payment_intent.succeeded" data) now w = (res, w') ->
  pay_status <$> payment_row w' (pay_id p) = Some PSuccess /\
  pay_completed_at <$> payment_row w' (pay_id p) = Some (Some now) /\
  (d_json data <> [] ->
   pay_raw_response <$> payment_row w' (pay_id p) = Some (d_json data)).
Proof.
  intros Hfind Hrow H. unfold stripe_webhook_view in H. simpl in H.
  unfold bind at 1 in H. unfold ret at 1 in H. simpl in H.
  unfold bind at 1 in H. unfold try_except at 1 in H.
  rewrite (bind_Ok _ _ _ _ _ (Payment_objects_get_Some _ _ _ Hfind)) in H.
  unfold bind at 1 in H.
  destruct (Payment.mark_as_success p _ now w) as [[p1|e] w1] eqn:Hmark.
  - pose proof (mark_as_success_stores _ _ _ _ _ _ _ Hrow Hmark) as Hst.
    simpl in H. injection H as _ <-. rewrite Hst. simpl.
    split; [done|]. split; [done|]. intros Hne.
    destruct (d_json data); done.
  - pose proof (mark_as_success_stores _ _ _ _ _ _ _ Hrow Hmark) as Hst.
    assert (w' = w1) as ->.
    { apply mark_as_success_raises in Hmark.
      destruct e; simpl in H; try done; by injection H as _ <-. }
    rewrite Hst. simpl. split; [done|]. split; [done|]. intros Hne.
    destruct (d_json data); done.
Qed.

(** C2, on the code.  The Stripe webhook marks the payment successful without
    looking at its status.  Whatever the stored payment was, and whatever
    becomes of the order, a [payment_intent.succeeded] event received at
    time [now] leaves the payment row with completion time [now] and, when
    the event carries data, with that data as raw response. *)
Theorem success_webhook_overwrites_completed_at
    (data : event_object) (now : Z) (w : world) (p : payment) (res : result response)
    (w' : world) :
  find (Payment.by_transaction_id (d_id data)) (payments (db w)) = Some p ->
  payment_row w (pay_id p) = Some p ->
  stripe_webhook_view (Event "payment_intent.succeeded" data) now w = (res, w') ->
  pay_status <$> payment_row w' (pay_id p) = Some PSuccess /\
  pay_completed_at <$> payment_row w' (pay_id p) = Some (Some now) /\
  (d_json data <> [] ->
   pay_raw_response <$> payment_row w' (pay_id p) = Some (d_json data)).
Proof. apply success_webhook_run. Qed.

(** The payment of [shop_paid] was completed at time 100; the same
    [payment_intent.succeeded] event delivered again at time 200 moves the
    completion time to 200 and replaces the raw response, while the status
    poll, which looks at the status first, changes nothing. *)
Lemma success_webhook_overwrites_completed_at_witness :
  pay_completed_at <$> payment_row shop_paid 1 = Some (Some 100) /\
  (exists resp,
     payment_status_view reporting_succeeded alice "pi_1" 200 shop_paid
       = (Ok resp, shop_paid)) /\
  let w' := snd (stripe_webhook_view succeeded_again 200 shop_paid) in
  fst (stripe_webhook_view succeeded_again 200 shop_paid) = Ok (Response_ 200 BodyEmpty) /\
  pay_status <$> payment_row w' 1 = Some PSuccess /\
  pay_completed_at <$> payment_row w' 1 = Some (Some 200) /\
  pay_raw_response <$> payment_row w' 1
    = Some [("id", "pi_1"); ("status", "succeeded"); ("delivery", "2")].
Proof.
  split; [reflexivity|]. split; [eexists; reflexivity|].
  intros w'. split; [reflexivity|].
  destruct (success_webhook_overwrites_completed_at
              (Event_ [("id", "pi_1"); ("status", "succeeded"); ("delivery", "2")]
                      (Some "pi_1") Missing)
              200 shop_paid
              (Payment_ 1 1 "stripe" "pi_1" 10600 "USD" PSuccess
                        [("id", "pi_1"); ("status", "succeeded")] "" None (Some 100))
              (fst (stripe_webhook_view succeeded_again 200 shop_paid)) w')
    as (Hst & Hat & Hraw); [reflexivity.. |].
  split; [exact Hst|]. split; [exact Hat|]. apply Hraw. discriminate.
Defined.

Lemma find_by_id (k : Z) (t : list payment) :
  find (Payment.by_id k) t = row_get pay_id k t.
Proof.
  induction t as [|x t IH]; simpl; [done|].
  unfold Payment.by_id at 1. by case_bool_decide.
Qed.

(** The status poll for a stored payment whose provider call is answered,
    up to the comparison of the statuses. *)
Lemma poll_answered api u p s a now w :
  find (Payment.by_transaction_id (Some (pay_transaction_id p))) (payments (db w)) = Some p ->
  permission_denied u p w = (Ok false, w) ->
  get_payment_strategy (pay_provider p) w = (Ok s, w) ->
  met s (api s) = Responds a -> a_amount a = None ->
  payment_status_view api u (pay_transaction_id p) now w =
    try_except
      (match a_status a with
       | None => raise AttributeError
       | Some status =>
           payment <-
             (if reports_success (lower status) then
                if bool_decide (pay_status p <> PSuccess)
                then Payment.mark_as_success p (Some (a_raw a)) now
                else ret p
              else if reports_failure (lower status) then
                if negb (bool_decide (pay_status p = PFailed) ||
                         bool_decide (pay_status p = PCancelled))
                then Payment.mark_as_failed p "" (Some (a_raw a)) now
                else ret p
              else ret p) ;;
           ret (Response_ 200 (BodyPayment payment))
       end)
      is_PaymentDoesNotExist
      (fun _ => ret (Response_ 404 (BodyText "Payment not found"))) w.
Proof.
  intros Htx Hperm Hs Hmet Hamount.
  destruct (strategy_answered s (api s) a w Hmet)
    as (_ & _ & Hstatus & _).
  destruct (Hstatus Hamount) as (r & Hcall & Hok & Hst & Hraw).
  unfold payment_status_view, try_except.
  rewrite (bind_Ok _ _ _ _ _ (Payment_objects_get_Some _ _ _ Htx)).
  rewrite (bind_Ok _ _ _ _ _ Hperm), (bind_Ok _ _ _ _ _ Hs), (bind_Ok _ _ _ _ _ Hcall).
  by rewrite Hok, Hst, Hraw.
Qed.

(** The status poll for a stored payment whose provider call is refused. *)
Lemma poll_refused api u p s e now w :
  find (Payment.by_transaction_id (Some (pay_transaction_id p))) (payments (db w)) = Some p ->
  permission_denied u p w = (Ok false, w) ->
  get_payment_strategy (pay_provider p) w = (Ok s, w) ->
  met s (api s) = Throws e ->
  payment_status_view api u (pay_transaction_id p) now w =
    (Ok (Response_ 400 (BodyText e)),
     World_ (db w) (logs w ++ refusal_log s GetPaymentStatus (api s))).
Proof.
  intros Htx Hperm Hs Hmet.
  destruct (strategy_refused s (api s) e w Hmet) as (_ & _ & Hcall & _).
  unfold payment_status_view, try_except.
  rewrite (bind_Ok _ _ _ _ _ (Payment_objects_get_Some _ _ _ Htx)).
  rewrite (bind_Ok _ _ _ _ _ Hperm), (bind_Ok _ _ _ _ _ Hs), (bind_Ok _ _ _ _ _ Hcall).
  done.
Qed.

(** C5, on the code.  A stored payment in status [PFailed], [PCancelled] or
    [PRefunded] is left exactly as it is, with the whole world, by a user
    confirm and by a refund.  The status poll and the Stripe webhook do not
    look for these states.  A poll by a permitted user to which the provider
    answers with a success word stores the payment as [PSuccess] with a new
    completion time; a poll to which it answers with a failure word stores a
    refunded payment as [PFailed]; and a [payment_intent.succeeded] event
    stores the payment as [PSuccess], whatever becomes of the order. *)
Theorem settled_payments_are_moved_again (p : payment) (w : world) :
  pay_status p = PFailed \/ pay_status p = PCancelled \/ pay_status p = PRefunded ->
  find (Payment.by_transaction_id (Some (pay_transaction_id p))) (payments (db w)) = Some p ->
  find (Payment.by_id (pay_id p)) (payments (db w)) = Some p ->
  (forall api request_user t now res w',
     PaymentConfirmSerializer.is_valid t = Some (pay_transaction_id p) ->
     confirm_payment_view api request_user t now w = (res, w') ->
     w' = w) /\
  (forall api request_user amount reason res w',
     refund_payment_view api request_user (pay_id p) amount reason w = (res, w') ->
     w' = w) /\
  (forall api request_user now s a status res w',
     permission_denied request_user p w = (Ok false, w) ->
     get_payment_strategy (pay_provider p) w = (Ok s, w) ->
     met s (api s) = Responds a -> a_amount a = None ->
     a_status a = Some status -> reports_success (lower status) = true ->
     payment_status_view api request_user (pay_transaction_id p) now w = (res, w') ->
     pay_status <$> payment_row w' (pay_id p) = Some PSuccess /\
     pay_completed_at <$> payment_row w' (pay_id p) = Some (Some now)) /\
  (forall api request_user now s a status,
     pay_status p = PRefunded ->
     permission_denied request_user p w = (Ok false, w) ->
     get_payment_strategy (pay_provider p) w = (Ok s, w) ->
     met s (api s) = Responds a -> a_amount a = None ->
     a_status a = Some status ->
     reports_success (lower status) = false -> reports_failure (lower status) = true ->
     exists p1 w1,
       payment_status_view api request_user (pay_transaction_id p) now w
         = (Ok (Response_ 200 (BodyPayment p1)), w1) /\
       payment_row w1 (pay_id p) = Some p1 /\
       pay_status p1 = PFailed /\ pay_completed_at p1 = Some now) /\
  (forall data now res w',
     d_id data = Some (pay_transaction_id p) ->
     stripe_webhook_view (Event "payment_intent.succeeded" data) now w = (res, w') ->
     pay_status <$> payment_row w' (pay_id p) = Some PSuccess /\
     pay_completed_at <$> payment_row w' (pay_id p) = Some (Some now)).
Proof.
  intros Hst Htx Hid. pose proof Hid as Hrow. rewrite find_by_id in Hrow.
  split; [|split; [|split; [|split]]].
  - intros api u t now res w' Ht. unfold confirm_payment_view. rewrite Ht.
    unfold try_except.
    rewrite (bind_Ok _ _ _ _ _ (Payment_objects_get_Some _ _ _ Htx)).
    unfold bind at 1.
    destruct (permission_denied u p w) as [[denied|e] w0] eqn:Hperm;
      apply permission_denied_pure in Hperm as ->.
    + destruct denied; [by intros [= _ <-]|].
      unfold Payment.is_pending. rewrite bool_decide_false; [by intros [= _ <-]|].
      destruct Hst as [->|[->| ->]]; discriminate.
    + destruct (is_PaymentDoesNotExist e); by intros [= _ <-].
  - intros api u amount reason res w'. unfold refund_payment_view.
    destruct (negb (has_admin_privileges u)); [by intros [= _ <-]|].
    destruct (PaymentRefundSerializer.is_valid amount reason) as [[amount' reason']|];
      [|by intros [= _ <-]].
    unfold bind at 1. unfold read at 1. rewrite Hid.
    unfold Payment.can_be_refunded. rewrite bool_decide_false; [by intros [= _ <-]|].
    destruct Hst as [->|[->| ->]]; discriminate.
  - intros api u now s a status res w' Hperm Hs Hmet Hamount Hstatus Hrep.
    rewrite (poll_answered api u p s a now w Htx Hperm Hs Hmet Hamount), Hstatus, Hrep.
    rewrite bool_decide_true by (destruct Hst as [->|[->| ->]]; discriminate).
    unfold try_except, bind at 1.
    destruct (Payment.mark_as_success p _ now w) as [[p1|e] w1] eqn:Hmark;
      pose proof (mark_as_success_stores _ _ _ _ _ _ _ Hrow Hmark) as Hstored.
    + intros [= _ <-]. by rewrite Hstored.
    + apply mark_as_success_raises in Hmark.
      destruct e; try done; intros [= _ <-]; by rewrite Hstored.
  - intros api u now s a status Hrefunded Hperm Hs Hmet Hamount Hstatus Hnot Hrep.
    rewrite (poll_answered api u p s a now w Htx Hperm Hs Hmet Hamount), Hstatus, Hnot, Hrep.
    rewrite !bool_decide_false by (rewrite Hrefunded; discriminate). simpl.
    destruct (mark_as_failed_run p "" (Some (a_raw a)) now w p Hrow) as (Hrun & Hprow & _).
    unfold try_except. rewrite (bind_Ok _ _ _ _ _ Hrun).
    eexists _, _. split; [reflexivity|]. split; [|done]. by rewrite Hprow.
  - intros data now res w' Hdata H.
    destruct (success_webhook_run data now w p res w') as [? [? _]]; try done.
    by rewrite Hdata.
Qed.

(** The payment of [shop_refunded] was refunded.  Stripe still reports the
    payment intent as succeeded, so the next status poll stores the payment
    as a success again, which the refund view accepts for another refund. *)
Lemma settled_payments_are_moved_again_witness :
  let p := Payment_ 1 1 "stripe" "pi_1" 10600 "USD" PRefunded
                    [("id", "pi_1"); ("status", "succeeded")] ""
                    (Some (Refund_ (Some "re_1") 10600 "customer request")) (Some 100) in
  let w' := snd (payment_status_view reporting_succeeded alice "pi_1" 200 shop_refunded) in
  payment_row shop_refunded 1 = Some p /\
  pay_status <$> payment_row w' 1 = Some PSuccess /\
  pay_completed_at <$> payment_row w' 1 = Some (Some 200) /\
  Payment.can_be_refunded <$> payment_row w' 1 = Some true.
Proof.
  intros p w'. split; [reflexivity|].
  destruct (settled_payments_are_moved_again p shop_refunded)
    as (_ & _ & Hpoll & _); [by right; right | reflexivity | reflexivity |].
  destruct (Hpoll reporting_succeeded alice 200 Stripe
              (Object_ (Some "pi_1") (Some "succeeded") None None None None
                       [("id", "pi_1"); ("status", "succeeded")])
              "succeeded"%string
              (fst (payment_status_view reporting_succeeded alice "pi_1" 200 shop_refunded))
              w') as [Hstatus Hat];
    [reflexivity | reflexivity | reflexivity | reflexivity | reflexivity | reflexivity
    | apply surjective_pairing |].
  split; [exact Hstatus|]. split; [exact Hat|]. reflexivity.
Defined.

(** ** [create_order] succeeds on an acceptable request *)

Lemma row_get_fresh (t : list order_item) (k : Z) :
  Forall (fun line => i_id line < k) t -> row_get i_id k t = None.
Proof.
  induction 1 as [|x t Hx _ IH]; simpl; [done|].
  rewrite bool_decide_false by lia. exact IH.
Qed.

Lemma subtotals_app (its : list order_item) (line : order_item) :
  subtotals (its ++ [line]) = subtotals its + i_subtotal line.
Proof. unfold subtotals. by rewrite fold_left_app. Qed.

Lemma items_of_app w w1 line :
  order_items (db w1) = order_items (db w) ++ [line] ->
  items_of w1 (i_order line) = items_of w (i_order line) ++ [line].
Proof.
  intros Hi. unfold items_of. rewrite Hi, filter_app, filter_cons_True by done. done.
Qed.

Lemma OrderItem_create_run o p q price w r :
  let price' := match price with
                | Some v => if bool_decide (v = 0) then p_price p else v
                | None => p_price p
                end in
  order_row w (o_id o) = Some r ->
  is_Some (product_row w (p_id p)) ->
  Forall (fun line => i_id line < item_seq (db w)) (order_items (db w)) ->
  Forall (fun line => ~ (i_order line = o_id o /\ i_product line = p_id p))
         (order_items (db w)) ->
  fits price' = true -> fits (q * price') = true ->
  (o_id o <> 0 -> fits (subtotals (items_of w (o_id o)) + q * price') = true) ->
  exists line o1 w1,
    OrderItem.objects_create o p q price w = (Ok (line, o1), w1) /\
    item_seq (db w1) = item_seq (db w) + 1.
Proof.
  intros price' Hr Hp Hfresh Huniq Hprice Hsub Htotal.
  unfold OrderItem.objects_create. fold price'.
  rewrite (bind_Ok _ _ _ _ _ (decimal_column_fits _ w Hprice)).
  rewrite (bind_Ok _ _ _ _ _ (decimal_column_fits _ w Hsub)).
  unfold bind at 1. unfold read at 1. unfold bind at 1. unfold read at 1.
  assert (forallb (fun i => negb (bool_decide (i_order i = o_id o) &&
                                  bool_decide (i_product i = p_id p)))
                  (order_items (db w)) = true) as Hu.
  { apply forallb_forall. intros line Hin. rewrite Forall_forall in Huniq.
    specialize (Huniq line (proj2 (list_elem_of_In _ _) Hin)).
    apply negb_true_iff. apply andb_false_iff.
    destruct (decide (i_order line = o_id o)) as [Ho|Ho];
      [right | left]; apply bool_decide_eq_false; tauto. }
  rewrite Hu. unfold order_row, product_row in *.
  rewrite (bool_decide_true (is_Some (row_get o_id _ _))) by (rewrite Hr; eauto).
  rewrite (bool_decide_true (is_Some (row_get p_id _ _))) by done.
  rewrite (bool_decide_true (row_get i_id _ _ = None)) by (by apply row_get_fresh).
  simpl.
  set (line := OrderItem_ _ _ _ _ _ _).
  unfold bind at 1. unfold write at 1.
  set (w0 := World_ _ _).
  case_bool_decide as Hz.
  - destruct (recalculate_and_save_Some o w0 r) as (w2 & Hrun & _); [exact Hr| |].
    { rewrite (items_of_app w w0 line eq_refl : items_of w0 (o_id o) = _).
      rewrite subtotals_app. by apply Htotal. }
    eexists line, _, w2. rewrite (bind_Ok _ _ _ _ _ Hrun). split; [done|].
    eapply (recalculate_and_save_keeps (fun w => item_seq (db w))) in Hrun; [|done].
    by rewrite Hrun.
  - eexists line, o, w0. done.
Qed.

(** What [create_order] has stored for order [o] so far decides whether the
    next items fit. *)
Lemma add_item_run item o w r p :
  row_get p_id (product_id item) (products (db w)) = Some p ->
  item_valid (db w) item = true ->
  order_row w (o_id o) = Some r ->
  Forall (fun line => i_id line < item_seq (db w)) (order_items (db w)) ->
  Forall (fun line => ~ (i_order line = o_id o /\ i_product line = product_id item))
         (order_items (db w)) ->
  fits (p_price p) = true -> fits (quantity item * p_price p) = true ->
  fits (subtotals (items_of w (o_id o)) + quantity item * p_price p) = true ->
  exists o1 w1,
    OrderService.add_item item o w = (Ok o1, w1) /\
    item_seq (db w1) = item_seq (db w) + 1.
Proof.
  intros Hp Hvalid Hr Hfresh Huniq Hprice Hsub Htotal. unfold item_valid in Hvalid.
  rewrite Hp in Hvalid.
  apply andb_prop in Hvalid as [Hav Hstock]. apply bool_decide_eq_true in Hstock.
  pose proof (row_get_key _ _ _ _ Hp) as Hpid.
  assert ((if bool_decide (p_price p = 0) then p_price p else p_price p) = p_price p)
    as Hsame by (by case_bool_decide).
  destruct (OrderItem_create_run o p (quantity item) (Some (p_price p)) w r)
    as (line & o1 & w1 & Hc & Hseq);
    [done | | done | by rewrite Hpid | (by rewrite Hsame).. | ].
  { unfold product_row. rewrite Hpid, Hp. eauto. }
  exists o1, w1. split; [|done].
  unfold OrderService.add_item, try_except.
  rewrite (bind_Ok _ _ _ _ _ (Product_objects_get_Some _ _ _ Hp)).
  rewrite Hav. simpl. rewrite bool_decide_false by lia.
  by rewrite (bind_Ok _ _ _ _ _ Hc).
Qed.

(** The line [add_item] appends carries the key the sequence held. *)
Lemma OrderItem_create_id item o w o1 w1 :
  OrderService.add_item item o w = (Ok o1, w1) ->
  exists line, order_items (db w1) = order_items (db w) ++ [line] /\
               i_id line = item_seq (db w).
Proof.
  unfold OrderService.add_item, try_except. intros H.
  destruct (bind _ _ w) as [[o2|e] w2] eqn:Hbody.
  2: { destruct (is_ProductDoesNotExist e); discriminate. }
  injection H as -> ->.
  apply bind_inv_Ok in Hbody as (p & w0 & Hget & H).
  apply Product_objects_get_inv in Hget as [-> Hp].
  destruct (Product.is_available p); simpl in H; [|discriminate].
  case_bool_decide; [discriminate|].
  apply bind_inv_Ok in H as ([line o2] & w2 & Hc & Hret). injection Hret as <- <-.
  apply OrderItem_create_Ok in Hc as (-> & Hi & _).
  eexists. split; [exact Hi | done].
Qed.

(** The subtotal of the line stored for an item. *)
Lemma line_of_subtotal d k item line p :
  line_of d k item line ->
  row_get p_id (product_id item) (products d) = Some p ->
  i_order line = k /\ i_subtotal line = quantity item * p_price p.
Proof.
  intros (Ho & _ & Hq & Hprice & Hsub) Hp. rewrite Hp in Hprice.
  injection Hprice as Hprice. split; [done|]. by rewrite Hsub, Hq, Hprice.
Qed.

Lemma add_items_run items : forall o w r,
  Forall (fun item => item_valid (db w) item = true) items ->
  NoDup (map product_id items) ->
  order_row w (o_id o) = Some r ->
  Forall (fun line => i_id line < item_seq (db w)) (order_items (db w)) ->
  Forall (fun line => i_order line = o_id o -> i_product line ∉ map product_id items)
         (order_items (db w)) ->
  storable (db w) items (subtotals (items_of w (o_id o))) = true ->
  exists o1 w1, for_each_with items o OrderService.add_item w = (Ok o1, w1).
Proof.
  induction items as [|item items IH];
    intros o w r Hvalid Hnodup Hr Hfresh Huniq Hfit; simpl.
  - by exists o, w.
  - inversion Hvalid as [|? ? Hv Hvs]; subst.
    apply NoDup_cons in Hnodup as [Hnotin Hnodup].
    simpl in Hfit.
    destruct (row_get p_id (product_id item) (products (db w))) as [p|] eqn:Hp;
      [|discriminate].
    apply andb_prop in Hfit as [Hfit Hrest]. apply andb_prop in Hfit as [Hfit Htotal].
    apply andb_prop in Hfit as [Hprice Hsub].
    destruct (add_item_run item o w r p) as (o0 & w0 & Hadd & Hseq);
      [done | done | done | done | | done | done | done |].
    { eapply Forall_impl; [exact Huniq|]. intros line Hl [Ho Hpl]. apply (Hl Ho).
      rewrite Hpl. simpl. apply list_elem_of_here. }
    pose proof (add_item_keeps_products item o _ _ _ Hadd) as Hp0. simpl in Hp0.
    pose proof Hadd as Hinv.
    apply add_item_Ok in Hinv
      as (_ & line & Hline & Hi0 & _ & _ & Hid0 & _ & r0 & Hr0 & Hnz & Hz).
    assert (exists r1, order_row w0 (o_id o0) = Some r1) as [r1 Hr1].
    { rewrite Hid0. destruct (decide (o_id o = 0)) as [E|E];
        [destruct (Hz E) as [_ ->] | destruct (Hnz E) as [_ ->]]; eauto. }
    destruct (line_of_subtotal _ _ _ _ _ Hline Hp) as [Hlo Hls].
    destruct (IH o0 w0 r1) as (o1 & w1 & Hloop); [| done | done | | | |].
    + eapply Forall_impl; [exact Hvs|]. intros it Hit. simpl in *.
      by rewrite (item_valid_products _ _ it Hp0).
    + rewrite Hi0, Hseq. apply Forall_app. split.
      * eapply Forall_impl; [exact Hfresh|]. intros l ?. simpl in *. lia.
      * apply OrderItem_create_id in Hadd as (line' & Hi' & Hk).
        rewrite Hi0 in Hi'. apply app_inj_tail in Hi' as [_ <-].
        constructor; [lia | constructor].
    + rewrite Hi0, Hid0. apply Forall_app. split.
      * eapply Forall_impl; [exact Huniq|]. intros l Hl Ho Hin. apply (Hl Ho).
        simpl. by apply list_elem_of_further.
      * constructor; [|constructor]. intros _.
        destruct Hline as (_ & -> & _). exact Hnotin.
    + rewrite Hid0, <- Hlo, (items_of_app w w0 line Hi0), subtotals_app, Hlo, Hls.
      clear -Hrest Hp0. revert Hrest. generalize (subtotals (items_of w (o_id o)) +
        quantity item * p_price p). induction items as [|it its IHs]; intros t; simpl; [done|].
      rewrite Hp0. destruct (row_get _ _ _); [|done].
      intros [Hh Ht]%andb_prop. rewrite Hh. simpl. by apply IHs.
    + exists o1, w1. by rewrite (bind_Ok _ _ _ _ _ Hadd).
Qed.

Lemma Order_objects_create_run uid total notes w :
  fits total = true ->
  row_get o_id (order_seq (db w)) (orders (db w)) = None ->
  exists o w', Order.objects_create uid total notes w = (Ok o, w') /\
               item_seq (db w') = item_seq (db w).
Proof.
  intros Hfits Hfree. unfold Order.objects_create.
  rewrite (bind_Ok _ _ _ _ _ (decimal_column_fits _ w Hfits)).
  unfold bind, read, write, ret. simpl.
  rewrite Hfree. by eexists _, _.
Qed.

Lemma create_order_run u items notes w :
  consistent (db w) -> acceptable (db w) items -> storable (db w) items 0 = true ->
  exists o w', OrderService.create_order u items notes w = (Ok o, w').
Proof.
  intros (Hfk & Hfree & _ & Hfresh) (Hne & Hvalid & Hnodup) Hfit.
  destruct (Order_objects_create_run (u_id u) 0 notes w eq_refl Hfree)
    as (o0 & w0 & Hcreate & Hseq0).
  pose proof Hcreate as Hinv.
  apply Order_objects_create_Ok in Hinv
    as (Ho0 & Hfree0 & Hrow0 & _ & Hp0 & Hi0 & _ & _).
  assert (items_of w0 (o_id o0) = []) as Hnone.
  { unfold items_of. rewrite Hi0. destruct w as [d l].
    by apply (items_of_unknown_order d l). }
  destruct (add_items_run items o0 w0 o0) as (o1 & w1 & Hloop); [| done | done | | | |].
  { eapply Forall_impl; [exact Hvalid|]. intros it Hit. simpl in *.
    by rewrite (item_valid_products _ _ it Hp0). }
  { by rewrite Hi0, Hseq0. }
  { rewrite Hi0. unfold lines_have_orders in Hfk.
    eapply Forall_impl; [exact Hfk|]. intros line Hl Ho. simpl in *.
    unfold order_row in Hfree0. rewrite Ho, Hfree0 in Hl. by destruct Hl. }
  { rewrite Hnone. clear -Hfit Hp0. revert Hfit. change (subtotals []) with 0.
    generalize 0. induction items as [|it its IHs]; intros t; simpl; [done|].
    rewrite Hp0. destruct (row_get _ _ _); [|done].
    intros [Hh Ht]%andb_prop. rewrite Hh. simpl. by apply IHs. }
  pose proof Hloop as Hinv.
  apply add_items_Ok in Hinv as (_ & _ & _ & _ & Hid1 & _ & _ & Hrows).
  destruct (Hrows _ Hrow0) as (r1 & Hr1 & _).
  exists r1, w1. unfold OrderService.create_order, atomic.
  rewrite bool_decide_false by done.
  rewrite (bind_Ok _ _ _ _ _ Hcreate), (bind_Ok _ _ _ _ _ Hloop).
  rewrite Hid1. by rewrite (Order_objects_get_Some _ _ _ Hr1).
Qed.

Lemma storable_products d d' items total :
  products d' = products d -> storable d' items total = storable d items total.
Proof.
  intros Hp. revert total. induction items as [|it its IH]; intros t; simpl; [done|].
  rewrite Hp. destruct (row_get _ _ _); [|done]. by rewrite IH.
Qed.

(** *** Amounts beyond ten digits *)

Lemma OrderItem_create_overflow o p q price w r :
  let price' := match price with
                | Some v => if bool_decide (v = 0) then p_price p else v
                | None => p_price p
                end in
  order_row w (o_id o) = Some r ->
  is_Some (product_row w (p_id p)) ->
  Forall (fun line => i_id line < item_seq (db w)) (order_items (db w)) ->
  Forall (fun line => ~ (i_order line = o_id o /\ i_product line = p_id p))
         (order_items (db w)) ->
  o_id o <> 0 ->
  fits price' && fits (q * price') &&
    fits (subtotals (items_of w (o_id o)) + q * price') = false ->
  exists w1, OrderItem.objects_create o p q price w = (Raise InvalidOperation, w1).
Proof.
  intros price' Hr Hp Hfresh Huniq Hnz Hfit.
  unfold OrderItem.objects_create. fold price'.
  destruct (fits price') eqn:Hprice.
  2: { exists w. by rewrite (bind_Raise' _ _ _ _ _ (decimal_column_overflow _ w Hprice)). }
  rewrite (bind_Ok _ _ _ _ _ (decimal_column_fits _ w Hprice)).
  destruct (fits (q * price')) eqn:Hsub.
  2: { exists w. by rewrite (bind_Raise' _ _ _ _ _ (decimal_column_overflow _ w Hsub)). }
  rewrite (bind_Ok _ _ _ _ _ (decimal_column_fits _ w Hsub)).
  simpl in Hfit.
  unfold bind at 1. unfold read at 1. unfold bind at 1. unfold read at 1.
  assert (forallb (fun i => negb (bool_decide (i_order i = o_id o) &&
                                  bool_decide (i_product i = p_id p)))
                  (order_items (db w)) = true) as Hu.
  { apply forallb_forall. intros line Hin. rewrite Forall_forall in Huniq.
    specialize (Huniq line (proj2 (list_elem_of_In _ _) Hin)).
    apply negb_true_iff. apply andb_false_iff.
    destruct (decide (i_order line = o_id o)) as [Ho|Ho];
      [right | left]; apply bool_decide_eq_false; tauto. }
  rewrite Hu. unfold order_row, product_row in *.
  rewrite (bool_decide_true (is_Some (row_get o_id _ _))) by (rewrite Hr; eauto).
  rewrite (bool_decide_true (is_Some (row_get p_id _ _))) by done.
  rewrite (bool_decide_true (row_get i_id _ _ = None)) by (by apply row_get_fresh).
  simpl.
  set (line := OrderItem_ _ _ _ _ _ _).
  unfold bind at 1. unfold write at 1.
  set (w0 := World_ _ _).
  rewrite bool_decide_true by done.
  exists w0. apply bind_Raise', recalculate_and_save_overflow.
  rewrite (items_of_app w w0 line eq_refl : items_of w0 (o_id o) = _).
  by rewrite subtotals_app.
Qed.

Lemma add_item_overflow item o w r p :
  row_get p_id (product_id item) (products (db w)) = Some p ->
  item_valid (db w) item = true ->
  order_row w (o_id o) = Some r ->
  Forall (fun line => i_id line < item_seq (db w)) (order_items (db w)) ->
  Forall (fun line => ~ (i_order line = o_id o /\ i_product line = product_id item))
         (order_items (db w)) ->
  o_id o <> 0 ->
  fits (p_price p) && fits (quantity item * p_price p) &&
    fits (subtotals (items_of w (o_id o)) + quantity item * p_price p) = false ->
  exists w1, OrderService.add_item item o w = (Raise InvalidOperation, w1).
Proof.
  intros Hp Hvalid Hr Hfresh Huniq Hnz Hfit. unfold item_valid in Hvalid.
  rewrite Hp in Hvalid.
  apply andb_prop in Hvalid as [Hav Hstock]. apply bool_decide_eq_true in Hstock.
  pose proof (row_get_key _ _ _ _ Hp) as Hpid.
  assert ((if bool_decide (p_price p = 0) then p_price p else p_price p) = p_price p)
    as Hsame by (by case_bool_decide).
  destruct (OrderItem_create_overflow o p (quantity item) (Some (p_price p)) w r)
    as (w1 & Hc); [done | | done | by rewrite Hpid | done | by rewrite Hsame | ].
  { unfold product_row. rewrite Hpid, Hp. eauto. }
  exists w1.
  unfold OrderService.add_item, try_except.
  rewrite (bind_Ok _ _ _ _ _ (Product_objects_get_Some _ _ _ Hp)).
  rewrite Hav. simpl. rewrite bool_decide_false by lia.
  by rewrite (bind_Raise' _ _ _ _ _ Hc).
Qed.

Lemma add_items_overflow items : forall o w r,
  Forall (fun item => item_valid (db w) item = true) items ->
  NoDup (map product_id items) ->
  order_row w (o_id o) = Some r ->
  Forall (fun line => i_id line < item_seq (db w)) (order_items (db w)) ->
  Forall (fun line => i_order line = o_id o -> i_product line ∉ map product_id items)
         (order_items (db w)) ->
  o_id o <> 0 ->
  storable (db w) items (subtotals (items_of w (o_id o))) = false ->
  exists w1, for_each_with items o OrderService.add_item w = (Raise InvalidOperation, w1).
Proof.
  induction items as [|item items IH];
    intros o w r Hvalid Hnodup Hr Hfresh Huniq Hnz Hfit; simpl; [discriminate|].
  inversion Hvalid as [|? ? Hv Hvs]; subst.
  apply NoDup_cons in Hnodup as [Hnotin Hnodup].
  simpl in Hfit. pose proof Hv as Hv'. unfold item_valid in Hv'.
  destruct (row_get p_id (product_id item) (products (db w))) as [p|] eqn:Hp;
    [|discriminate]. clear Hv'.
  assert (Forall (fun line => ~ (i_order line = o_id o /\ i_product line = product_id item))
                 (order_items (db w))) as Huniq1.
  { eapply Forall_impl; [exact Huniq|]. intros line Hl [Ho Hpl]. apply (Hl Ho).
    rewrite Hpl. simpl. apply list_elem_of_here. }
  destruct (fits (p_price p) && fits (quantity item * p_price p) &&
            fits (subtotals (items_of w (o_id o)) + quantity item * p_price p)) eqn:Hhead.
  2: { destruct (add_item_overflow item o w r p) as (w1 & Hadd); [done..|].
       exists w1. by rewrite (bind_Raise' _ _ _ _ _ Hadd). }
  simpl in Hfit. pose proof Hhead as Hhead'.
  apply andb_prop in Hhead' as [Hh Htotal]. apply andb_prop in Hh as [Hprice Hsub].
  destruct (add_item_run item o w r p) as (o0 & w0 & Hadd & Hseq); [done..|].
  pose proof (add_item_keeps_products item o _ _ _ Hadd) as Hp0. simpl in Hp0.
  pose proof Hadd as Hinv.
  apply add_item_Ok in Hinv
    as (_ & line & Hline & Hi0 & _ & _ & Hid0 & _ & r0 & Hr0 & Hnz0 & _).
  destruct (Hnz0 Hnz) as [_ Hr1].
  destruct (line_of_subtotal _ _ _ _ _ Hline Hp) as [Hlo Hls].
  destruct (IH o0 w0 (Order.col_total_amount o0 r0)) as (w1 & Hloop);
    [| done | by rewrite Hid0 | | | by rewrite Hid0 | |].
  - eapply Forall_impl; [exact Hvs|]. intros it Hit. simpl in *.
    by rewrite (item_valid_products _ _ it Hp0).
  - rewrite Hi0, Hseq. apply Forall_app. split.
    + eapply Forall_impl; [exact Hfresh|]. intros l ?. simpl in *. lia.
    + apply OrderItem_create_id in Hadd as (line' & Hi' & Hk).
      rewrite Hi0 in Hi'. apply app_inj_tail in Hi' as [_ <-].
      constructor; [lia | constructor].
  - rewrite Hi0, Hid0. apply Forall_app. split.
    + eapply Forall_impl; [exact Huniq|]. intros l Hl Ho Hin. apply (Hl Ho).
      simpl. by apply list_elem_of_further.
    + constructor; [|constructor]. intros _.
      destruct Hline as (_ & -> & _). exact Hnotin.
  - rewrite Hid0, <- Hlo, (items_of_app w w0 line Hi0), subtotals_app, Hlo, Hls.
    by rewrite (storable_products _ _ _ _ Hp0).
  - exists w1. by rewrite (bind_Ok _ _ _ _ _ Hadd), Hloop.
Qed.

Lemma create_order_overflow u items notes w :
  consistent (db w) -> acceptable (db w) items -> storable (db w) items 0 = false ->
  exists w', OrderService.create_order u items notes w = (Raise InvalidOperation, w') /\
             db w' = db w.
Proof.
  intros (Hfk & Hfree & Hseq & Hfresh) (Hne & Hvalid & Hnodup) Hfit.
  destruct (Order_objects_create_run (u_id u) 0 notes w eq_refl Hfree)
    as (o0 & w0 & Hcreate & Hseq0).
  pose proof Hcreate as Hinv.
  apply Order_objects_create_Ok in Hinv
    as (Ho0 & Hfree0 & Hrow0 & _ & Hp0 & Hi0 & _ & _).
  assert (items_of w0 (o_id o0) = []) as Hnone.
  { unfold items_of. rewrite Hi0. destruct w as [d l].
    by apply (items_of_unknown_order d l). }
  destruct (add_items_overflow items o0 w0 o0) as (w1 & Hloop);
    [| done | done | | | | |].
  { eapply Forall_impl; [exact Hvalid|]. intros it Hit. simpl in *.
    by rewrite (item_valid_products _ _ it Hp0). }
  { by rewrite Hi0, Hseq0. }
  { rewrite Hi0. unfold lines_have_orders in Hfk.
    eapply Forall_impl; [exact Hfk|]. intros line Hl Ho. simpl in *.
    unfold order_row in Hfree0. rewrite Ho, Hfree0 in Hl. by destruct Hl. }
  { by rewrite Ho0. }
  { rewrite Hnone. by rewrite (storable_products _ _ _ _ Hp0). }
  eexists. unfold OrderService.create_order, atomic.
  rewrite bool_decide_false by done.
  rewrite (bind_Ok _ _ _ _ _ Hcreate), (bind_Raise' _ _ _ _ _ Hloop). done.
Qed.

(** *** Deleting a line *)

Lemma OrderItem_delete_run line w r :
  order_row w (i_order line) = Some r ->
  if fits (subtotals (items_of (without line w) (i_order line)))
  then exists w1, OrderItem.delete line w = (Ok tt, w1)
  else OrderItem.delete line w = (Raise InvalidOperation, without line w).
Proof.
  intros Hr. unfold OrderItem.delete.
  rewrite (bind_Ok _ _ _ _ _ (Order_objects_get_Some _ _ _ Hr)).
  pose proof (row_get_key _ _ _ _ Hr) as Hid.
  destruct (fits _) eqn:Hfits.
  - destruct (recalculate_and_save_Some r (without line w) r) as (w2 & Hrun & _).
    + by rewrite Hid.
    + by rewrite Hid.
    + exists w2. unfold bind at 1. unfold write at 1. unfold without in Hrun.
      by rewrite (bind_Ok _ _ _ _ _ Hrun).
  - unfold bind at 1. unfold write at 1.
    apply bind_Raise', recalculate_and_save_overflow. by rewrite Hid.
Qed.



(** C7. [create_order] is all or nothing.  If it raises, the database is the
    one it started from.  It does raise when the list is empty or when some
    item fails a check (product missing, product not available, stock below
    the quantity).  If it returns, the order is stored in status [OPending]
    together with exactly one line per requested item, added after the lines
    that were there, and no other order, product or payment has changed.  On
    a consistent database an acceptable request returns if its amounts fit
    their columns, and raises [InvalidOperation] if they do not. *)
Theorem create_order_all_or_nothing (u : user) (items : list item_data)
    (notes : string) (w : world) :
  (forall e w', OrderService.create_order u items notes w = (Raise e, w') ->
     db w' = db w) /\
  (items = [] \/ Exists (fun item => item_valid (db w) item = false) items ->
     exists e w', OrderService.create_order u items notes w = (Raise e, w') /\
                  db w' = db w) /\
  (forall o w', OrderService.create_order u items notes w = (Ok o, w') ->
     lines_have_orders (db w) ->
     order_row w (o_id o) = None /\
     order_row w' (o_id o) = Some o /\ o_status o = OPending /\
     Forall2 (line_of (db w) (o_id o)) items (items_of w' (o_id o)) /\
     order_items (db w') = order_items (db w) ++ items_of w' (o_id o) /\
     (forall k, k <> o_id o -> order_row w' k = order_row w k) /\
     products (db w') = products (db w) /\
     payments (db w') = payments (db w)) /\
  (consistent (db w) -> acceptable (db w) items ->
     if storable (db w) items 0
     then exists o w', OrderService.create_order u items notes w = (Ok o, w')
     else exists w', OrderService.create_order u items notes w =
                       (Raise InvalidOperation, w') /\ db w' = db w).
Proof.
  split; [|split; [|split]].
  - intros e w'. apply atomic_Raise_db.
  - intros Hbad.
    destruct (OrderService.create_order u items notes w) as [[o|e] w'] eqn:H.
    + exfalso. apply create_order_Ok in H as (Hne & Hvalid & _).
      destruct Hbad as [->|Hbad]; [done|].
      apply Exists_exists in Hbad as (it & Hin & Hit).
      rewrite Forall_forall in Hvalid. specialize (Hvalid it Hin). congruence.
    + exists e, w'. split; [done|]. by apply atomic_Raise_db in H.
  - intros o w' H Hfk.
    pose proof (create_order_lines _ _ _ _ _ _ H Hfk) as [Hlines Hi].
    apply create_order_Ok in H
      as (_ & _ & _ & Hfree & Hrow & _ & Hst & _ & Hother & Hp & Hpay & _).
    done.
  - intros Hc Ha. destruct (storable (db w) items 0) eqn:Hfit.
    + by apply create_order_run.
    + by apply create_order_overflow.
Qed.

Lemma create_order_all_or_nothing_witness :
  (exists e w', OrderService.create_order alice [Item_ 1 2; Item_ 2 3] "" shop = (Raise e, w') /\
                db w' = db shop) /\
  order_row shop_ordered 1 = Some (Order_ 1 7 10600 OPending "") /\
  Forall2 (line_of (db shop) 1) [Item_ 1 2; Item_ 2 2] (items_of shop_ordered 1) /\
  (exists o w', OrderService.create_order alice [Item_ 1 2; Item_ 2 2] "" shop = (Ok o, w')) /\
  (exists w', OrderService.create_order alice [Item_ 1 2] "" shop_dear =
                (Raise InvalidOperation, w') /\ db w' = db shop_dear).
Proof.
  split; [|split; [|split; [|split]]].
  - destruct (create_order_all_or_nothing alice [Item_ 1 2; Item_ 2 3] "" shop)
      as (_ & H & _).
    apply H. right. apply Exists_cons_tl, Exists_cons_hd. reflexivity.
  - destruct (create_order_all_or_nothing alice [Item_ 1 2; Item_ 2 2] "" shop)
      as (_ & _ & H & _).
    by destruct (H (Order_ 1 7 10600 OPending "") shop_ordered)
      as (_ & Hrow & _); [reflexivity | constructor |].
  - destruct (create_order_all_or_nothing alice [Item_ 1 2; Item_ 2 2] "" shop)
      as (_ & _ & H & _).
    by destruct (H (Order_ 1 7 10600 OPending "") shop_ordered)
      as (_ & _ & _ & Hlines & _); [reflexivity | constructor |].
  - destruct (create_order_all_or_nothing alice [Item_ 1 2; Item_ 2 2] "" shop)
      as (_ & _ & _ & H).
    assert (storable (db shop) [Item_ 1 2; Item_ 2 2] 0 = true) as Hfit
      by (vm_compute; reflexivity).
    rewrite Hfit in H. apply H.
    + split; [constructor|]. split; [reflexivity|]. split; [discriminate | constructor].
    + split; [discriminate|]. split; [by repeat constructor|].
      by apply (bool_decide_unpack _).
  - destruct (create_order_all_or_nothing alice [Item_ 1 2] "" shop_dear)
      as (_ & _ & _ & H).
    assert (storable (db shop_dear) [Item_ 1 2] 0 = false) as Hfit
      by (vm_compute; reflexivity).
    rewrite Hfit in H. apply H.
    + split; [constructor|]. split; [reflexivity|]. split; [discriminate | constructor].
    + split; [discriminate|]. split; [by repeat constructor|].
      by apply (bool_decide_unpack _).
Defined.

(** * Further properties of the code *)

(** ** Products: a reduction followed by the same increase *)

(** X1. Taking [q] units from a product and giving them back restores the
    stock, on the instance and in the store.  The status comes back as it
    was, except that it is [Active] whenever the reduction emptied the stock
    or the product was [OutOfStock] to begin with: an [Inactive] product
    whose last units are bought and returned ends up on sale. *)
Theorem reduce_then_increase_stock (self : product) (q : Z) (w : world)
    (self1 : product) (w1 : world) :
  Product.reduce_stock self q w = (Ok self1, w1) ->
  let status2 := if bool_decide (p_stock self = q \/ p_status self = OutOfStock)
                 then Active else p_status self in
  exists r self2 w2,
    product_row w (p_id self) = Some r /\
    Product.increase_stock self1 q w1 = (Ok self2, w2) /\
    p_stock self2 = p_stock self /\
    p_status self2 = status2 /\
    product_row w2 (p_id self) =
      Some (Product_ (p_id self) (p_price r) (p_stock self) status2) /\
    forall k, k <> p_id self -> product_row w2 k = product_row w k.
Proof.
  intros H status2. unfold Product.reduce_stock in H.
  case_bool_decide as Hq; [discriminate|].
  case_bool_decide as Hs; [discriminate|].
  apply bind_inv_Ok in H as ([] & w0 & Hsave & Hret). injection Hret as <- <-.
  set (self1 := Product_ _ _ _ _) in *.
  assert (is_Some (product_row w (p_id self))) as [r Hr].
  { unfold Product.save, bind, read, product_row in *.
    destruct (row_get p_id _ (products (db w))); [eauto | discriminate]. }
  destruct (Product_save_Ok self1 w r Hr) as (w1 & Hs1 & _ & _ & _ & _ & Hrow1 & Hother1).
  rewrite Hs1 in Hsave. injection Hsave as <-.
  unfold Product.increase_stock. rewrite bool_decide_false by done.
  set (self2 := Product_ _ _ _ _).
  destruct (Product_save_Ok self2 w1 _ Hrow1) as (w2 & Hs2 & _ & _ & _ & _ & Hrow2 & Hother2).
  exists r, self2, w2. rewrite (bind_Ok _ _ _ _ _ Hs2).
  assert (p_status self2 = status2) as Hst.
  { subst self2 self1 status2. simpl.
    destruct (bool_decide_reflect (p_stock self - q = 0)) as [Hz|Hz]; simpl.
    - rewrite (bool_decide_true (_ \/ _)) by (left; lia). done.
    - destruct (bool_decide_reflect (p_status self = OutOfStock)) as [Ho|Ho].
      + by rewrite (bool_decide_true (_ \/ _)) by (by right).
      + by rewrite (bool_decide_false (_ \/ _)) by (intros [?|?]; [lia|done]). }
  assert (p_stock self2 = p_stock self) as Hstock by (subst self2 self1; simpl; lia).
  split; [done|]. split; [done|]. split; [done|]. split; [done|]. split.
  - simpl in Hrow2. rewrite Hrow2. simpl. rewrite <- Hst.
    subst self2 self1. simpl. do 2 f_equal. lia.
  - intros k Hk. rewrite Hother2, Hother1; done.
Qed.

(** ** What a computation does to the world, as a relation *)

Section Respects.
Context (R : world -> world -> Prop) `{!PreOrder R}.

Lemma respects_ret {A} (a : A) : respects R (ret a).
Proof. intros w r w' [= _ <-]. reflexivity. Qed.

Lemma respects_raise {A} e : respects R (@raise A e).
Proof. intros w r w' [= _ <-]. reflexivity. Qed.

Lemma respects_read {A} (g : database -> A) : respects R (read g).
Proof. intros w r w' [= _ <-]. reflexivity. Qed.

Lemma respects_of_option {A} (o : option A) e : respects R (of_option o e).
Proof. destruct o; [apply respects_ret | apply respects_raise]. Qed.

Lemma respects_bind {A C} (m : M A) (k : A -> M C) :
  respects R m -> (forall a, respects R (k a)) -> respects R (bind m k).
Proof.
  intros Hm Hk w r w'. unfold bind.
  destruct (m w) as [[a|e] w1] eqn:E.
  - intros H. transitivity w1; [eapply Hm, E | eapply Hk, H].
  - intros [= <- <-]. eapply Hm, E.
Qed.

Lemma respects_try_except {A} (m : M A) handles h :
  respects R m -> (forall e, respects R (h e)) -> respects R (try_except m handles h).
Proof.
  intros Hm Hh w r w'. unfold try_except.
  destruct (m w) as [[a|e] w1] eqn:E.
  - intros [= <- <-]. eapply Hm, E.
  - destruct (handles e).
    + intros H. transitivity w1; [eapply Hm, E | eapply Hh, H].
    + intros [= <- <-]. eapply Hm, E.
Qed.

Lemma respects_for_each {A} (xs : list A) body :
  (forall x, respects R (body x)) -> respects R (for_each xs body).
Proof.
  intros Hb. induction xs as [|x xs IH]; simpl.
  - apply respects_ret.
  - apply respects_bind; [apply Hb | intros _; exact IH].
Qed.

Lemma respects_keeps {A} (m : M A) :
  (forall w w', products (db w') = products (db w) -> R w w') ->
  keeps (fun w => products (db w)) m -> respects R m.
Proof. intros HR Hm w r w' H. apply HR. eapply Hm, H. Qed.
End Respects.

#[local] Instance stock_shrinks_preorder : PreOrder stock_shrinks.
Proof.
  split.
  - intros w k s Hs. exists s. split; [done|]. split; [lia|done].
  - intros w1 w2 w3 H12 H23 k s Hs.
    destruct (H12 k s Hs) as (s2 & Hs2 & Hle2 & Hnn2).
    destruct (H23 k s2 Hs2) as (s3 & Hs3 & Hle3 & Hnn3).
    exists s3. split; [done|]. split; [lia|]. intros ?. apply Hnn3, Hnn2. done.
Qed.

Lemma stock_shrinks_same_products w w' :
  products (db w') = products (db w) -> stock_shrinks w w'.
Proof.
  intros Hp k s Hs. exists s. unfold stock_of, product_row in *. rewrite Hp.
  split; [done|]. split; [lia|done].
Qed.

Lemma reduce_item_shrinks item : respects stock_shrinks (reduce_item item).
Proof.
  intros w res w' H. destruct res as [[]|e].
  - pose proof H as Hitem. apply reduce_item_Ok in H as [Hq Hstock].
    unfold reduce_item in Hitem.
    apply bind_inv_Ok in Hitem as (p & w0 & Hget & Hitem).
    apply Product_objects_get_inv in Hget as [-> Hp].
    apply bind_inv_Ok in Hitem as (p' & w1 & Hred & _).
    unfold Product.reduce_stock in Hred.
    case_bool_decide as H1; [discriminate|]. case_bool_decide as H2; [discriminate|].
    intros k s Hs. rewrite Hstock, Hs. simpl. eexists. split; [done|].
    destruct (bool_decide_reflect (i_product item = k)) as [Hk|Hk]; [|lia]. subst k.
    unfold stock_of in Hs. rewrite Hp in Hs. injection Hs as <-. lia.
  - assert (w' = w) as ->; [|reflexivity].
    unfold reduce_item in H. unfold bind at 1 in H.
    destruct (Product.objects_get _ w) as [[p|e0] w0] eqn:Hget.
    2: { injection H as _ <-. unfold Product.objects_get, bind, read in Hget.
         destruct (row_get _ _ _); simpl in Hget; [discriminate|]. by injection Hget as _ <-. }
    apply Product_objects_get_inv in Hget as [-> Hp].
    unfold bind at 1 in H. unfold Product.reduce_stock in H.
    case_bool_decide; [by injection H as _ <-|].
    case_bool_decide; [by injection H as _ <-|].
    unfold bind at 1 in H. unfold Product.save, bind, read, write in H.
    destruct (row_get _ _ _); simpl in H; [discriminate|]. by injection H as _ <-.
Qed.

Lemma mark_as_paid_shrinks o : respects stock_shrinks (Order.mark_as_paid o).
Proof.
  unfold Order.mark_as_paid. case_bool_decide; [apply respects_raise; apply _|].
  apply respects_bind; [apply _| |].
  { apply respects_keeps; [apply stock_shrinks_same_products|].
    by apply Order_save_keeps. }
  intros _. apply respects_bind; [apply _ | apply respects_read; apply _|].
  intros its. apply respects_bind; [apply _| |intros; apply respects_ret; apply _].
  apply respects_for_each; [apply _|]. intros item. apply reduce_item_shrinks.
Qed.

Lemma Payment_save_keeps_products self cols :
  keeps (fun w => products (db w)) (Payment.save self cols).
Proof.
  unfold Payment.save. apply keeps_bind; [auto with keeps|].
  intros [r|]; [by apply keeps_write | auto with keeps].
Qed.

Lemma logger_keeps_products lv name about m :
  keeps (fun w => products (db w)) (logger lv name about m).
Proof. by apply keeps_logger. Qed.

Lemma confirm_keeps_products s x :
  keeps (fun w => products (db w)) (PaymentContext.confirm_payment s x).
Proof.
  intros w r w' H. by rewrite (proj1 (proj2 (strategy_call_keeps_db s x)) _ _ _ H).
Qed.

Lemma poll_call_keeps_products s x :
  keeps (fun w => products (db w)) (PaymentContext.get_payment_status s x).
Proof.
  intros w r w' H.
  by rewrite (proj1 (proj2 (proj2 (strategy_call_keeps_db s x))) _ _ _ H).
Qed.

Lemma handle_webhook_keeps_products event :
  keeps (fun w => products (db w)) (StripePaymentStrategy.handle_webhook event).
Proof.
  destruct event; simpl; [apply keeps_ret| |];
    (apply keeps_bind; [by apply keeps_logger | intros; apply keeps_ret]).
Qed.

Lemma last_payment_error_keeps_products data :
  keeps (fun w => products (db w)) (last_payment_error_message data).
Proof.
  unfold last_payment_error_message.
  destruct (d_last_payment_error data) as [| |[| |m]]; auto with keeps.
Qed.

(** Split a computation down to the steps that leave the products alone and
    the calls of [mark_as_paid]. *)
Ltac shrinks_steps :=
  repeat first
    [ apply mark_as_paid_shrinks
    | apply respects_keeps;
        [ apply stock_shrinks_same_products
        | solve [ first [ apply Payment_save_keeps_products
                        | apply logger_keeps_products
                        | apply confirm_keeps_products
                        | apply poll_call_keeps_products
                        | apply handle_webhook_keeps_products
                        | apply last_payment_error_keeps_products
                        | auto with keeps ] ] ]
    | apply respects_bind; [apply _| |intros ?]
    | apply respects_try_except; [apply _| |intros ?]
    | match goal with
      | |- respects _ (if ?b then _ else _) => destruct b
      | |- respects _ (match ?o with _ => _ end) => destruct o
      end ].

Lemma mark_as_success_shrinks self data now :
  respects stock_shrinks (Payment.mark_as_success self data now).
Proof. unfold Payment.mark_as_success, Order.objects_get. shrinks_steps. Qed.

Lemma mark_as_failed_shrinks self msg data now :
  respects stock_shrinks (Payment.mark_as_failed self msg data now).
Proof. unfold Payment.mark_as_failed. shrinks_steps. Qed.

(** X2. Reconciling a payment never creates stock and never oversells.
    Whatever [Order.mark_as_paid], [Payment.mark_as_success], the user
    confirm, the status poll or the Stripe webhook return or raise, every
    product is still stored afterwards, its stock has not grown, and it is not
    below zero unless it already was. *)
Theorem reconciliation_never_oversells :
  (forall o, respects stock_shrinks (Order.mark_as_paid o)) /\
  (forall self data now, respects stock_shrinks (Payment.mark_as_success self data now)) /\
  (forall api u t now, respects stock_shrinks (confirm_payment_view api u t now)) /\
  (forall api u t now, respects stock_shrinks (payment_status_view api u t now)) /\
  (forall event now, respects stock_shrinks (stripe_webhook_view event now)).
Proof.
  split; [exact mark_as_paid_shrinks|]. split; [exact mark_as_success_shrinks|].
  split; [|split].
  - intros api u t now.
    unfold confirm_payment_view, permission_denied, Payment.objects_get,
      Order.objects_get, get_payment_strategy.
    shrinks_steps; first [apply mark_as_success_shrinks | apply mark_as_failed_shrinks].
  - intros api u t now.
    unfold payment_status_view, permission_denied, Payment.objects_get,
      Order.objects_get, get_payment_strategy.
    shrinks_steps; first [apply mark_as_success_shrinks | apply mark_as_failed_shrinks].
  - intros event now.
    unfold stripe_webhook_view, Payment.objects_get.
    shrinks_steps; first [apply mark_as_success_shrinks | apply mark_as_failed_shrinks].
Qed.

(** ** Orders: cancelling twice; creating and deleting a line *)

Lemma row_put_again {A} (key : A -> Z) (r : A) (t : list A) :
  row_put key r (row_put key r t) = row_put key r t.
Proof.
  unfold row_put. rewrite map_map. apply map_ext. intros x.
  destruct (bool_decide_reflect (key x = key r)) as [Hx|Hx].
  - by rewrite bool_decide_true.
  - by rewrite bool_decide_false.
Qed.

Lemma Order_save_Ok_inv self cols w w' :
  Order.save self cols w = (Ok tt, w') ->
  exists r, order_row w (o_id self) = Some r /\
    w' = World_ (set_orders (db w) (row_put o_id (cols r) (orders (db w)))) (logs w).
Proof.
  unfold Order.save, bind, read, write, order_row.
  destruct (row_get o_id (o_id self) (orders (db w))) as [r|]; simpl; [|discriminate].
  intros [= <-]. by exists r.
Qed.

(** X3. A cancellation that went through can be repeated: the second
    [cancel], on the instance the first one left, returns the same instance
    and leaves the world exactly as it is, so the stock of a paid order is
    given back once. *)
Theorem cancel_twice_changes_nothing (self : order) (w : world) (self1 : order) (w1 : world) :
  Order.cancel self w = (Ok self1, w1) ->
  o_status self1 = OCancelled /\
  Order.cancel self1 w1 = (Ok self1, w1).
Proof.
  intros H. unfold Order.cancel in H.
  case_bool_decide as Hg; [discriminate|].
  apply bind_inv_Ok in H as ([] & w0 & _ & H).
  apply bind_inv_Ok in H as ([] & w2 & Hsave & Hret). injection Hret as <- <-.
  split; [done|].
  apply Order_save_Ok_inv in Hsave as (r & Hr & ->). simpl in Hr.
  pose proof (row_get_key _ _ _ _ Hr) as Hid.
  set (x := Order.col_status (Order.with_status self OCancelled) r).
  set (w1 := World_ _ _).
  assert (order_row w1 (o_id self) = Some x) as Hx.
  { unfold order_row, w1. simpl. rewrite <- Hid.
    change (o_id r) with (o_id x). apply row_get_put_eq.
    change (o_id x) with (o_id r). rewrite Hid. by eexists. }
  unfold Order.cancel. simpl.
  unfold bind at 1. unfold ret at 1.
  assert (Order.save (Order.with_status (Order.with_status self OCancelled) OCancelled)
            (Order.col_status
               (Order.with_status (Order.with_status self OCancelled) OCancelled)) w1
          = (Ok tt, w1)) as Hsave.
  { unfold Order.save, bind, read, write. simpl.
    unfold order_row in Hx. simpl in Hx. rewrite Hx. simpl.
    unfold w1, set_orders. simpl. do 3 f_equal. apply row_put_again. }
  by rewrite (bind_Ok _ _ _ _ _ Hsave).
Qed.

Lemma row_del_absent {A} (key : A -> Z) (k : Z) (t : list A) :
  row_get key k t = None -> row_del key k t = t.
Proof.
  unfold row_del. induction t as [|x t IH]; simpl; [done|].
  destruct (bool_decide_reflect (key x = k)) as [Hx|Hx]; [discriminate|].
  intros Hn. rewrite filter_cons. destruct (decide _); [by rewrite IH | done].
Qed.

Lemma row_del_last {A} (key : A -> Z) (t : list A) (r : A) :
  row_get key (key r) t = None -> row_del key (key r) (t ++ [r]) = t.
Proof.
  intros Hn. unfold row_del. rewrite filter_app. fold (row_del key (key r) t).
  rewrite (row_del_absent _ _ _ Hn). rewrite filter_cons.
  destruct (decide _); [done|]. by rewrite filter_nil, app_nil_r.
Qed.

Lemma OrderItem_create_fresh o p q price w res w1 :
  OrderItem.objects_create o p q price w = (Ok res, w1) ->
  row_get i_id (item_seq (db w)) (order_items (db w)) = None.
Proof.
  unfold OrderItem.objects_create. intros H.
  apply bind_inv_Ok in H as ([] & ? & [-> _]%decimal_column_inv & H).
  apply bind_inv_Ok in H as ([] & ? & [-> _]%decimal_column_inv & H).
  revert H.
  unfold bind at 1. unfold read at 1. unfold bind at 1. unfold read at 1.
  destruct (_ && _) eqn:Hok; simpl; [|discriminate]. intros _.
  apply andb_prop in Hok as [Hok _]. apply andb_prop in Hok as [_ Hok].
  by apply bool_decide_eq_true in Hok.
Qed.

(** X4. Deleting the order line that was just created undoes the creation.
    If the total of the lines the order had before fits its column, the
    deletion returns: the line table is the one from before, the products
    are untouched, and the parent order is stored with the sum of the
    subtotals of the lines it had before.  If it does not, the deletion
    raises [InvalidOperation] once the line is gone: the line table is the
    one from before and the stored order keeps the total it had. *)
Theorem create_then_delete_line (o : order) (p : product) (q : Z) (price : option Z)
    (w : world) (line : order_item) (o1 : order) (w1 : world) :
  OrderItem.objects_create o p q price w = (Ok (line, o1), w1) ->
  if fits (subtotals (items_of w (o_id o)))
  then
    exists w2,
      OrderItem.delete line w1 = (Ok tt, w2) /\
      order_items (db w2) = order_items (db w) /\
      products (db w2) = products (db w) /\
      payments (db w2) = payments (db w) /\
      o_total_amount <$> order_row w2 (o_id o) = Some (subtotals (items_of w (o_id o)))
  else
    OrderItem.delete line w1 = (Raise InvalidOperation, without line w1) /\
    order_items (db (without line w1)) = order_items (db w) /\
    order_row (without line w1) (o_id o) = order_row w1 (o_id o).
Proof.
  intros H. pose proof (OrderItem_create_fresh _ _ _ _ _ _ _ H) as Hfresh.
  apply OrderItem_create_Ok in H
    as (Hline & Hi & Hp & Hpay & _ & _ & _ & r & Hr & Hnz & Hz).
  assert (exists r1, order_row w1 (o_id o) = Some r1) as [r1 Hr1].
  { destruct (decide (o_id o = 0)) as [E|E];
      [destruct (Hz E) as [_ ->] | destruct (Hnz E) as [_ ->]]; eauto. }
  assert (i_order line = o_id o /\ i_id line = item_seq (db w)) as [Hlo Hlid]
    by (by subst line).
  pose proof (row_get_key _ _ _ _ Hr1) as Hid1.
  assert (order_items (db (without line w1)) = order_items (db w)) as Hitems.
  { simpl. rewrite Hi. apply row_del_last. by rewrite Hlid. }
  assert (items_of (without line w1) (i_order line) = items_of w (o_id o)) as Hlines.
  { unfold items_of. by rewrite Hitems, Hlo. }
  rewrite <- Hlo in Hr1.
  pose proof (OrderItem_delete_run line w1 r1 Hr1) as Hrun. rewrite Hlines in Hrun.
  destruct (fits _); [|done].
  destruct Hrun as [w2 Hrun]. exists w2. split; [done|].
  pose proof Hrun as Hinv.
  apply OrderItem_delete_Ok in Hinv as (Hi2 & Hp2 & Htotal).
  split; [by rewrite Hi2|]. split; [by rewrite Hp2|]. split.
  - pose proof (recalculate_and_save_keeps (fun w => payments (db w)) r1) as Hkeep.
    revert Hrun. unfold OrderItem.delete.
    rewrite (bind_Ok _ _ _ _ _ (Order_objects_get_Some _ _ _ Hr1)).
    unfold bind at 1. unfold write at 1. intros Hrun.
    apply bind_inv_Ok in Hrun as (o2 & w3 & Hrec & [= <-]).
    by rewrite (Hkeep ltac:(done) _ _ _ Hrec).
  - rewrite Hlo in Htotal. rewrite Htotal. unfold items_of. rewrite Hi2.
    change (row_del i_id (i_id line) (order_items (db w1)))
      with (order_items (db (without line w1))). by rewrite Hitems.
Qed.

(** ** Validation against creation *)

Lemma item_errors_nil d n item :
  OrderValidationService.item_errors d n item = [] <->
  0 < quantity item /\ item_valid d item = true.
Proof.
  unfold OrderValidationService.item_errors, item_valid.
  destruct (bool_decide_reflect (quantity item <= 0)) as [Hq|Hq]; simpl.
  { split; [discriminate | intros [? _]; lia]. }
  destruct (row_get p_id (product_id item) (products d)) as [p|]; simpl.
  2: { split; [discriminate | intros [_ ?]; discriminate]. }
  destruct (Product.is_available p); simpl.
  2: { split; [discriminate | intros [_ ?]; discriminate]. }
  destruct (bool_decide_reflect (p_stock p < quantity item)) as [Hs|Hs]; simpl.
  - split; [discriminate|]. intros [_ H]. apply bool_decide_eq_true in H. lia.
  - split; [|done]. intros _. split; [lia|]. apply bool_decide_eq_true. lia.
Qed.

Lemma items_errors_nil d items : forall n,
  OrderValidationService.items_errors d n items = [] <->
  Forall (fun item => 0 < quantity item /\ item_valid d item = true) items.
Proof.
  induction items as [|item items IH]; intros n; simpl.
  - split; [constructor | done].
  - split.
    + intros H. apply app_eq_nil in H as [H1 H2].
      constructor; [by apply (item_errors_nil d n) | by apply (IH (S n))].
    + intros H. inversion H as [|? ? H1 H2]; subst.
      apply (item_errors_nil d n) in H1. apply (IH (S n)) in H2.
      by rewrite H1, H2.
Qed.

(** X5. [validate_order_items] never writes, and it returns no complaint
    exactly when the list is not empty and every item has a positive
    quantity and passes the checks [create_order] will make (product stored,
    available, stock not below the quantity). *)
Theorem validation_accepts_exactly (items : list item_data) (w : world) :
  snd (OrderValidationService.validate_order_items items w) = w /\
  (OrderValidationService.validate_order_items items w = (Ok [], w) <->
   items <> [] /\
   Forall (fun item => 0 < quantity item /\ item_valid (db w) item = true) items).
Proof.
  unfold OrderValidationService.validate_order_items.
  destruct (bool_decide_reflect (items = [])) as [->|Hne].
  - split; [done|]. split; [discriminate | intros [? _]; done].
  - split; [done|]. unfold read. split.
    + intros [= H]. split; [done|]. by apply (items_errors_nil _ _ 1%nat).
    + intros [_ H]. apply (items_errors_nil _ _ 1%nat) in H. by rewrite H.
Qed.

(** ** A product named twice *)

Lemma add_item_duplicate item o w p :
  row_get p_id (product_id item) (products (db w)) = Some p ->
  item_valid (db w) item = true ->
  fits (p_price p) = true -> fits (quantity item * p_price p) = true ->
  Exists (fun line => i_order line = o_id o /\ i_product line = product_id item)
         (order_items (db w)) ->
  OrderService.add_item item o w = (Raise IntegrityError, w).
Proof.
  intros Hp Hvalid Hprice Hsub Hdup. unfold item_valid in Hvalid. rewrite Hp in Hvalid.
  apply andb_prop in Hvalid as [Hav Hstock]. apply bool_decide_eq_true in Hstock.
  pose proof (row_get_key _ _ _ _ Hp) as Hpid.
  assert ((if bool_decide (p_price p = 0) then p_price p else p_price p) = p_price p)
    as Hsame by (by case_bool_decide).
  unfold OrderService.add_item, try_except.
  rewrite (bind_Ok _ _ _ _ _ (Product_objects_get_Some _ _ _ Hp)).
  rewrite Hav. simpl. rewrite bool_decide_false by lia.
  unfold bind at 1. unfold OrderItem.objects_create. rewrite Hsame.
  rewrite (bind_Ok _ _ _ _ _ (decimal_column_fits _ w Hprice)).
  rewrite (bind_Ok _ _ _ _ _ (decimal_column_fits _ w Hsub)).
  unfold bind at 1. unfold read at 1. unfold bind at 1. unfold read at 1.
  assert (forallb (fun i => negb (bool_decide (i_order i = o_id o) &&
                                  bool_decide (i_product i = p_id p)))
                  (order_items (db w)) = false) as ->; [|by rewrite !andb_false_r].
  apply Exists_exists in Hdup as (line & Hin & Ho & Hl).
  apply not_true_is_false. intros Hall.
  assert (In line (order_items (db w))) as Hin' by (by apply list_elem_of_In).
  pose proof (proj1 (forallb_forall _ _) Hall line Hin') as Hline.
  simpl in Hline. rewrite !bool_decide_true in Hline by congruence. discriminate.
Qed.

Lemma add_items_duplicate items : forall o w r,
  Forall (fun item => item_valid (db w) item = true) items ->
  order_row w (o_id o) = Some r ->
  Forall (fun line => i_id line < item_seq (db w)) (order_items (db w)) ->
  storable (db w) items (subtotals (items_of w (o_id o))) = true ->
  ~ NoDup (map product_id items) \/
    Exists (fun line => i_order line = o_id o /\ i_product line ∈ map product_id items)
           (order_items (db w)) ->
  exists w', for_each_with items o OrderService.add_item w = (Raise IntegrityError, w') /\
             logs w' = logs w.
Proof.
  induction items as [|item items IH]; intros o w r Hvalid Hr Hfresh Hfit Hdup; simpl.
  { exfalso. destruct Hdup as [Hd|Hd]; [apply Hd; constructor|].
    apply Exists_exists in Hd as (? & _ & _ & Hin). by apply elem_of_nil in Hin. }
  inversion Hvalid as [|? ? Hv Hvs]; subst.
  simpl in Hfit.
  destruct (row_get p_id (product_id item) (products (db w))) as [p|] eqn:Hp;
    [|discriminate].
  apply andb_prop in Hfit as [Hfit Hrest]. apply andb_prop in Hfit as [Hfit Htotal].
  apply andb_prop in Hfit as [Hprice Hsub].
  destruct (decide (Exists (fun line => i_order line = o_id o /\
                                        i_product line = product_id item)
                           (order_items (db w)))) as [Hhere|Hnot].
  { exists w.
    by rewrite (bind_Raise' _ _ _ _ _ (add_item_duplicate _ _ _ _ Hp Hv Hprice Hsub Hhere)). }
  apply not_Exists_Forall in Hnot; [|apply _].
  destruct (add_item_run item o w r p) as (o0 & w0 & Hadd & Hseq); [done..|].
  pose proof (add_item_keeps_products item o _ _ _ Hadd) as Hp0. simpl in Hp0.
  pose proof Hadd as Hinv.
  apply add_item_Ok in Hinv
    as (_ & line & Hline & Hi0 & _ & Hl0 & Hid0 & _ & r0 & Hr0 & Hnz & Hz).
  assert (exists r1, order_row w0 (o_id o0) = Some r1) as [r1 Hr1].
  { rewrite Hid0. destruct (decide (o_id o = 0)) as [E|E];
      [destruct (Hz E) as [_ ->] | destruct (Hnz E) as [_ ->]]; eauto. }
  destruct (line_of_subtotal _ _ _ _ _ Hline Hp) as [Hlo' Hls].
  destruct (IH o0 w0 r1) as (w' & Hloop & Hlogs); [| done | | |  |].
  - eapply Forall_impl; [exact Hvs|]. intros it Hit. simpl in *.
    by rewrite (item_valid_products _ _ it Hp0).
  - rewrite Hi0, Hseq. apply Forall_app. split.
    + eapply Forall_impl; [exact Hfresh|]. intros l ?. simpl in *. lia.
    + apply OrderItem_create_id in Hadd as (line' & Hi' & Hk).
      rewrite Hi0 in Hi'. apply app_inj_tail in Hi' as [_ <-].
      constructor; [lia | constructor].
  - rewrite Hid0, <- Hlo', (items_of_app w w0 line Hi0), subtotals_app, Hlo', Hls.
    by rewrite (storable_products _ _ _ _ Hp0).
  - rewrite Hi0, Hid0. destruct Hline as (Hlo & Hlp & _).
    destruct Hdup as [Hd|Hd].
    + destruct (decide (product_id item ∈ map product_id items)) as [Hin|Hnin].
      * right. apply Exists_app. right. apply Exists_cons_hd. split; [done|].
        by rewrite Hlp.
      * left. intros Hnd. apply Hd. simpl. by apply NoDup_cons.
    + right. apply Exists_app. left.
      apply Exists_exists in Hd as (l & Hl & Hlo'' & Hlp').
      apply Exists_exists. exists l. split; [done|]. split; [done|].
      simpl in Hlp'. apply elem_of_cons in Hlp' as [Heq|?]; [|done].
      exfalso. rewrite Forall_forall in Hnot. by apply (Hnot l Hl).
  - exists w'. split; [by rewrite (bind_Ok _ _ _ _ _ Hadd) | congruence].
Qed.

Lemma validate_passed items w :
  OrderValidationService.validate_order_items items w = (Ok [], w) ->
  items <> [] /\ Forall (fun item => item_valid (db w) item = true) items.
Proof.
  unfold OrderValidationService.validate_order_items.
  destruct (bool_decide_reflect (items = [])) as [->|Hne]; [discriminate|].
  unfold read. intros [= H]. split; [done|].
  apply (items_errors_nil _ _ 1%nat) in H.
  eapply Forall_impl; [exact H|]. by intros it [_ ?].
Qed.

Lemma create_order_duplicate u items notes w :
  consistent (db w) ->
  OrderValidationService.validate_order_items items w = (Ok [], w) ->
  ~ NoDup (map product_id items) ->
  storable (db w) items 0 = true ->
  OrderService.create_order u items notes w = (Raise IntegrityError, w).
Proof.
  intros (Hfk & Hfree & _ & Hfresh) Hval Hdup Hfit.
  apply validate_passed in Hval as [Hne Hvalid].
  destruct (Order_objects_create_run (u_id u) 0 notes w eq_refl Hfree)
    as (o0 & w0 & Hcreate & Hseq0).
  pose proof Hcreate as Hinv.
  apply Order_objects_create_Ok in Hinv
    as (Ho0 & Hfree0 & Hrow0 & _ & Hp0 & Hi0 & _ & Hl0).
  assert (items_of w0 (o_id o0) = []) as Hnone.
  { unfold items_of. rewrite Hi0. destruct w as [d l].
    by apply (items_of_unknown_order d l). }
  destruct (add_items_duplicate items o0 w0 o0) as (w1 & Hloop & Hl1);
    [| done | | | by left |].
  { eapply Forall_impl; [exact Hvalid|]. intros it Hit. simpl in *.
    by rewrite (item_valid_products _ _ it Hp0). }
  { by rewrite Hi0, Hseq0. }
  { rewrite Hnone. by rewrite (storable_products _ _ _ _ Hp0). }
  unfold OrderService.create_order, atomic.
  rewrite bool_decide_false by done.
  rewrite (bind_Ok _ _ _ _ _ Hcreate), (bind_Raise' _ _ _ _ _ Hloop).
  destruct w as [d l]. simpl in *. by rewrite Hl1, Hl0.
Qed.

(** What the serializers hand to the views. *)
Lemma OrderCreateSerializer_valid items notes items' notes' :
  OrderCreateSerializer.is_valid items notes = Some (items', notes') -> items' = items.
Proof.
  unfold OrderCreateSerializer.is_valid. destruct (CharField _ _ _); [|discriminate].
  destruct (valid_items items); [|discriminate]. by intros [= <- _].
Qed.

Lemma CheckoutSerializer_valid items payment_provider notes items' payment_provider' notes' :
  CheckoutSerializer.is_valid items payment_provider notes
    = Some (items', payment_provider', notes') ->
  items' = items /\ payment_provider' = payment_provider /\
  (payment_provider = "stripe" \/ payment_provider = "bkash")%string.
Proof.
  unfold CheckoutSerializer.is_valid. destruct (CharField _ _ _); [|discriminate].
  destruct (valid_items items); [|discriminate]. simpl.
  destruct (CheckoutSerializer.valid_provider payment_provider) eqn:Hp; [|discriminate].
  intros [= <- <- _]. do 2 (split; [done|]).
  unfold CheckoutSerializer.valid_provider in Hp.
  apply orb_prop in Hp as [Hp|Hp]; apply bool_decide_eq_true in Hp; auto.
Qed.

(** X6. A request that names a product twice passes [validate_order_items]
    when each entry is fine on its own, but the second line breaks
    [unique_together (order, product)]: on a consistent database, and with
    amounts that fit their columns, [create_order] raises [IntegrityError],
    which is not a [ValidationError].  So neither [OrderViewSet.create] nor
    [checkout_view] turns it into a 400 answer once their serializer has
    accepted the request: it leaves them as an exception.  A request the
    serializer refuses is answered 400 before anything runs.  Either way
    nothing is stored and nothing is logged. *)
Theorem duplicate_product_is_an_integrity_error
    (provider : strategy -> order -> Z -> string -> provider_api)
    (u : user) (items : list item_data) (payment_provider notes : string) (w : world) :
  consistent (db w) ->
  OrderValidationService.validate_order_items items w = (Ok [], w) ->
  ~ NoDup (map product_id items) ->
  storable (db w) items 0 = true ->
  OrderService.create_order u items notes w = (Raise IntegrityError, w) /\
  OrderViewSet.create u items notes w =
    match OrderCreateSerializer.is_valid items notes with
    | Some _ => (Raise IntegrityError, w)
    | None => (Ok (Response_ 400 BodyInvalid), w)
    end /\
  checkout_view provider u items payment_provider notes w =
    match CheckoutSerializer.is_valid items payment_provider notes with
    | Some _ => (Raise IntegrityError, w)
    | None => (Ok (Response_ 400 BodyInvalid), w)
    end.
Proof.
  intros Hc Hval Hdup Hfit.
  pose proof (fun notes => create_order_duplicate u items notes w Hc Hval Hdup Hfit)
    as Hcreate.
  split; [done|]. split.
  - unfold OrderViewSet.create.
    destruct (OrderCreateSerializer.is_valid items notes) as [[items' notes']|] eqn:Hs;
      [|done].
    apply OrderCreateSerializer_valid in Hs as ->.
    rewrite (bind_Ok _ _ _ _ _ Hval).
    unfold try_except. by rewrite (bind_Raise' _ _ _ _ _ (Hcreate notes')).
  - unfold checkout_view.
    destruct (CheckoutSerializer.is_valid items payment_provider notes)
      as [[[items' payment_provider'] notes']|] eqn:Hs; [|done].
    apply CheckoutSerializer_valid in Hs as (-> & -> & _).
    assert (CheckoutService.create_order_and_initiate_payment
              provider u items payment_provider notes' w = (Raise IntegrityError, w)) as Hco.
    { unfold CheckoutService.create_order_and_initiate_payment, atomic.
      rewrite (bind_Ok _ _ _ _ _ Hval), (bind_Raise' _ _ _ _ _ (Hcreate notes')).
      by destruct w. }
    unfold try_except. by rewrite (bind_Raise' _ _ _ _ _ Hco).
Qed.

Lemma duplicate_product_is_an_integrity_error_witness :
  OrderValidationService.validate_order_items [Item_ 1 2; Item_ 1 3] shop = (Ok [], shop) /\
  checkout_view reporting_created alice [Item_ 1 2; Item_ 1 3] "stripe" "" shop
    = (Raise IntegrityError, shop) /\
  checkout_view reporting_created alice [Item_ 1 2; Item_ 1 3] "Stripe" "" shop
    = (Ok (Response_ 400 BodyInvalid), shop).
Proof.
  split; [reflexivity|].
  assert (consistent (db shop)) as Hc.
  { split; [constructor|]. split; [reflexivity|]. split; [discriminate | constructor]. }
  assert (~ NoDup (map product_id [Item_ 1 2; Item_ 1 3])) as Hdup.
  { intros H. apply NoDup_cons in H as [H _]. apply H. simpl. apply list_elem_of_here. }
  split.
  - destruct (duplicate_product_is_an_integrity_error reporting_created alice
                [Item_ 1 2; Item_ 1 3] "stripe" "" shop Hc eq_refl Hdup eq_refl)
      as (_ & _ & H).
    exact H.
  - destruct (duplicate_product_is_an_integrity_error reporting_created alice
                [Item_ 1 2; Item_ 1 3] "Stripe" "" shop Hc eq_refl Hdup eq_refl)
      as (_ & _ & H).
    exact H.
Defined.

(** ** The checkout that goes through *)

Lemma check_items_pure its : keeps (fun w => w) (OrderValidationService.check_items its).
Proof.
  induction its as [|item its IH]; simpl; [auto with keeps|].
  unfold Product.objects_get. apply keeps_bind; [keeps_steps|]. intros p.
  destruct (negb _); [auto with keeps|]. case_bool_decide; [auto with keeps | exact IH].
Qed.

Lemma can_proceed_pure o :
  keeps (fun w => w) (OrderValidationService.can_proceed_to_payment o).
Proof.
  unfold OrderValidationService.can_proceed_to_payment.
  repeat (case_bool_decide; [auto with keeps|]).
  apply keeps_bind; [unfold Order.items; auto with keeps|].
  intros [|i its]; [auto with keeps | apply check_items_pure].
Qed.

Lemma can_proceed_inv o w verdict w' :
  OrderValidationService.can_proceed_to_payment o w = (Ok verdict, w') ->
  w' = w /\ (fst verdict = true -> o_status o = OPending /\ 0 < o_total_amount o).
Proof.
  intros H. split; [by apply can_proceed_pure in H|].
  unfold OrderValidationService.can_proceed_to_payment in H.
  destruct (bool_decide_reflect (o_status o <> OPending)) as [Hs|Hs];
    [by injection H as <- _|].
  destruct (bool_decide_reflect (o_total_amount o <= 0)) as [Ht|Ht];
    [by injection H as <- _|].
  intros _. split; [|lia]. by destruct (decide (o_status o = OPending)).
Qed.

Lemma Payment_objects_create_Ok o provider txn amount currency status raw w pay w' :
  Payment.objects_create o provider txn amount currency status raw w = (Ok pay, w') ->
  exists t, txn = Some t /\
    pay = Payment_ (payment_seq (db w)) (o_id o) provider t amount currency status raw
                   "" None None /\
    payments (db w') = payments (db w) ++ [pay] /\
    payment_row w' (pay_id pay) = Some pay /\
    Forall (fun p => pay_transaction_id p <> t) (payments (db w)) /\
    products (db w') = products (db w) /\
    orders (db w') = orders (db w) /\
    order_items (db w') = order_items (db w) /\
    logs w' = logs w.
Proof.
  unfold Payment.objects_create. intros H.
  apply bind_inv_Ok in H as ([] & ? & [-> _]%decimal_column_inv & H). revert H.
  unfold bind at 1. unfold read at 1.
  destruct txn as [t|]; [|discriminate].
  unfold bind at 1. unfold read at 1.
  destruct (_ && _) eqn:Hok; simpl; [|discriminate].
  apply andb_prop in Hok as [Hok Huniq]. apply andb_prop in Hok as [_ Hfree].
  apply bool_decide_eq_true in Hfree.
  unfold bind, write, ret. simpl. intros [= <- <-]. exists t. simpl.
  split; [done|]. split; [done|]. split; [done|]. split.
  { unfold payment_row. simpl.
    by apply (row_get_app_new pay_id _
                (Payment_ (payment_seq (db w)) (o_id o) provider t amount currency
                          status raw "" None None)). }
  split; [|done].
  apply Forall_forall. intros p Hin Heq.
  assert (In p (payments (db w))) as Hin' by (by apply list_elem_of_In).
  pose proof (proj1 (forallb_forall _ _) Huniq p Hin') as Hp. simpl in Hp.
  rewrite bool_decide_true in Hp by done. discriminate.
Qed.

(** X7. What a checkout that returns has done.  The order is stored pending
    for the caller with a positive total; exactly one payment has been added,
    pending, not completed, for that order and that total, under the
    provider's transaction id, which no earlier payment had; the provider
    name is stored in lower case and is one [get_payment_strategy] accepts;
    the currency is BDT for bKash and USD otherwise.  No product has changed:
    a checkout takes no stock.  Nothing is logged. *)
Theorem checkout_stores_one_pending_payment
    (provider : strategy -> order -> Z -> string -> provider_api)
    (u : user) (items : list item_data) (payment_provider notes : string)
    (w : world) (c : checkout_result) (w' : world) :
  CheckoutService.create_order_and_initiate_payment
    provider u items payment_provider notes w = (Ok c, w') ->
  exists o pay s,
    order_row w' (c_order_id c) = Some o /\
    o_status o = OPending /\ o_user o = u_id u /\
    o_total_amount o = c_amount c /\ 0 < c_amount c /\
    payments (db w') = payments (db w) ++ [pay] /\
    payment_row w' (c_payment_id c) = Some pay /\
    pay_order pay = c_order_id c /\ pay_status pay = PPending /\
    pay_completed_at pay = None /\ pay_amount pay = c_amount c /\
    pay_transaction_id pay = c_transaction_id c /\
    Forall (fun p => pay_transaction_id p <> c_transaction_id c) (payments (db w)) /\
    pay_provider pay = lower payment_provider /\
    get_payment_strategy (pay_provider pay) w' = (Ok s, w') /\
    pay_currency pay = c_currency c /\
    c_currency c = (if bool_decide (lower payment_provider = "bkash") then "BDT" else "USD") /\
    products (db w') = products (db w) /\
    logs w' = logs w.
Proof.
  unfold CheckoutService.create_order_and_initiate_payment, atomic. intros H.
  destruct (bind _ _ w) as [[c0|e] w0] eqn:Hbody in H; [|discriminate].
  injection H as -> ->.
  apply bind_inv_Ok in Hbody as (errs & w1 & Hval & H).
  assert (w1 = w) as ->.
  { unfold OrderValidationService.validate_order_items, read, ret in Hval.
    destruct (bool_decide (items = [])); by injection Hval as _ <-. }
  destruct errs as [|err errs]; [|discriminate].
  apply bind_inv_Ok in H as (o & w2 & Hcreate & H).
  apply create_order_Ok in Hcreate
    as (_ & _ & _ & _ & Hrow & Huser & Hst & _ & _ & Hp2 & Hpay2 & Hl2 & _).
  apply bind_inv_Ok in H as (verdict & w3 & Hcan & H).
  apply can_proceed_inv in Hcan as [-> Hcan].
  destruct (fst verdict) eqn:Hv; simpl in H; [|discriminate].
  destruct (Hcan eq_refl) as [_ Htotal].
  unfold try_except in H.
  destruct (bind (get_payment_strategy payment_provider) _ w2) as [[c1|e] w4] eqn:Htry.
  2: { simpl in H. unfold bind, logger, raise in H. discriminate. }
  injection H as -> ->.
  apply bind_inv_Ok in Htry as (s & w5 & Hs & Htry).
  pose proof (get_payment_strategy_pure _ _ _ _ Hs) as ->.
  apply bind_inv_Ok in Htry as (result & w5 & Hcall & Htry).
  destruct (r_success result) eqn:Hok; simpl in Htry; [|discriminate].
  destruct (strategy_success _ _ _ _ _ (or_introl Hcall) Hok) as [-> _].
  apply bind_inv_Ok in Htry as (pay & w6 & Hpc & Hret). injection Hret as <- ->.
  apply Payment_objects_create_Ok in Hpc
    as (t & Ht & Hpay & Hpays & Hprow & Hfresh & Hp6 & Ho6 & _ & Hl6).
  exists o, pay, s. simpl.
  assert (order_row w' (o_id o) = Some o) as Hrow'.
  { unfold order_row in *. by rewrite Ho6. }
  split; [done|]. do 2 (split; [done|]). split; [done|]. split; [done|].
  split; [by rewrite Hpays, Hpay2|]. split; [done|].
  subst pay. simpl. do 5 (split; [done|]).
  split; [by rewrite <- Hpay2|]. split; [done|].
  split.
  { unfold get_payment_strategy in *.
    destruct (bool_decide_reflect (lower payment_provider = "stripe")) as [->|_];
      [by injection Hs as <-|].
    destruct (bool_decide_reflect (lower payment_provider = "bkash")) as [->|_];
      [by injection Hs as <-|].
    discriminate. }
  split; [done|]. split; [done|]. split; [congruence | congruence].
Qed.

Lemma checkout_stores_one_pending_payment_witness :
  exists c w',
    checkout_view reporting_created alice [Item_ 1 2] "stripe" "" shop
      = (Ok (Response_ 201 (BodyCheckout c)), w') /\
    o_status <$> order_row w' (c_order_id c) = Some OPending /\
    payments (db w') =
      [Payment_ 1 1 "stripe" "pi_1" 10000 "USD" PPending [("id", "pi_1")] "" None None] /\
    products (db w') = products (db shop).
Proof.
  destruct (CheckoutService.create_order_and_initiate_payment
              reporting_created alice [Item_ 1 2] "stripe" "" shop) as [r w'] eqn:E.
  assert (r = Ok (Checkout_ 1 1 "pi_1" 10000 "USD" "stripe" (Some "secret_1") None))
    as -> by (vm_compute in E; congruence).
  destruct (checkout_stores_one_pending_payment _ _ _ _ _ _ _ _ E)
    as (o & pay & s & Hrow & Hst & _ & _ & _ & Hpays & Hprow & _ & _ & _ & _ & _ & _
        & _ & _ & _ & _ & Hp & _).
  eexists _, w'. split.
  - change (checkout_view reporting_created alice [Item_ 1 2] "stripe" "" shop)
      with (try_except
              (result <- CheckoutService.create_order_and_initiate_payment
                           reporting_created alice [Item_ 1 2] "stripe" "" ;;
               ret (Response_ 201 (BodyCheckout result)))
              is_ValidationError
              (fun e =>
                 match e with
                 | ValidationError (ItemErrors _) => raise AttributeError
                 | _ => ret (Response_ 400 (BodyError (str e)))
                 end) shop).
    unfold try_except. by rewrite (bind_Ok _ _ _ _ _ E).
  - split; [rewrite Hrow; simpl; by rewrite Hst|]. split; [|exact Hp].
    vm_compute in E. by injection E as <-.
Defined.

(** ** Marking a payment *)

(** X8. A payment is marked successful while its order is no longer pending
    (cancelled meanwhile, or paid by another payment).  [mark_as_success]
    returns normally; the payment row has status [PSuccess] and completion
    time [now]; the refusal of [mark_as_paid] is one warning in the log; and
    orders, order lines and products are exactly as before. *)
Theorem success_for_an_order_not_pending
    (self : payment) (data : option json) (now : Z) (w : world) (r : payment) (o : order) :
  payment_row w (pay_id self) = Some r ->
  order_row w (pay_order self) = Some o ->
  o_status o <> OPending ->
  exists self1 w1,
    Payment.mark_as_success self data now w = (Ok self1, w1) /\
    pay_status self1 = PSuccess /\
    pay_status <$> payment_row w1 (pay_id self) = Some PSuccess /\
    pay_completed_at <$> payment_row w1 (pay_id self) = Some (Some now) /\
    orders (db w1) = orders (db w) /\
    order_items (db w1) = order_items (db w) /\
    products (db w1) = products (db w) /\
    logs w1 = logs w ++ [Log_ Warning "payments" (pay_id self) (CannotMarkPaid (o_status o))].
Proof.
  intros Hr Ho Hst. unfold Payment.mark_as_success.
  set (self1 := Payment.with_outcome self PSuccess _ _ _).
  destruct (Payment_save_Some self1 (Payment.cols_success self1) w r)
    as (Hsave & Hprow & _); [done..|].
  set (t := row_put _ _ _) in *.
  exists self1, (World_ (db (with_payments t w))
                        (logs w ++ [Log_ Warning "payments" (pay_id self)
                                         (CannotMarkPaid (o_status o))])).
  split.
  - rewrite (bind_Ok _ _ _ _ _ Hsave).
    assert (Order.objects_get (pay_order self1) (with_payments t w)
            = (Ok o, with_payments t w)) as Hget by (by apply Order_objects_get_Some).
    unfold bind at 1. unfold try_except.
    rewrite (bind_Ok _ _ _ _ _ Hget).
    unfold bind at 1. rewrite (mark_as_paid_rejects o _ Hst). simpl. done.
  - split; [done|]. unfold payment_row in *. simpl in *. rewrite Hprow. done.
Qed.

Lemma success_for_an_order_not_pending_witness :
  let self := Payment_ 1 1 "stripe" "pi_1" 10600 "USD" PSuccess
                       [("id", "pi_1"); ("status", "succeeded")] "" None (Some 100) in
  exists self1 w1,
    Payment.mark_as_success self None 200 shop_paid = (Ok self1, w1) /\
    pay_completed_at <$> payment_row w1 1 = Some (Some 200) /\
    orders (db w1) = orders (db shop_paid) /\
    products (db w1) = products (db shop_paid) /\
    logs w1 = [Log_ Warning "payments" 1 (CannotMarkPaid OPaid)].
Proof.
  intros self.
  destruct (success_for_an_order_not_pending self None 200 shop_paid self
              (Order_ 1 7 10600 OPaid "")) as (self1 & w1 & H1 & _ & _ & H2 & H3 & _ & H4 & H5);
    [reflexivity | reflexivity | discriminate |].
  by exists self1, w1.
Defined.

(** X9. A payment is marked successful while its order is pending and the
    stock suffices ([mark_as_paid] returns on that order).  Then
    [mark_as_success] returns; the payment row has status [PSuccess] and
    completion time [now], the order is stored [OPaid], every product has
    lost exactly the quantity the order's lines hold of it, and nothing is
    logged. *)
Theorem success_pays_the_order
    (self : payment) (data : option json) (now : Z) (w : world) (r : payment)
    (o o1 : order) (w' : world) :
  payment_row w (pay_id self) = Some r ->
  order_row w (pay_order self) = Some o ->
  Order.mark_as_paid o w = (Ok o1, w') ->
  exists self1 w1,
    Payment.mark_as_success self data now w = (Ok self1, w1) /\
    pay_status <$> payment_row w1 (pay_id self) = Some PSuccess /\
    pay_completed_at <$> payment_row w1 (pay_id self) = Some (Some now) /\
    o_status <$> order_row w1 (pay_order self) = Some OPaid /\
    (forall k, stock_of w1 k =
       (fun s => s - quantity_of k (items_of w (pay_order self))) <$> stock_of w k) /\
    logs w1 = logs w.
Proof.
  intros Hr Ho Hpaid. unfold Payment.mark_as_success.
  pose proof (row_get_key _ _ _ _ Ho) as Hoid.
  set (self1 := Payment.with_outcome self PSuccess _ _ _).
  destruct (Payment_save_Some self1 (Payment.cols_success self1) w r)
    as (Hsave & Hprow & _); [done..|].
  set (t := row_put _ _ _) in *.
  exists self1, (with_payments t w').
  pose proof (Order_mark_as_paid_keeps (fun w => payments (db w)) o
                (fun _ _ _ => eq_refl) (fun _ _ _ => eq_refl) _ _ _ Hpaid) as Hpk.
  pose proof (Order_mark_as_paid_keeps logs o
                (fun _ _ _ => eq_refl) (fun _ _ _ => eq_refl) _ _ _ Hpaid) as Hlk.
  apply mark_as_paid_inv in Hpaid as Hinv.
  destruct Hinv as (_ & _ & Hrow & _ & _ & Hstock).
  split.
  - rewrite (bind_Ok _ _ _ _ _ Hsave).
    assert (Order.objects_get (pay_order self1) (with_payments t w)
            = (Ok o, with_payments t w)) as Hget by (by apply Order_objects_get_Some).
    unfold bind at 1. unfold try_except.
    rewrite (bind_Ok _ _ _ _ _ Hget).
    unfold bind at 1. rewrite (blind_mark_as_paid o t w), Hpaid. simpl. done.
  - rewrite Hoid in Hrow, Hstock.
    split; [|split; [|split; [exact Hrow | split; [exact Hstock | exact Hlk]]]].
    + unfold payment_row in *. simpl in *. by rewrite Hprow.
    + unfold payment_row in *. simpl in *. by rewrite Hprow.
Qed.

Lemma success_pays_the_order_witness :
  let self := Payment_ 1 1 "stripe" "pi_1" 10600 "USD" PPending [] "" None None in
  exists self1 w1,
    Payment.mark_as_success self None 100 shop_pending = (Ok self1, w1) /\
    o_status <$> order_row w1 1 = Some OPaid /\
    stock_of w1 1 = Some 8 /\ stock_of w1 2 = Some 0 /\
    logs w1 = [].
Proof.
  intros self.
  destruct (success_pays_the_order self None 100 shop_pending self
              (Order_ 1 7 10600 OPending "") (Order_ 1 7 10600 OPaid "")
              (snd (Order.mark_as_paid (Order_ 1 7 10600 OPending "") shop_pending)))
    as (self1 & w1 & H1 & _ & _ & H2 & H3 & H4); [reflexivity..|].
  exists self1, w1. split; [done|]. split; [done|].
  split; [exact (H3 1)|]. split; [exact (H3 2) | exact H4].
Defined.

(** ** Who may touch a payment *)

Lemma permission_denied_run u p w o :
  order_row w (pay_order p) = Some o ->
  permission_denied u p w =
    (Ok (bool_decide (o_user o <> u_id u) && negb (has_admin_privileges u)), w).
Proof.
  intros Ho. unfold permission_denied.
  by rewrite (bind_Ok _ _ _ _ _ (Order_objects_get_Some _ _ _ Ho)).
Qed.

(** X10. A user who neither owns the order of a payment nor has admin
    privileges gets 403 from the confirm view and from the status poll, and a
    user without admin privileges gets 403 from the refund view, whatever
    payment is named; in each case the provider is not consulted and the
    world is exactly as before. *)
Theorem payment_views_refuse_strangers (u : user) (w : world) :
  has_admin_privileges u = false ->
  (forall p o,
     find (Payment.by_transaction_id (Some (pay_transaction_id p))) (payments (db w))
       = Some p ->
     order_row w (pay_order p) = Some o ->
     o_user o <> u_id u ->
     (forall api t now,
        PaymentConfirmSerializer.is_valid t = Some (pay_transaction_id p) ->
        confirm_payment_view api u t now w
          = (Ok (Response_ 403 (BodyText "Permission denied")), w)) /\
     (forall api now,
        payment_status_view api u (pay_transaction_id p) now w
          = (Ok (Response_ 403 (BodyText "Permission denied")), w))) /\
  (forall api payment_id amount reason,
     refund_payment_view api u payment_id amount reason w
       = (Ok (Response_ 403 (BodyText "Permission denied. Admin access required.")), w)).
Proof.
  intros Hadmin. split.
  - intros p o Hfind Ho Hother.
    pose proof (permission_denied_run u p w o Ho) as Hperm.
    rewrite Hadmin, bool_decide_true in Hperm by done. simpl in Hperm.
    split.
    + intros api t now Ht. unfold confirm_payment_view. rewrite Ht.
      unfold try_except.
      rewrite (bind_Ok _ _ _ _ _ (Payment_objects_get_Some _ _ _ Hfind)).
      by rewrite (bind_Ok _ _ _ _ _ Hperm).
    + intros api now. unfold payment_status_view, try_except.
      rewrite (bind_Ok _ _ _ _ _ (Payment_objects_get_Some _ _ _ Hfind)).
      by rewrite (bind_Ok _ _ _ _ _ Hperm).
  - intros api payment_id amount reason. unfold refund_payment_view.
    by rewrite Hadmin.
Qed.

Lemma payment_views_refuse_strangers_witness :
  let mallory := User_ 9 false false in
  confirm_payment_view reporting_succeeded mallory " pi_1 " 200 shop_pending
    = (Ok (Response_ 403 (BodyText "Permission denied")), shop_pending) /\
  payment_status_view reporting_succeeded mallory "pi_1" 200 shop_pending
    = (Ok (Response_ 403 (BodyText "Permission denied")), shop_pending) /\
  refund_payment_view reporting_succeeded mallory 1 None "" shop_pending
    = (Ok (Response_ 403 (BodyText "Permission denied. Admin access required.")),
       shop_pending).
Proof.
  intros mallory.
  destruct (payment_views_refuse_strangers mallory shop_pending eq_refl) as [H H3].
  destruct (H (Payment_ 1 1 "stripe" "pi_1" 10600 "USD" PPending [] "" None None)
              (Order_ 1 7 10600 OPending ""))
    as (H1 & H2); [reflexivity | reflexivity | discriminate |].
  split; [by apply H1|]. split; [apply H2 | apply H3].
Defined.

(** ** The user confirm *)

(** X11. A permitted user confirms a pending payment.  If the provider
    refuses the call, the view answers 400 with the provider's error, the
    payment is stored [PFailed] with that message and completion time [now],
    the log gains the errors of the strategy followed by the error of the
    view, and orders and products are untouched.  If the provider answers,
    the payment is stored [PSuccess] with completion time [now], whatever
    becomes of the order. *)
Theorem confirm_follows_the_provider
    (api : strategy -> provider_api) (u : user) (t : string) (now : Z) (w : world)
    (p : payment) (s : strategy) :
  PaymentConfirmSerializer.is_valid t = Some (pay_transaction_id p) ->
  find (Payment.by_transaction_id (Some (pay_transaction_id p))) (payments (db w)) = Some p ->
  payment_row w (pay_id p) = Some p ->
  pay_status p = PPending ->
  permission_denied u p w = (Ok false, w) ->
  get_payment_strategy (pay_provider p) w = (Ok s, w) ->
  (forall e, met s (api s) = Throws e ->
   exists w1,
     confirm_payment_view api u t now w = (Ok (Response_ 400 (BodyText e)), w1) /\
     pay_status <$> payment_row w1 (pay_id p) = Some PFailed /\
     pay_error_message <$> payment_row w1 (pay_id p) = Some e /\
     pay_completed_at <$> payment_row w1 (pay_id p) = Some (Some now) /\
     orders (db w1) = orders (db w) /\ products (db w1) = products (db w) /\
     logs w1 = logs w ++ refusal_log s ConfirmPayment (api s) ++
                 [Log_ Error "payments" (pay_id p) (ProviderError (Some e))]) /\
  (forall a, met s (api s) = Responds a ->
   forall res w1,
     confirm_payment_view api u t now w = (res, w1) ->
     pay_status <$> payment_row w1 (pay_id p) = Some PSuccess /\
     pay_completed_at <$> payment_row w1 (pay_id p) = Some (Some now)).
Proof.
  intros Ht Hfind Hrow Hst Hperm Hs.
  split.
  - intros e Hmet.
    destruct (strategy_refused s (api s) e w Hmet) as (_ & Hcall & _).
    set (w0 := World_ (db w) (logs w ++ refusal_log s ConfirmPayment (api s))) in *.
    destruct (mark_as_failed_run p e (Some (reply_dict (refused e))) now w0 p Hrow)
      as (Hrun & Hprow & _).
    eexists. split.
    + unfold confirm_payment_view. rewrite Ht. unfold try_except.
      rewrite (bind_Ok _ _ _ _ _ (Payment_objects_get_Some _ _ _ Hfind)).
      rewrite (bind_Ok _ _ _ _ _ Hperm). simpl.
      unfold Payment.is_pending. rewrite (bool_decide_true _ Hst). simpl.
      rewrite (bind_Ok _ _ _ _ _ Hs), (bind_Ok _ _ _ _ _ Hcall). simpl.
      rewrite (bind_Ok _ _ _ _ _ Hrun).
      unfold bind, logger, ret. simpl. reflexivity.
    + unfold payment_row in *. simpl in *. rewrite Hprow.
      by rewrite <- app_assoc.
  - intros a Hmet res w1.
    destruct (strategy_answered s (api s) a w Hmet) as (_ & (r & Hcall & Hok & _) & _).
    unfold confirm_payment_view. rewrite Ht. unfold try_except.
    rewrite (bind_Ok _ _ _ _ _ (Payment_objects_get_Some _ _ _ Hfind)).
    rewrite (bind_Ok _ _ _ _ _ Hperm). simpl.
    unfold Payment.is_pending. rewrite (bool_decide_true _ Hst). simpl.
    rewrite (bind_Ok _ _ _ _ _ Hs), (bind_Ok _ _ _ _ _ Hcall), Hok.
    unfold bind at 1.
    destruct (Payment.mark_as_success p _ now w) as [[p1|e] w2] eqn:Hmark;
      pose proof (mark_as_success_stores _ _ _ _ _ _ _ Hrow Hmark) as Hstored.
    + intros [= _ <-]. by rewrite Hstored.
    + apply mark_as_success_raises in Hmark.
      destruct e; try done; intros [= _ <-]; by rewrite Hstored.
Qed.

Lemma confirm_follows_the_provider_witness :
  let p := Payment_ 1 1 "stripe" "pi_1" 10600 "USD" PPending [] "" None None in
  let declined := fun _ : strategy => Api_ None (Throws "card declined") in
  exists w1,
    confirm_payment_view declined alice "pi_1" 200 shop_pending
      = (Ok (Response_ 400 (BodyText "card declined")), w1) /\
    pay_status <$> payment_row w1 1 = Some PFailed /\
    orders (db w1) = orders (db shop_pending) /\
    logs w1 = [Log_ Error "payments" 0 (StrategyError Stripe ConfirmPayment "card declined");
               Log_ Error "payments" 1 (ProviderError (Some "card declined"))].
Proof.
  intros p declined.
  destruct (confirm_follows_the_provider declined alice "pi_1" 200 shop_pending p Stripe)
    as [H _]; [reflexivity.. |].
  destruct (H "card declined"%string eq_refl) as (w1 & H1 & H2 & _ & _ & H3 & _ & H4).
  by exists w1.
Defined.

(** ** Refunds *)

(** X12. An admin refunds a successful payment.  A request the serializer
    refuses is answered 400 and changes nothing.  Otherwise, if the provider
    answers, the payment is stored [PRefunded] with the refund recorded (the
    provider's refund id, the reason, and as amount the requested one or,
    when none or zero was requested, the whole payment); completion time,
    order, stock and log are untouched, so a refund neither cancels the
    order nor restocks.  If the provider refuses the call, the view answers
    400 with the provider's error, the log gains the errors of the strategy
    followed by the error of the view, and the database is unchanged. *)
Theorem refund_records_and_keeps_the_order
    (api : strategy -> provider_api) (u : user) (amount : option Z) (reason : string)
    (w : world) (p : payment) (s : strategy) :
  has_admin_privileges u = true ->
  find (Payment.by_id (pay_id p)) (payments (db w)) = Some p ->
  pay_status p = PSuccess ->
  get_payment_strategy (pay_provider p) w = (Ok s, w) ->
  match PaymentRefundSerializer.is_valid amount reason with
  | None =>
      refund_payment_view api u (pay_id p) amount reason w
        = (Ok (Response_ 400 BodyInvalid), w)
  | Some (amount', reason') =>
      (forall a, met s (api s) = Responds a ->
       let refunded := match amount' with
                       | Some v => if bool_decide (v = 0) then pay_amount p else v
                       | None => pay_amount p
                       end in
       exists p1 w1,
         refund_payment_view api u (pay_id p) amount reason w
           = (Ok (Response_ 200 (BodyPayment p1)), w1) /\
         payment_row w1 (pay_id p) = Some p1 /\
         pay_status p1 = PRefunded /\
         pay_metadata_refund p1 = Some (Refund_ (a_refund_id a) refunded reason') /\
         pay_completed_at p1 = pay_completed_at p /\ pay_amount p1 = pay_amount p /\
         orders (db w1) = orders (db w) /\ products (db w1) = products (db w) /\
         logs w1 = logs w) /\
      (forall e, met s (api s) = Throws e ->
       refund_payment_view api u (pay_id p) amount reason w
         = (Ok (Response_ 400 (BodyText e)),
            World_ (db w)
                   (logs w ++ refusal_log s RefundPayment (api s) ++
                      [Log_ Error "payments" (pay_id p) (ProviderError (Some e))])))
  end.
Proof.
  intros Hadmin Hfind Hst Hs.
  pose proof Hfind as Hrow. rewrite find_by_id in Hrow.
  destruct (PaymentRefundSerializer.is_valid amount reason) as [[amount' reason']|] eqn:Hv.
  2: { unfold refund_payment_view. by rewrite Hadmin, Hv. }
  split.
  - intros a Hmet refunded.
    destruct (strategy_answered s (api s) a w Hmet) as (_ & _ & _ & (r & Hcall & Hok & Hid)).
    set (p1 := Payment.with_refund p PRefunded
                 (Some (Refund_ (a_refund_id a) refunded reason'))).
    destruct (Payment_save_Some p1 (Payment.cols_refund p1) w p)
      as (Hsave & Hprow & _); [done..|].
    exists p1, (with_payments (row_put pay_id (Payment.cols_refund p1 p) (payments (db w))) w).
    split.
    + unfold refund_payment_view. rewrite Hadmin, Hv. simpl.
      unfold bind at 1. unfold read at 1. rewrite Hfind.
      unfold Payment.can_be_refunded. rewrite (bool_decide_true _ Hst). simpl.
      rewrite (bind_Ok _ _ _ _ _ Hs), (bind_Ok _ _ _ _ _ Hcall), Hok, Hid.
      fold refunded. fold p1.
      by rewrite (bind_Ok _ _ _ _ _ Hsave).
    + split; [exact Hprow|]. done.
  - intros e Hmet.
    destruct (strategy_refused s (api s) e w Hmet) as (_ & _ & _ & Hcall).
    unfold refund_payment_view. rewrite Hadmin, Hv. simpl.
    unfold bind at 1. unfold read at 1. rewrite Hfind.
    unfold Payment.can_be_refunded. rewrite (bool_decide_true _ Hst). simpl.
    rewrite (bind_Ok _ _ _ _ _ Hs), (bind_Ok _ _ _ _ _ Hcall). simpl.
    unfold bind, logger, ret. simpl. by rewrite <- app_assoc.
Qed.

Lemma refund_records_and_keeps_the_order_witness :
  let refunding := fun _ : strategy =>
    Api_ None (Responds (Object_ None (Some "succeeded") None None (Some "re_1") None
                                 [("id", "re_1")])) in
  exists p1 w1,
    refund_payment_view refunding root 1 None " customer request " shop_paid
      = (Ok (Response_ 200 (BodyPayment p1)), w1) /\
    pay_status p1 = PRefunded /\
    pay_metadata_refund p1 = Some (Refund_ (Some "re_1") 10600 "customer request") /\
    orders (db w1) = orders (db shop_paid) /\ products (db w1) = products (db shop_paid).
Proof.
  intros refunding.
  pose proof (refund_records_and_keeps_the_order refunding root None " customer request "
                shop_paid
                (Payment_ 1 1 "stripe" "pi_1" 10600 "USD" PSuccess
                          [("id", "pi_1"); ("status", "succeeded")] "" None (Some 100))
                Stripe eq_refl eq_refl eq_refl eq_refl) as H.
  assert (PaymentRefundSerializer.is_valid None " customer request "
          = Some (None, "customer request"%string)) as Hv by (vm_compute; reflexivity).
  rewrite Hv in H. destruct H as [H _].
  destruct (H _ eq_refl) as (p1 & w1 & H1 & _ & H2 & H3 & _ & _ & H4 & H5 & _).
  by exists p1, w1.
Defined.

(** ** The Stripe webhook *)

(** X13. What the Stripe webhook does not act on.  A request that fails
    verification, by its payload or by its signature, is answered 400; the
    strategy logs an error and the view logs another.  A verified event of
    any type other than [payment_intent.succeeded] and
    [payment_intent.payment_failed] is answered 200 and leaves the world as
    it is.  A verified event of one of these two types whose transaction id
    belongs to no payment is answered 200 and logged as a warning.  In none
    of these cases does the database change. *)
Theorem webhook_ignores_what_it_does_not_know (now : Z) (w : world) :
  (forall e,
     stripe_webhook_view (BadPayload e) now w
       = (Ok (Response_ 400 BodyEmpty),
          World_ (db w)
                 (logs w ++ [Log_ Error "payments" 0 (WebhookError "Invalid payload" e);
                             Log_ Error "payments" 0
                                  (ProviderError (Some "Invalid payload"))]))) /\
  (forall e,
     stripe_webhook_view (BadSignature e) now w
       = (Ok (Response_ 400 BodyEmpty),
          World_ (db w)
                 (logs w ++ [Log_ Error "payments" 0 (WebhookError "Invalid signature" e);
                             Log_ Error "payments" 0
                                  (ProviderError (Some "Invalid signature"))]))) /\
  (forall type data,
     type <> "payment_intent.succeeded"%string ->
     type <> "payment_intent.payment_failed"%string ->
     stripe_webhook_view (Event type data) now w = (Ok (Response_ 200 BodyEmpty), w)) /\
  (forall type data,
     type = "payment_intent.succeeded"%string \/
       type = "payment_intent.payment_failed"%string ->
     find (Payment.by_transaction_id (d_id data)) (payments (db w)) = None ->
     stripe_webhook_view (Event type data) now w
       = (Ok (Response_ 200 BodyEmpty),
          World_ (db w) (logs w ++ [Log_ Warning "payments" 0 (Text "Payment not found")]))).
Proof.
  split; [|split; [|split]].
  - intros e. unfold stripe_webhook_view, bind, logger, ret. simpl.
    by rewrite <- app_assoc.
  - intros e. unfold stripe_webhook_view, bind, logger, ret. simpl.
    by rewrite <- app_assoc.
  - intros type data H1 H2. unfold stripe_webhook_view. simpl.
    unfold bind at 1. unfold ret at 1. simpl.
    rewrite !bool_decide_false by congruence. done.
  - intros type data Hev Hnone. unfold stripe_webhook_view. simpl.
    unfold bind at 1. unfold ret at 1. simpl.
    assert (Payment.objects_get (Payment.by_transaction_id (d_id data)) w
            = (Raise PaymentDoesNotExist, w)) as Hget.
    { unfold Payment.objects_get, bind, read. by rewrite Hnone. }
    destruct Hev as [->| ->]; simpl.
    + unfold bind at 1. unfold try_except. by rewrite (bind_Raise' _ _ _ _ _ Hget).
    + unfold bind at 1. unfold try_except. by rewrite (bind_Raise' _ _ _ _ _ Hget).
Qed.

Lemma webhook_ignores_what_it_does_not_know_witness :
  stripe_webhook_view (Event "charge.refunded" (Event_ [("id", "ch_1")] (Some "ch_1") Missing))
                      200 shop_paid
    = (Ok (Response_ 200 BodyEmpty), shop_paid) /\
  stripe_webhook_view (Event "payment_intent.succeeded"
                             (Event_ [("id", "pi_9")] (Some "pi_9") Missing))
                      200 shop_paid
    = (Ok (Response_ 200 BodyEmpty),
       World_ (db shop_paid) [Log_ Warning "payments" 0 (Text "Payment not found")]).
Proof.
  destruct (webhook_ignores_what_it_does_not_know 200 shop_paid) as (_ & _ & H1 & H2).
  split.
  - apply H1; discriminate.
  - apply (H2 "payment_intent.succeeded"%string
              (Event_ [("id", "pi_9")] (Some "pi_9") Missing)); [by left | reflexivity].
Defined.

(** X14. A verified [payment_intent.payment_failed] event for a stored
    payment marks it failed whatever its status was: the row gets status
    [PFailed], the event's error message (or "Payment failed" where the
    event has no [last_payment_error], or one without a message) and
    completion time [now]; the view answers 200, logs nothing and leaves
    orders, order lines and products alone, so the order of a payment that
    had already succeeded stays paid.  An event whose [last_payment_error]
    is null makes the view raise [AttributeError], and one whose message is
    null [IntegrityError]; both leave the world as it is. *)
Theorem failed_webhook_overrides_any_status
    (data : event_object) (now : Z) (w : world) (p : payment) :
  find (Payment.by_transaction_id (d_id data)) (payments (db w)) = Some p ->
  payment_row w (pay_id p) = Some p ->
  let view := stripe_webhook_view (Event "payment_intent.payment_failed" data) now w in
  let stored message :=
    exists w1,
      view = (Ok (Response_ 200 BodyEmpty), w1) /\
      pay_status <$> payment_row w1 (pay_id p) = Some PFailed /\
      pay_error_message <$> payment_row w1 (pay_id p) = Some message /\
      pay_completed_at <$> payment_row w1 (pay_id p) = Some (Some now) /\
      orders (db w1) = orders (db w) /\
      order_items (db w1) = order_items (db w) /\
      products (db w1) = products (db w) /\
      logs w1 = logs w in
  match d_last_payment_error data with
  | Missing | Value Missing => stored "Payment failed"%string
  | Value (Value message) => stored message
  | Null => view = (Raise AttributeError, w)
  | Value Null => view = (Raise IntegrityError, w)
  end.
Proof.
  intros Hfind Hrow view stored.
  assert (forall message,
            last_payment_error_message data w = (Ok (Some message), w) ->
            stored message) as Hstored.
  { intros message Hmsg.
    destruct (mark_as_failed_run p message (Some (d_json data)) now w p Hrow)
      as (Hrun & Hprow & _).
    eexists. split.
    - unfold view, stripe_webhook_view. simpl.
      unfold bind at 1. unfold ret at 1. simpl.
      unfold bind at 1. unfold try_except.
      rewrite (bind_Ok _ _ _ _ _ (Payment_objects_get_Some _ _ _ Hfind)).
      rewrite (bind_Ok _ _ _ _ _ Hmsg).
      rewrite (bind_Ok _ _ _ _ _ Hrun). reflexivity.
    - unfold payment_row in *. simpl in *. rewrite Hprow. done. }
  assert (forall e, e = AttributeError \/ e = IntegrityError ->
            (last_payment_error_message data w = (Raise e, w) \/
             e = IntegrityError /\ last_payment_error_message data w = (Ok None, w)) ->
            view = (Raise e, w)) as Hraised.
  { intros e He Hmsg.
    unfold view, stripe_webhook_view. simpl.
    unfold bind at 1. unfold ret at 1. simpl.
    unfold bind at 1. unfold try_except.
    rewrite (bind_Ok _ _ _ _ _ (Payment_objects_get_Some _ _ _ Hfind)).
    destruct Hmsg as [Hmsg|[-> Hmsg]].
    - rewrite (bind_Raise' _ _ _ _ _ Hmsg). by destruct He as [-> | ->].
    - by rewrite (bind_Ok _ _ _ _ _ Hmsg). }
  unfold last_payment_error_message in *.
  destruct (d_last_payment_error data) as [| |[| |message]].
  - by apply Hstored.
  - apply Hraised; auto.
  - by apply Hstored.
  - apply Hraised; auto.
  - by apply Hstored.
Qed.

Lemma failed_webhook_overrides_any_status_witness :
  let data := Event_ [("id", "pi_1")] (Some "pi_1") Missing in
  exists w1,
    stripe_webhook_view (Event "payment_intent.payment_failed" data) 200 shop_paid
      = (Ok (Response_ 200 BodyEmpty), w1) /\
    pay_status <$> payment_row w1 1 = Some PFailed /\
    pay_error_message <$> payment_row w1 1 = Some "Payment failed"%string /\
    o_status <$> order_row w1 1 = Some OPaid.
Proof.
  intros data.
  destruct (failed_webhook_overrides_any_status data 200 shop_paid
              (Payment_ 1 1 "stripe" "pi_1" 10600 "USD" PSuccess
                        [("id", "pi_1"); ("status", "succeeded")] "" None (Some 100))
              eq_refl eq_refl)
    as (w1 & H1 & H2 & H3 & _ & H4 & _).
  exists w1. split; [done|]. split; [done|]. split; [done|].
  unfold order_row. by rewrite H4.
Defined.

(** ** The status poll *)

(** X15. What a status poll by a permitted user does to a stored payment.
    If the provider refuses the call, the poll answers 400 with the
    provider's error, the log gains the errors of the strategy, and the
    database is unchanged.  If the provider answers without a status, the
    poll raises [AttributeError].  If it reports a status that is neither a
    success word nor a failure word, or reports success for a payment
    already [PSuccess], the poll answers 200 with the payment; in these
    three cases the world is exactly as before (so, unlike the webhook, a
    repeated success does not touch [completed_at]).  If the provider
    reports a failure word and the payment is neither [PFailed] nor
    [PCancelled], the payment is stored [PFailed] with an empty error
    message and completion time [now], also when it was [PSuccess] or
    [PRefunded]: orders, order lines, products and the log stay as they
    are. *)
Theorem poll_acts_on_a_changed_status
    (api : strategy -> provider_api) (u : user) (now : Z) (w : world)
    (p : payment) (s : strategy) :
  find (Payment.by_transaction_id (Some (pay_transaction_id p))) (payments (db w)) = Some p ->
  payment_row w (pay_id p) = Some p ->
  permission_denied u p w = (Ok false, w) ->
  get_payment_strategy (pay_provider p) w = (Ok s, w) ->
  let poll := payment_status_view api u (pay_transaction_id p) now w in
  (forall e, met s (api s) = Throws e ->
   poll = (Ok (Response_ 400 (BodyText e)),
           World_ (db w) (logs w ++ refusal_log s GetPaymentStatus (api s)))) /\
  (forall a, met s (api s) = Responds a -> a_amount a = None ->
   match a_status a with
   | None => poll = (Raise AttributeError, w)
   | Some status =>
       let provider_status := lower status in
       (reports_success provider_status = false ->
        reports_failure provider_status = false ->
        poll = (Ok (Response_ 200 (BodyPayment p)), w)) /\
       (reports_success provider_status = true -> pay_status p = PSuccess ->
        poll = (Ok (Response_ 200 (BodyPayment p)), w)) /\
       (reports_success provider_status = false ->
        reports_failure provider_status = true ->
        pay_status p <> PFailed -> pay_status p <> PCancelled ->
        exists p1 w1,
          poll = (Ok (Response_ 200 (BodyPayment p1)), w1) /\
          payment_row w1 (pay_id p) = Some p1 /\
          pay_status p1 = PFailed /\ pay_error_message p1 = ""%string /\
          pay_completed_at p1 = Some now /\
          orders (db w1) = orders (db w) /\
          order_items (db w1) = order_items (db w) /\
          products (db w1) = products (db w) /\
          logs w1 = logs w)
   end).
Proof.
  intros Htx Hrow Hperm Hs poll.
  split.
  - intros e Hmet. by apply poll_refused.
  - intros a Hmet Hamount. unfold poll.
    rewrite (poll_answered api u p s a now w Htx Hperm Hs Hmet Hamount).
    unfold try_except.
    destruct (a_status a) as [status|]; [|done].
    split; [|split].
    + by intros -> ->.
    + intros -> Hst. by rewrite bool_decide_false by (by intros ?; congruence).
    + intros -> -> H1 H2.
      rewrite !bool_decide_false by done. simpl.
      destruct (mark_as_failed_run p "" (Some (a_raw a)) now w p Hrow)
        as (Hrun & Hprow & _).
      rewrite (bind_Ok _ _ _ _ _ Hrun).
      eexists _, _. split; [reflexivity|]. split; [|done].
      rewrite Hprow. done.
Qed.

Lemma poll_acts_on_a_changed_status_witness :
  let charged_back := fun _ : strategy =>
    Api_ None (Responds (Object_ (Some "pi_1") (Some "Failed") None None None None
                                 [("id", "pi_1"); ("status", "Failed")])) in
  exists p1 w1,
    payment_status_view charged_back alice "pi_1" 200 shop_paid
      = (Ok (Response_ 200 (BodyPayment p1)), w1) /\
    payment_row w1 1 = Some p1 /\
    pay_status p1 = PFailed /\
    o_status <$> order_row w1 1 = Some OPaid /\
    products (db w1) = products (db shop_paid).
Proof.
  intros charged_back.
  destruct (poll_acts_on_a_changed_status charged_back alice 200 shop_paid
              (Payment_ 1 1 "stripe" "pi_1" 10600 "USD" PSuccess
                        [("id", "pi_1"); ("status", "succeeded")] "" None (Some 100))
              Stripe eq_refl eq_refl eq_refl eq_refl) as (_ & H).
  destruct (H _ eq_refl eq_refl) as (_ & _ & H').
  destruct H' as (p1 & w1 & H1 & H2 & H3 & _ & _ & H4 & _ & H5 & _);
    [reflexivity | reflexivity | discriminate | discriminate |].
  exists p1, w1. do 3 (split; [done|]). split; [|done].
  unfold order_row. by rewrite H4.
Defined.

(** ** The order views *)

(** X16. Who gets what from the order views.  For an order id that is not
    stored, [retrieve] and [cancel] answer 404.  For a stored order of another
    user, a requester without admin privileges gets 403 from [retrieve] and
    400 from [cancel].  The owner, and any admin, gets 200 and the stored
    order from [retrieve].  In all these cases the world is exactly as
    before. *)
Theorem order_views_answer_by_ownership (u : user) (pk : Z) (w : world) :
  (order_row w pk = None ->
   OrderViewSet.retrieve u pk w = (Ok (Response_ 404 (BodyText "Order not found")), w) /\
   OrderViewSet.cancel u pk w = (Ok (Response_ 404 (BodyText "Order not found")), w)) /\
  (forall o, order_row w pk = Some o ->
     o_user o <> u_id u -> has_admin_privileges u = false ->
     OrderViewSet.retrieve u pk w = (Ok (Response_ 403 (BodyError NotOwner)), w) /\
     OrderViewSet.cancel u pk w = (Ok (Response_ 400 (BodyError NotOwner)), w)) /\
  (forall o, order_row w pk = Some o ->
     o_user o = u_id u \/ has_admin_privileges u = true ->
     OrderViewSet.retrieve u pk w = (Ok (Response_ 200 (BodyOrder o)), w)).
Proof.
  split; [|split].
  - intros Hnone.
    assert (forall a, OrderService.get_order_details pk a w = (Raise OrderDoesNotExist, w))
      as Hget.
    { intros a. unfold OrderService.get_order_details, Order.objects_get.
      unfold order_row in Hnone. unfold bind, read. by rewrite Hnone. }
    split.
    + unfold OrderViewSet.retrieve, try_except.
      by rewrite (bind_Raise' _ _ _ _ _ (Hget _)).
    + assert (OrderService.cancel_order pk (OrderViewSet.acting_user u) w
              = (Raise OrderDoesNotExist, w)) as Hcancel.
      { unfold OrderService.cancel_order, atomic.
        rewrite (bind_Raise' _ _ _ _ _ (Hget _)). by destruct w. }
      unfold OrderViewSet.cancel, try_except.
      by rewrite (bind_Raise' _ _ _ _ _ Hcancel).
  - intros o Ho Hne Hadm.
    assert (OrderService.get_order_details pk (OrderViewSet.acting_user u) w
            = (Raise (ValidationError NotOwner), w)) as Hget.
    { unfold OrderService.get_order_details, OrderViewSet.acting_user.
      rewrite Hadm, (bind_Ok _ _ _ _ _ (Order_objects_get_Some _ _ _ Ho)).
      by rewrite bool_decide_true. }
    split.
    + unfold OrderViewSet.retrieve, try_except.
      by rewrite (bind_Raise' _ _ _ _ _ Hget).
    + assert (OrderService.cancel_order pk (OrderViewSet.acting_user u) w
              = (Raise (ValidationError NotOwner), w)) as Hcancel.
      { unfold OrderService.cancel_order, atomic.
        rewrite (bind_Raise' _ _ _ _ _ Hget). by destruct w. }
      unfold OrderViewSet.cancel, try_except.
      by rewrite (bind_Raise' _ _ _ _ _ Hcancel).
  - intros o Ho Hown.
    assert (OrderService.get_order_details pk (OrderViewSet.acting_user u) w = (Ok o, w))
      as Hget.
    { unfold OrderService.get_order_details, OrderViewSet.acting_user.
      rewrite (bind_Ok _ _ _ _ _ (Order_objects_get_Some _ _ _ Ho)).
      destruct (has_admin_privileges u) eqn:Hadm; [done|].
      destruct Hown as [Hown|?]; [|done]. by rewrite bool_decide_false by (by intros ?). }
    unfold OrderViewSet.retrieve, try_except.
    by rewrite (bind_Ok _ _ _ _ _ Hget).
Qed.

(** ** Instances of the properties above *)

Lemma reduce_then_increase_stock_witness :
  let w := World_ (Database_ [Product_ 3 700 2 Inactive] [] [] [] 1 1 1) [] in
  exists self1 w1 r self2 w2,
    Product.reduce_stock (Product_ 3 700 2 Inactive) 2 w = (Ok self1, w1) /\
    p_status self1 = OutOfStock /\
    product_row w 3 = Some r /\
    Product.increase_stock self1 2 w1 = (Ok self2, w2) /\
    product_row w2 3 = Some (Product_ 3 700 2 Active).
Proof.
  intros w.
  destruct (reduce_then_increase_stock (Product_ 3 700 2 Inactive) 2 w
              (Product_ 3 700 0 OutOfStock)
              (World_ (Database_ [Product_ 3 700 0 OutOfStock] [] [] [] 1 1 1) []))
    as (r & self2 & w2 & Hr & Hinc & _ & _ & Hrow & _); [reflexivity|].
  exists (Product_ 3 700 0 OutOfStock),
         (World_ (Database_ [Product_ 3 700 0 OutOfStock] [] [] [] 1 1 1) []),
         r, self2, w2.
  split; [reflexivity|]. split; [reflexivity|]. split; [exact Hr|].
  split; [exact Hinc|].
  simpl in Hr, Hrow. injection Hr as <-. exact Hrow.
Defined.

Lemma cancel_twice_changes_nothing_witness :
  let o1 := Order_ 1 7 10600 OCancelled "" in
  let w1 := World_ (Database_
                      [Product_ 1 5000 10 Active; Product_ 2 300 2 Active]
                      [o1]
                      [OrderItem_ 1 1 1 2 5000 10000; OrderItem_ 2 1 2 2 300 600]
                      [Payment_ 1 1 "stripe" "pi_1" 10600 "USD" PSuccess
                                [("id", "pi_1"); ("status", "succeeded")] "" None (Some 100)]
                      2 3 2) [] in
  Order.cancel (Order_ 1 7 10600 OPaid "") shop_paid = (Ok o1, w1) /\
  Order.cancel o1 w1 = (Ok o1, w1).
Proof.
  intros o1 w1. split; [reflexivity|].
  apply (cancel_twice_changes_nothing (Order_ 1 7 10600 OPaid "") shop_paid o1 w1).
  reflexivity.
Defined.

Lemma create_then_delete_line_witness :
  let o := Order_ 1 7 600 OPending "" in
  let p := Product_ 1 5000 10 Active in
  let w := World_ (Database_ [p; Product_ 2 300 2 Active] [o]
                             [OrderItem_ 1 1 2 2 300 600] [] 2 2 1) [] in
  let line := OrderItem_ 2 1 1 3 5000 15000 in
  let o1 := Order_ 1 7 15600 OPending "" in
  let w1 := World_ (Database_ [p; Product_ 2 300 2 Active] [o1]
                              [OrderItem_ 1 1 2 2 300 600; line] [] 2 3 1) [] in
  OrderItem.objects_create o p 3 None w = (Ok (line, o1), w1) /\
  exists w2,
    OrderItem.delete line w1 = (Ok tt, w2) /\
    order_items (db w2) = order_items (db w) /\
    o_total_amount <$> order_row w2 1 = Some 600.
Proof.
  intros o p w line o1 w1.
  assert (OrderItem.objects_create o p 3 None w = (Ok (line, o1), w1)) as Hrun
    by reflexivity.
  split; [exact Hrun|].
  pose proof (create_then_delete_line o p 3 None w line o1 w1 Hrun) as H.
  assert (fits (subtotals (items_of w (o_id o))) = true) as Hfits
    by (vm_compute; reflexivity).
  rewrite Hfits in H. destruct H as (w2 & Hdel & Hitems & _ & _ & Htotal).
  by exists w2.
Defined.

(** * Categories *)

Lemma outcome_map_inv {A B} (f : A -> outcome B) xs ys :
  outcome_map f xs = Returns ys -> Forall2 (fun x y => f x = Returns y) xs ys.
Proof.
  revert ys. induction xs as [|x xs IH]; simpl; intros ys H.
  - injection H as <-. constructor.
  - destruct (f x) as [y| |] eqn:Hx; simpl in H; try discriminate.
    destruct (outcome_map f xs) as [ys'| |]; simpl in H; try discriminate.
    injection H as <-. constructor; [done|]. by apply IH.
Qed.

Lemma outcome_map_Returns {A B} (f : A -> outcome B) xs ys :
  Forall2 (fun x y => f x = Returns y) xs ys -> outcome_map f xs = Returns ys.
Proof.
  induction 1 as [|x y xs ys Hx _ IH]; simpl; [done|]. by rewrite Hx, IH.
Qed.

Lemma parent_inv t c p :
  Category.parent t c = Returns (Some p) ->
  c_parent c = Some (c_id p) /\ p ∈ t.
Proof.
  unfold Category.parent. destruct (c_parent c) as [k|]; [|discriminate].
  destruct (row_get c_id k t) as [r|] eqn:Hr; [|discriminate].
  intros [= ->]. split; [by rewrite (row_get_key _ _ _ _ Hr)|].
  clear -Hr. induction t as [|x t IH]; simpl in Hr; [discriminate|].
  case_bool_decide; [injection Hr as ->; left | right; auto].
Qed.

(** The rows the ancestor loop appends do not depend on what it starts from. *)
Lemma ancestors_loop_acc fuel t current acc :
  Category.ancestors_loop fuel t current acc =
    outcome_bind (Category.ancestors_loop fuel t current [])
                 (fun rest => Returns (acc ++ rest)).
Proof.
  revert current acc. induction fuel as [|fuel IH]; intros [c|] acc; simpl;
    try (by rewrite ?app_nil_r).
  destruct (Category.parent t c) as [p| |]; simpl; try done.
  rewrite (IH p (acc ++ [c])), (IH p [c]).
  destruct (Category.ancestors_loop fuel t p []); simpl; try done.
  by rewrite <- app_assoc.
Qed.

(** The path loop walks the same rows and puts their names in front. *)
Lemma path_loop_ancestors fuel t current path :
  Category.path_loop fuel t current path =
    outcome_bind (Category.ancestors_loop fuel t current [])
                 (fun rest => Returns (map c_name (rev rest) ++ path)).
Proof.
  revert current path. induction fuel as [|fuel IH]; intros [c|] path; simpl; try done.
  destruct (Category.parent t c) as [p| |]; simpl; try done.
  rewrite (IH p), (ancestors_loop_acc fuel t p [c]).
  destruct (Category.ancestors_loop fuel t p []) as [rest| |]; simpl; try done.
  by rewrite map_app, <- app_assoc.
Qed.

Lemma get_full_path_ancestors fuel t self :
  Category.get_full_path fuel t self =
    outcome_bind (Category.get_ancestors fuel t self)
      (fun ancestors =>
         Returns (join " > " (map c_name (rev ancestors) ++ [c_name self]))).
Proof.
  unfold Category.get_full_path, Category.get_ancestors.
  destruct (Category.parent t self) as [p| |]; simpl; try done.
  rewrite path_loop_ancestors.
  by destruct (Category.ancestors_loop fuel t p []).
Qed.

(** X17. [get_full_path] and [get_ancestors] walk the same chain: on the same
    fuel the path is the names of the ancestors, outermost first, followed by
    the category's own name and joined by " > "; and where one of them meets
    a missing parent row or does not finish, so does the other. *)
Theorem full_path_names_the_ancestors (fuel : nat) (t : list category) (self : category) :
  Category.get_full_path fuel t self =
    match Category.get_ancestors fuel t self with
    | Returns ancestors =>
        Returns (join " > " (map c_name (rev ancestors) ++ [c_name self]))
    | Dangling k => Dangling k
    | OutOfFuel => OutOfFuel
    end.
Proof. apply get_full_path_ancestors. Qed.

Lemma ancestors_loop_ranked (rank : Z -> nat) t :
  (forall c p, c ∈ t -> c_parent c = Some p ->
     is_Some (row_get c_id p t) /\ (rank p < rank (c_id c))%nat) ->
  forall n current,
    (forall c, current = Some c -> c ∈ t /\ (rank (c_id c) < n)%nat) ->
    exists rest,
      (forall fuel, (n <= fuel)%nat ->
         Category.ancestors_loop fuel t current [] = Returns rest) /\
      (List.length rest <= n)%nat /\
      parent_chain (c_id <$> current) rest /\
      Forall (fun a => a ∈ t /\ (rank (c_id a) < n)%nat) rest.
Proof.
  intros Hforest. induction n as [|n IH]; intros current Hcur.
  - destruct current as [c|]; [destruct (Hcur c eq_refl); lia|].
    exists []. split; [by intros []|done].
  - destruct current as [c|].
    2: { exists []. split; [by intros []|]. split; [simpl; lia|done]. }
    destruct (Hcur c eq_refl) as [Hin Hrank].
    assert (exists p, Category.parent t c = Returns p /\
              c_id <$> p = c_parent c /\
              forall p', p = Some p' -> p' ∈ t /\ (rank (c_id p') < n)%nat)
      as (p & Hp & Hid & Hnext).
    { unfold Category.parent. destruct (c_parent c) as [k|] eqn:Hpar.
      - destruct (Hforest c k Hin Hpar) as [[r Hr] Hlt].
        pose proof (row_get_key _ _ _ _ Hr) as Hk.
        assert (Category.parent t c = Returns (Some r)) as Hp'
          by (unfold Category.parent; by rewrite Hpar, Hr).
        apply parent_inv in Hp' as [_ Hrin].
        rewrite Hr. exists (Some r). split; [done|]. split; [simpl; by rewrite Hk|].
        intros p' [= <-]. rewrite Hk. split; [done|lia].
      - by exists None. }
    destruct (IH p Hnext) as (rest & Hrun & Hlen & Hchain & Hall).
    exists (c :: rest). split; [|split; [simpl; lia|split]].
    + intros [|fuel] Hfuel; [lia|]. simpl. rewrite Hp. simpl.
      rewrite ancestors_loop_acc, (Hrun fuel) by lia. done.
    + simpl. split; [done|]. by rewrite <- Hid.
    + constructor; [done|].
      eapply Forall_impl; [exact Hall|]. intros a [? ?]. split; [done|lia].
Qed.

(** X18. In a table without parent cycles, given by a rank that gets smaller
    from a row to its parent, and in which every parent key has its row,
    [get_ancestors] of a stored category returns on any fuel from the
    category's rank on.  The list starts with the parent, goes from each row
    to its parent and ends at a root; its rows are rows of the table, at most
    rank many, and the category itself is not among them. *)
Theorem ancestors_end_at_a_root
    (rank : Z -> nat) (t : list category) (self : category) :
  (forall c p, c ∈ t -> c_parent c = Some p ->
     is_Some (row_get c_id p t) /\ (rank p < rank (c_id c))%nat) ->
  self ∈ t ->
  exists ancestors,
    (forall fuel, (rank (c_id self) <= fuel)%nat ->
       Category.get_ancestors fuel t self = Returns ancestors) /\
    parent_chain (c_parent self) ancestors /\
    (List.length ancestors <= rank (c_id self))%nat /\
    Forall (fun a => a ∈ t /\ c_id a <> c_id self) ancestors.
Proof.
  intros Hforest Hself.
  assert (exists current, Category.parent t self = Returns current /\
            c_id <$> current = c_parent self /\
            forall c, current = Some c -> c ∈ t /\ (rank (c_id c) < rank (c_id self))%nat)
    as (current & Hp & Hid & Hcur).
  { unfold Category.parent. destruct (c_parent self) as [p|] eqn:Hpar.
    - destruct (Hforest self p Hself Hpar) as [[r Hr] Hlt]. rewrite Hr.
      exists (Some r). pose proof (row_get_key _ _ _ _ Hr) as Hk.
      split; [done|]. split; [simpl; by rewrite Hk|].
      intros c [= <-]. rewrite Hk. split; [|done].
      assert (Category.parent t self = Returns (Some r)) as Hp'
        by (unfold Category.parent; by rewrite Hpar, Hr).
      by apply parent_inv in Hp' as [_ ?].
    - by exists None. }
  destruct (ancestors_loop_ranked rank t Hforest (rank (c_id self)) current Hcur)
    as (rest & Hrun & Hlen & Hchain & Hall).
  exists rest. split; [|split; [by rewrite <- Hid|split; [done|]]].
  - intros fuel Hfuel. unfold Category.get_ancestors. rewrite Hp. simpl.
    by apply Hrun.
  - eapply Forall_impl; [exact Hall|]. intros a [? Hlt]. split; [done|].
    intros E. rewrite E in Hlt. lia.
Qed.

Lemma ancestors_end_at_a_root_witness :
  let gaming := Category_ 3 "Gaming Laptops" (Some 2) true in
  exists ancestors,
    (forall fuel, (3 <= fuel)%nat ->
       Category.get_ancestors fuel catalogue gaming = Returns ancestors) /\
    parent_chain (Some 2) ancestors /\
    (List.length ancestors <= 3)%nat /\
    Forall (fun a => a ∈ catalogue /\ c_id a <> 3) ancestors.
Proof.
  intros gaming.
  apply (ancestors_end_at_a_root (fun k => Z.to_nat k) catalogue gaming).
  - intros c p Hin Hp.
    apply (proj1 (Forall_forall (fun c => forall p, c_parent c = Some p ->
                    is_Some (row_get c_id p catalogue) /\
                    (Z.to_nat p < Z.to_nat (c_id c))%nat) catalogue)); [|done..].
    repeat first [apply Forall_nil_2 | apply Forall_cons_2];
      intros q Hq; simplify_eq/=; (split; [vm_compute; eauto | lia]).
  - apply (bool_decide_unpack _). reflexivity.
Defined.

Lemma ancestors_loop_cycle (on_cycle : Z -> Prop) t :
  (forall k, on_cycle k ->
     exists c p, row_get c_id k t = Some c /\ c_parent c = Some p /\ on_cycle p) ->
  forall fuel c p acc,
    c_parent c = Some p -> on_cycle p ->
    Category.ancestors_loop fuel t (Some c) acc = OutOfFuel.
Proof.
  intros Hcycle. induction fuel as [|fuel IH]; intros c p acc Hp Hon; [done|].
  simpl. unfold Category.parent. rewrite Hp.
  destruct (Hcycle p Hon) as (c' & p' & -> & Hp' & Hon'). simpl.
  by apply (IH c' p').
Qed.

(** X19. Nothing keeps a category from being its own ancestor.  If the parent
    of a category lies on a parent cycle (a set of keys, each the key of a row
    whose parent key is in the set again), then [get_ancestors] and
    [get_full_path] of that category do not return: every amount of fuel is
    used up. *)
Theorem ancestors_of_a_cycle_never_return
    (on_cycle : Z -> Prop) (t : list category) (self : category) (p : Z) :
  (forall k, on_cycle k ->
     exists c p, row_get c_id k t = Some c /\ c_parent c = Some p /\ on_cycle p) ->
  c_parent self = Some p -> on_cycle p ->
  forall fuel,
    Category.get_ancestors fuel t self = OutOfFuel /\
    Category.get_full_path fuel t self = OutOfFuel.
Proof.
  intros Hcycle Hp Hon fuel.
  assert (Category.get_ancestors fuel t self = OutOfFuel) as Hrun.
  { unfold Category.get_ancestors, Category.parent. rewrite Hp.
    destruct (Hcycle p Hon) as (c' & p' & -> & Hp' & Hon'). simpl.
    by apply (ancestors_loop_cycle on_cycle t Hcycle fuel c' p'). }
  split; [done|]. by rewrite get_full_path_ancestors, Hrun.
Qed.

Lemma ancestors_of_a_cycle_never_return_witness :
  Category.get_ancestors 50 looped (Category_ 5 "Misc" (Some 5) true) = OutOfFuel /\
  Category.get_full_path 50 looped (Category_ 5 "Misc" (Some 5) true) = OutOfFuel.
Proof.
  apply (ancestors_of_a_cycle_never_return (fun k => k = 5) looped
           (Category_ 5 "Misc" (Some 5) true) 5); [|reflexivity..].
  intros k ->. by exists (Category_ 5 "Misc" (Some 5) true), 5.
Defined.

Lemma descendants_loop_empty fuel t self acc :
  Category.descendants_loop fuel t self [] acc = Returns acc.
Proof. by destruct fuel. Qed.

(** One turn of the loop, with the stack written top first. *)
Lemma descendants_loop_pop fuel t self c cs acc :
  Category.descendants_loop (S fuel) t self (rev (c :: cs)) acc =
    Category.descendants_loop fuel t self
      (rev (Category.active_children t c ++ cs))
      (if bool_decide (c_id c <> c_id self) then acc ++ [c] else acc).
Proof.
  remember (rev (c :: cs)) as stack eqn:Hstack.
  cbn [Category.descendants_loop]. rewrite Hstack, rev_involutive.
  by rewrite rev_app_distr.
Qed.

Lemma descendants_loop_stuck t self c cs acc :
  Category.descendants_loop 0 t self (rev (c :: cs)) acc = OutOfFuel.
Proof.
  remember (rev (c :: cs)) as stack eqn:Hstack.
  cbn [Category.descendants_loop]. by rewrite Hstack, rev_involutive.
Qed.

Lemma descendants_loop_cycle (on_cycle : category -> Prop) t self :
  (forall c, on_cycle c ->
     exists d, d ∈ Category.active_children t c /\ on_cycle d) ->
  forall fuel cs acc,
    Exists on_cycle cs ->
    Category.descendants_loop fuel t self (rev cs) acc = OutOfFuel.
Proof.
  intros Hcycle. induction fuel as [|fuel IH]; intros cs acc Hex.
  - destruct cs as [|c cs]; [by apply Exists_nil in Hex|].
    by apply descendants_loop_stuck.
  - destruct cs as [|c cs]; [by apply Exists_nil in Hex|].
    rewrite descendants_loop_pop. apply IH.
    apply Exists_app. apply Exists_cons in Hex as [Hc|Hcs]; [left|by right].
    destruct (Hcycle c Hc) as (d & Hd & Hon).
    apply Exists_exists. by exists d.
Qed.

Lemma outcome_map_OutOfFuel {A B} (f : A -> outcome B) xs x :
  (forall y k, f y <> Dangling k) -> In x xs -> f x = OutOfFuel ->
  outcome_map f xs = OutOfFuel.
Proof.
  intros Hnd. induction xs as [|y xs IH]; simpl; [done|].
  intros [->|Hin] Hx; [by rewrite Hx|].
  destruct (f y) as [b|k|] eqn:Hy; simpl; [|by destruct (Hnd y k)|done].
  by rewrite (IH Hin Hx).
Qed.

Lemma outcome_map_not_Dangling {A B} (f : A -> outcome B) xs :
  (forall y k, f y <> Dangling k) -> forall k, outcome_map f xs <> Dangling k.
Proof.
  intros Hnd. induction xs as [|y xs IH]; simpl; intros k; [done|].
  destruct (f y) as [b|k'|] eqn:Hy; simpl; [|by destruct (Hnd y k')|done].
  destruct (outcome_map f xs) as [bs|k'|] eqn:Hxs; simpl; [done| |done].
  by destruct (IH k').
Qed.

Lemma serialize_not_Dangling fuel t c k :
  CategoryTreeService._serialize_category_dfs fuel t c <> Dangling k.
Proof.
  revert c k. induction fuel as [|fuel IH]; intros c k; simpl; [done|].
  destruct (outcome_map _ _) as [kids|k'|] eqn:Hmap; simpl; [done| |done].
  by destruct (outcome_map_not_Dangling _ _ (IH) _ Hmap).
Qed.

(** X20. The walks downwards do not guard against cycles either.  If a
    category belongs to a set of categories each of which has an active child
    in the set (the category is its own descendant through active children),
    then [get_descendants_dfs] and [_serialize_category_dfs] of it do not
    return: every amount of fuel is used up. *)
Theorem descendants_of_a_cycle_never_return
    (on_cycle : category -> Prop) (t : list category) (self : category) :
  (forall c, on_cycle c ->
     exists d, d ∈ Category.active_children t c /\ on_cycle d) ->
  on_cycle self ->
  forall fuel,
    Category.get_descendants_dfs fuel t self = OutOfFuel /\
    CategoryTreeService._serialize_category_dfs fuel t self = OutOfFuel.
Proof.
  intros Hcycle Hself fuel. split.
  - apply (descendants_loop_cycle on_cycle t self Hcycle fuel [self] []).
    by apply Exists_cons_hd.
  - revert self Hself. induction fuel as [|fuel IH]; intros self Hself; [done|].
    simpl. destruct (Hcycle self Hself) as (d & Hd & Hon).
    rewrite (outcome_map_OutOfFuel _ _ d); [done| |by apply list_elem_of_In|by apply IH].
    intros y k. apply serialize_not_Dangling.
Qed.

Lemma descendants_of_a_cycle_never_return_witness :
  Category.get_descendants_dfs 50 looped (Category_ 5 "Misc" (Some 5) true)
    = OutOfFuel /\
  CategoryTreeService._serialize_category_dfs 50 looped
    (Category_ 5 "Misc" (Some 5) true) = OutOfFuel.
Proof.
  apply (descendants_of_a_cycle_never_return
           (fun c => c = Category_ 5 "Misc" (Some 5) true) looped
           (Category_ 5 "Misc" (Some 5) true)); [|reflexivity].
  intros c ->. exists (Category_ 5 "Misc" (Some 5) true).
  split; [|reflexivity]. apply (bool_decide_unpack _). reflexivity.
Defined.

Lemma serialize_inv n t c tr :
  CategoryTreeService._serialize_category_dfs n t c = Returns tr ->
  exists n' kids,
    n = S n' /\ tr = Node c kids /\
    Forall2 (fun x y => CategoryTreeService._serialize_category_dfs n' t x = Returns y)
            (Category.active_children t c) kids.
Proof.
  destruct n as [|n']; simpl; [discriminate|].
  destruct (outcome_map _ _) as [kids| |] eqn:Hmap; simpl; try discriminate.
  intros [= <-]. exists n', kids. by apply outcome_map_inv in Hmap.
Qed.

Lemma active_children_inv t c x :
  x ∈ Category.active_children t c ->
  x ∈ t /\ c_parent x = Some (c_id c) /\ c_is_active x = true.
Proof.
  unfold Category.active_children. rewrite !list_elem_of_In, filter_In.
  intros [Hin Hx]. apply andb_prop in Hx as [Hp Ha].
  by apply bool_decide_eq_true in Hp.
Qed.

Lemma Forall2_elem_l {A B} (R : A -> B -> Prop) xs ys x :
  Forall2 R xs ys -> x ∈ xs -> exists y, y ∈ ys /\ R x y.
Proof.
  induction 1 as [|x' y' xs ys HR _ IH]; intros Hin.
  - by apply elem_of_nil in Hin.
  - apply elem_of_cons in Hin as [->|Hin].
    + exists y'. split; [left|done].
    + destruct (IH Hin) as (y & ? & ?). exists y. split; [by right|done].
Qed.

Lemma Forall2_elem_r {A B} (R : A -> B -> Prop) xs ys y :
  Forall2 R xs ys -> y ∈ ys -> exists x, x ∈ xs /\ R x y.
Proof.
  induction 1 as [|x' y' xs ys HR _ IH]; intros Hin.
  - by apply elem_of_nil in Hin.
  - apply elem_of_cons in Hin as [->|Hin].
    + exists x'. split; [left|done].
    + destruct (IH Hin) as (x & ? & ?). exists x. split; [by right|done].
Qed.

Lemma elem_of_concat_map {A B} (f : A -> list B) xs b :
  b ∈ List.concat (map f xs) <-> exists x, x ∈ xs /\ b ∈ f x.
Proof.
  induction xs as [|x xs IH]; simpl.
  - split; [by intros ?%elem_of_nil | by intros (? & ?%elem_of_nil & _)].
  - rewrite elem_of_app, IH. split.
    + intros [?|(y & ? & ?)]; [exists x; split; [left|done] | exists y; split; [by right|done]].
    + intros (y & [->|?]%elem_of_cons & ?); [by left | right; by exists y].
Qed.

(** The loop on a stack of categories whose trees are known: it appends the
    rows of the trees, top of the stack first, leaving out [self]. *)
Lemma descendants_loop_trees t self :
  forall m cs trs acc fuel,
    Forall2 (fun c tr =>
               exists n, CategoryTreeService._serialize_category_dfs n t c = Returns tr)
            cs trs ->
    (List.length (List.concat (map preorder trs)) <= m)%nat -> (m <= fuel)%nat ->
    Category.descendants_loop fuel t self (rev cs) acc =
      Returns (acc ++ filter (fun c => c_id c <> c_id self)
                             (List.concat (map preorder trs))).
Proof.
  induction m as [|m IH]; intros cs trs acc fuel Hall Hlen Hfuel.
  - destruct Hall as [|c tr cs trs [n Hc] _].
    + simpl. by rewrite descendants_loop_empty, app_nil_r.
    + apply serialize_inv in Hc as (? & ? & _ & -> & _). simpl in Hlen. lia.
  - destruct Hall as [|c tr cs trs [n Hc] Hall].
    + simpl. by rewrite descendants_loop_empty, app_nil_r.
    + apply serialize_inv in Hc as (n' & kids & _ & -> & Hkids).
      destruct fuel as [|fuel]; [lia|].
      rewrite descendants_loop_pop.
      rewrite (IH (Category.active_children t c ++ cs) (kids ++ trs)).
      * f_equal. simpl. rewrite map_app, concat_app.
        case_bool_decide as Hne.
        -- rewrite filter_cons_True by done. by rewrite <- app_assoc.
        -- by rewrite filter_cons_False by (intros ?; congruence).
      * apply Forall2_app; [|done].
        eapply Forall2_impl; [exact Hkids|]. intros x y Hx. by exists n'.
      * simpl in Hlen. rewrite map_app, concat_app. lia.
      * lia.
Qed.

(** X21. The iterative walk of the model and the recursive walk of the
    service agree: whenever [_serialize_category_dfs] returns a tree for a
    category, [get_descendants_dfs] returns, on any fuel from the number of
    rows of that tree on, the rows of the tree in preorder without the rows
    that have the category's own key. *)
Theorem descendants_are_the_serialized_tree
    (n : nat) (t : list category) (self : category) (tr : tree) :
  CategoryTreeService._serialize_category_dfs n t self = Returns tr ->
  forall fuel, (List.length (preorder tr) <= fuel)%nat ->
    Category.get_descendants_dfs fuel t self =
      Returns (filter (fun c => c_id c <> c_id self) (preorder tr)).
Proof.
  intros Hser fuel Hfuel. unfold Category.get_descendants_dfs.
  change [self] with (rev [self]).
  rewrite (descendants_loop_trees t self (List.length (preorder tr)) [self] [tr] [] fuel).
  - simpl. by rewrite app_nil_r.
  - constructor; [by exists n|constructor].
  - simpl. by rewrite app_nil_r.
  - done.
Qed.

Lemma descendants_are_the_serialized_tree_witness :
  let electronics := Category_ 1 "Electronics" None true in
  Category.get_descendants_dfs 4 catalogue electronics =
    Returns [Category_ 2 "Laptops" (Some 1) true;
             Category_ 3 "Gaming Laptops" (Some 2) true;
             Category_ 4 "Phones" (Some 1) true].
Proof.
  intros electronics.
  apply (descendants_are_the_serialized_tree 3 catalogue electronics
           (Node electronics
                 [Node (Category_ 2 "Laptops" (Some 1) true)
                       [Node (Category_ 3 "Gaming Laptops" (Some 2) true) []];
                  Node (Category_ 4 "Phones" (Some 1) true) []]));
    [reflexivity | simpl; lia].
Defined.

Lemma filter_keeps_all {A} (P : A -> Prop) `{!forall x, Decision (P x)} (l : list A) :
  Forall P l -> filter P l = l.
Proof.
  induction 1 as [|x l Hx _ IH]; [done|]. by rewrite filter_cons_True, IH.
Qed.

Lemma under_child_trans t c x d :
  x ∈ Category.active_children t c -> under t x d -> under t c d.
Proof.
  intros Hx. induction 1 as [d Hd|e d _ IH Hd].
  - eapply under_step; [by apply under_child|done].
  - eapply under_step; [exact IH|done].
Qed.

Lemma preorder_root n t c tr :
  CategoryTreeService._serialize_category_dfs n t c = Returns tr ->
  preorder tr = c :: tail (preorder tr).
Proof. intros (? & ? & _ & -> & _)%serialize_inv. done. Qed.

Lemma serialized_rows_under t :
  forall n c tr,
    CategoryTreeService._serialize_category_dfs n t c = Returns tr ->
    forall d, d ∈ tail (preorder tr) -> under t c d.
Proof.
  induction n as [|n IH]; intros c tr Hser d Hd;
    apply serialize_inv in Hser as (n' & kids & [= <-] & -> & Hkids).
  simpl in Hd. apply elem_of_concat_map in Hd as (kid & Hkid & Hd).
  destruct (Forall2_elem_r _ _ _ _ Hkids Hkid) as (x & Hx & Hser).
  rewrite (preorder_root _ _ _ _ Hser) in Hd.
  apply elem_of_cons in Hd as [->|Hd]; [by apply under_child|].
  eapply under_child_trans; [exact Hx|]. by eapply IH.
Qed.

Lemma serialized_rows_closed t :
  forall n c tr,
    CategoryTreeService._serialize_category_dfs n t c = Returns tr ->
    forall e d, e ∈ preorder tr -> d ∈ Category.active_children t e ->
      d ∈ tail (preorder tr).
Proof.
  induction n as [|n IH]; intros c tr Hser e d He Hd;
    apply serialize_inv in Hser as (n' & kids & [= <-] & -> & Hkids).
  simpl in *. apply elem_of_concat_map.
  apply elem_of_cons in He as [->|He].
  - destruct (Forall2_elem_l _ _ _ _ Hkids Hd) as (kid & Hkid & Hser).
    exists kid. split; [done|]. rewrite (preorder_root _ _ _ _ Hser). left.
  - apply elem_of_concat_map in He as (kid & Hkid & He).
    destruct (Forall2_elem_r _ _ _ _ Hkids Hkid) as (x & Hx & Hser).
    exists kid. split; [done|].
    rewrite (preorder_root _ _ _ _ Hser). right. by eapply IH.
Qed.

Lemma under_serialized t n c tr d :
  CategoryTreeService._serialize_category_dfs n t c = Returns tr ->
  under t c d -> d ∈ tail (preorder tr).
Proof.
  intros Hser. induction 1 as [d Hd|e d _ IH Hd].
  - eapply serialized_rows_closed; [exact Hser| |exact Hd].
    rewrite (preorder_root _ _ _ _ Hser). left.
  - eapply serialized_rows_closed; [exact Hser| |exact Hd].
    rewrite (preorder_root _ _ _ _ Hser). by right.
Qed.

Lemma under_ranked (rank : Z -> nat) t self d :
  (forall c p, c ∈ t -> c_parent c = Some p -> (rank (c_id c) < rank p)%nat) ->
  under t self d ->
  d ∈ t /\ c_is_active d = true /\ (rank (c_id d) < rank (c_id self))%nat.
Proof.
  intros Hforest. induction 1 as [d Hd|e d _ (_ & _ & IH) Hd];
    apply active_children_inv in Hd as (Hin & Hp & Ha);
    pose proof (Hforest d _ Hin Hp); repeat split; try done; lia.
Qed.

Lemma serialize_ranked (rank : Z -> nat) t :
  (forall c p, c ∈ t -> c_parent c = Some p -> (rank (c_id c) < rank p)%nat) ->
  forall n c, (rank (c_id c) < n)%nat ->
    exists tr, CategoryTreeService._serialize_category_dfs n t c = Returns tr.
Proof.
  intros Hforest. induction n as [|n IH]; intros c Hn; [lia|]. simpl.
  assert (exists kids,
            outcome_map (CategoryTreeService._serialize_category_dfs n t)
                        (Category.active_children t c) = Returns kids) as [kids ->].
  { assert (Forall (fun x => (rank (c_id x) < n)%nat) (Category.active_children t c))
      as Hall.
    { apply Forall_forall. intros x (Hin & Hp & _)%active_children_inv.
      pose proof (Hforest x _ Hin Hp). lia. }
    induction Hall as [|x xs Hx _ [kids IHkids]]; [by exists []|].
    destruct (IH x Hx) as [kid Hkid]. exists (kid :: kids). simpl.
    by rewrite Hkid, IHkids. }
  by eexists.
Qed.

(** X22. In a table without parent cycles, given by a rank that gets smaller
    from a parent to its children, both walks return for every category:
    [_serialize_category_dfs] on a depth of the category's rank plus one, and
    [get_descendants_dfs] on any fuel from the number of rows of that tree on,
    with the rows of the tree below its root, in preorder.  These are exactly
    the categories reached from the category through active children, so an
    inactive category hides everything under it; each is a row of the table,
    active, and different from the category itself. *)
Theorem descendants_of_a_forest
    (rank : Z -> nat) (t : list category) (self : category) :
  (forall c p, c ∈ t -> c_parent c = Some p -> (rank (c_id c) < rank p)%nat) ->
  exists tr,
    CategoryTreeService._serialize_category_dfs (S (rank (c_id self))) t self
      = Returns tr /\
    (forall fuel, (List.length (preorder tr) <= fuel)%nat ->
       Category.get_descendants_dfs fuel t self = Returns (tail (preorder tr))) /\
    (forall d, d ∈ tail (preorder tr) <-> under t self d) /\
    Forall (fun d => d ∈ t /\ c_is_active d = true /\ c_id d <> c_id self)
           (tail (preorder tr)).
Proof.
  intros Hforest.
  destruct (serialize_ranked rank t Hforest (S (rank (c_id self))) self) as [tr Hser];
    [lia|].
  assert (forall d, d ∈ tail (preorder tr) ->
            d ∈ t /\ c_is_active d = true /\ c_id d <> c_id self) as Hrows.
  { intros d Hd. apply (serialized_rows_under t _ _ _ Hser) in Hd.
    apply (under_ranked rank t self d Hforest) in Hd as (? & ? & Hlt).
    repeat split; try done. intros E. rewrite E in Hlt. lia. }
  exists tr. split; [done|]. split; [|split].
  - intros fuel Hfuel.
    unfold Category.get_descendants_dfs. change [self] with (rev [self]).
    rewrite (descendants_loop_trees t self (List.length (preorder tr)) [self] [tr] []
               fuel); [|by (constructor; [eexists|constructor])|simpl; by rewrite app_nil_r|done].
    simpl. rewrite app_nil_r, (preorder_root _ _ _ _ Hser).
    rewrite filter_cons_False by (by intros ?). f_equal.
    apply filter_keeps_all, Forall_forall. intros d Hd. by apply Hrows.
  - intros d. split; [by apply (serialized_rows_under t _ _ _ Hser)|].
    by apply (under_serialized t _ _ _ _ Hser).
  - by apply Forall_forall.
Qed.

Lemma descendants_of_a_forest_witness :
  let electronics := Category_ 1 "Electronics" None true in
  exists tr,
    CategoryTreeService._serialize_category_dfs 3 catalogue electronics = Returns tr /\
    (forall fuel, (List.length (preorder tr) <= fuel)%nat ->
       Category.get_descendants_dfs fuel catalogue electronics
         = Returns (tail (preorder tr))) /\
    (forall d, d ∈ tail (preorder tr) <-> under catalogue electronics d) /\
    Forall (fun d => d ∈ catalogue /\ c_is_active d = true /\ c_id d <> 1)
           (tail (preorder tr)).
Proof.
  intros electronics.
  apply (descendants_of_a_forest (fun k => (3 - Z.to_nat k)%nat) catalogue electronics).
  intros c p Hin Hp.
  apply (proj1 (Forall_forall (fun c => forall p, c_parent c = Some p ->
                  (3 - Z.to_nat (c_id c) < 3 - Z.to_nat p)%nat) catalogue)); [|done..].
  repeat first [apply Forall_nil_2 | apply Forall_cons_2];
    intros q Hq; simplify_eq/=; lia.
Defined.
